(** * Reservoir authentication gateway: a shallow embedding

    The Go packages [ratelimit], [token], [user], [auth] and [oauth] are
    embedded as Rocq modules of the same names.  The two external stores
    (the Redis key-value store and the PostgreSQL user directory) are explicit
    state; every call that reaches a store may fail, as the Go calls may.

    Conventions.
    - Go's [time.Time] is a number of nanoseconds since the Unix epoch and
      [time.Duration] a number of nanoseconds, both in [Z].
    - Go's [int] is the 64-bit two's complement integer; arithmetic on it is
      written with [wrap_int].
    - A Go [error] is a value of [error]; [nil] is the [Ok] of [result].  A
      panic unwinds to the recovery middleware; it travels as [Panic].
    - [fmt.Printf] log lines are not part of the state. *)

From Stdlib Require Import ZArith Lia Bool List Ascii.
From stdpp Require Import base tactics option list gmap strings pretty.

Local Open Scope string_scope.
Local Open Scope Z_scope.

(** ** Errors and results *)

(** Error values; [arg] is an operand of a [fmt.Errorf] format string. *)
Inductive error : Type :=
  | redis_Nil                          (* redis.Nil: the key does not exist *)
  | sql_ErrNoRows                      (* sql.ErrNoRows *)
  | bcrypt_ErrMismatchedHashAndPassword
  | ErrConn (what : string)            (* transport failure of a store *)
  | ErrLib (what : string)             (* an error value of a library *)
  | Panic (what : string)              (* a run-time panic, not an error value *)
  | Errorf (format : string) (args : list arg)
with arg : Type :=
  | AStr (s : string)
  | AInt (n : Z)
  | ADuration (d : Z)
  | AErr (e : error).                  (* the operand of a %w or %v verb *)

Inductive result (A : Type) : Type :=
  | Ok (a : A)
  | Err (e : error).
Arguments Ok {A} a.
Arguments Err {A} e.

(** ** A state monad whose computations may return an error

    State changes made before an error is returned persist, as in Go. *)

Definition M (S A : Type) : Type := S -> result A * S.

Definition ret {S A} (a : A) : M S A := fun s => (Ok a, s).
Definition fail {S A} (e : error) : M S A := fun s => (Err e, s).
Definition bind {S A B} (m : M S A) (k : A -> M S B) : M S B :=
  fun s => match m s with
           | (Ok a, s') => k a s'
           | (Err e, s') => (Err e, s')
           end.

(** [x, err := m] followed by an inspection of [err]: never fails itself. *)
Definition attempt {S A} (m : M S A) : M S (result A) :=
  fun s => let '(r, s') := m s in (Ok r, s').

(** [if err != nil { return ..., f(err) }]. *)
Definition wrap {S A} (f : error -> error) (m : M S A) : M S A :=
  fun s => match m s with
           | (Ok a, s') => (Ok a, s')
           | (Err e, s') => (Err (f e), s')
           end.

(** Running a computation on a component of a larger state. *)
Definition zoom {S T A} (get : T -> S) (set : S -> T -> T) (m : M S A) : M T A :=
  fun t => let '(r, s') := m (get t) in (r, set s' t).

Declare Scope go_scope.
Delimit Scope go_scope with go.
Notation "'let*' x ':=' m 'in' k" := (bind m (fun x => k))
  (at level 10, x pattern, m at level 100, k at level 200) : go_scope.
Local Open Scope go_scope.

(** ** Machine integers and durations *)

Definition min_int : Z := - 2 ^ 63.
Definition max_int : Z := 2 ^ 63 - 1.
Definition in_int (z : Z) : bool := (min_int <=? z) && (z <=? max_int).
Definition wrap_int (z : Z) : Z := (z + 2 ^ 63) mod 2 ^ 64 - 2 ^ 63.

Module time.
Definition Nanosecond : Z := 1.
Definition Millisecond : Z := 1000000.
Definition Second : Z := 1000000000.
Definition Minute : Z := 60 * Second.
Definition Hour : Z := 60 * Minute.

(** [t.Add(d)] *)
Definition Add (t d : Z) : Z := t + d.
(** [t.After(u)], [t.Before(u)] *)
Definition After (t u : Z) : bool := u <? t.
Definition Before (t u : Z) : bool := t <? u.

(** [d.Round(m)]: nearest multiple of [m], halves away from zero. *)
Definition Round (d m : Z) : Z :=
  if m <=? 0 then d
  else
    let r := Z.rem d m in
    if d <? 0 then
      let r := - r in
      if r + r <? m then d + r
      else let d1 := d - m + r in if in_int d1 then d1 else min_int
    else
      if r + r <? m then d - r
      else let d1 := d + m - r in if in_int d1 then d1 else max_int.
End time.

(** ** unicode/utf8 *)

Module utf8.

(** The bytes of a text are read one rune at a time: [expect] continuation
    bytes are still due, the next of them between [lo] and [hi]. *)
Fixpoint valid (expect lo hi : nat) (s : string) : bool :=
  match s with
  | EmptyString => match expect with O => true | S _ => false end
  | String c r =>
      let b := Ascii.nat_of_ascii c in
      match expect with
      | O =>
          if (b <? 128)%nat then valid 0 0 0 r
          else if ((194 <=? b) && (b <=? 223))%nat then valid 1 128 191 r
          else if (b =? 224)%nat then valid 2 160 191 r
          else if ((225 <=? b) && (b <=? 236))%nat then valid 2 128 191 r
          else if (b =? 237)%nat then valid 2 128 159 r
          else if ((238 <=? b) && (b <=? 239))%nat then valid 2 128 191 r
          else if (b =? 240)%nat then valid 3 144 191 r
          else if ((241 <=? b) && (b <=? 243))%nat then valid 3 128 191 r
          else if (b =? 244)%nat then valid 3 128 143 r
          else false
      | S n => ((lo <=? b) && (b <=? hi))%nat && valid n 128 191 r
      end
  end.

(** [utf8.ValidString] *)
Definition ValidString (s : string) : bool := valid 0 0 0 s.

End utf8.

(** ** The text of an error *)

(** [fmt.Sprintf] for formats whose verbs are single letters: each verb is
    replaced by the next operand. *)
Fixpoint Sprintf (format : string) (operands : list string) : string :=
  match format with
  | String c rest =>
      if Ascii.eqb c "%" then
        match rest with
        | String verb rest' =>
            match operands with
            | o :: operands' => o +:+ Sprintf rest' operands'
            | [] => "%!" +:+ String verb "(MISSING)" +:+ Sprintf rest' []
            end
        | EmptyString => "%!(NOVERB)"
        end
      else String c (Sprintf rest operands)
  | EmptyString => EmptyString
  end.

(** The digits of [v] after the point, [prec] of them, without trailing
    zeros; the point is left out when nothing follows it. *)
Fixpoint fmtFrac (prec : nat) (v : Z) : string :=
  match prec with
  | O => ""
  | S prec' =>
      let digit := v / 10 ^ Z.of_nat prec' in
      let rest := fmtFrac prec' (v mod 10 ^ Z.of_nat prec') in
      if (digit =? 0) && String.eqb rest "" then ""
      else pretty digit +:+ rest
  end.

Definition withPoint (frac : string) : string :=
  if String.eqb frac "" then "" else "." +:+ frac.

(** [d.String()] *)
Definition Duration_String (d : Z) : string :=
  let u := Z.abs d in
  let sign := if d <? 0 then "-" else "" in
  if u =? 0 then "0s"
  else if u <? 1000 then sign +:+ pretty u +:+ "ns"
  else if u <? 1000000 then
    sign +:+ pretty (u / 1000) +:+ withPoint (fmtFrac 3 (u mod 1000)) +:+ "µs"
  else if u <? 1000000000 then
    sign +:+ pretty (u / 1000000) +:+ withPoint (fmtFrac 6 (u mod 1000000)) +:+ "ms"
  else
    let secs := u / 1000000000 in
    let s := pretty (secs mod 60) +:+ withPoint (fmtFrac 9 (u mod 1000000000)) +:+ "s" in
    let m := secs / 60 in
    if m =? 0 then sign +:+ s
    else
      let h := m / 60 in
      if h =? 0 then sign +:+ pretty (m mod 60) +:+ "m" +:+ s
      else sign +:+ pretty h +:+ "h" +:+ pretty (m mod 60) +:+ "m" +:+ s.

(** [err.Error()] *)
Fixpoint Error (e : error) : string :=
  match e with
  | redis_Nil => "redis: nil"
  | sql_ErrNoRows => "sql: no rows in result set"
  | bcrypt_ErrMismatchedHashAndPassword =>
      "crypto/bcrypt: hashedPassword is not the hash of the given password"
  | ErrConn what => what +:+ ": connection refused"
  | ErrLib what => what
  | Panic what => what
  | Errorf format args => Sprintf format (map operand args)
  end
with operand (a : arg) : string :=
  match a with
  | AStr s => s
  | AInt n => pretty n
  | ADuration d => Duration_String d
  | AErr e => Error e
  end.

(** ** Availability of a store

    A store answers the next calls as its script says ([true]: the call
    fails before reaching the store) and all later calls as [steady] says. *)

Record Net : Type := { script : list bool; steady : bool }.

Definition reachable : Net := {| script := []; steady := false |}.
Definition unreachable : Net := {| script := []; steady := true |}.

Definition next_call (n : Net) : bool * Net :=
  match script n with
  | [] => (steady n, n)
  | b :: s => (b, {| script := s; steady := steady n |})
  end.

(** ** The Redis client (github.com/redis/go-redis/v9)

    A key holds an integer-valued string and, possibly, a deadline.  A key
    whose deadline has passed does not exist.  The clock of the store is the
    clock of the program, and a deadline is an instant in nanoseconds.  What
    the client sends or receives in whole seconds (EXPIRE, TTL) is in whole
    seconds here.  The server keeps deadlines in whole milliseconds; a
    lifetime set with [Set] that is not a whole number of milliseconds is
    kept as it is, less than a millisecond off. *)

Module redis.

Record entry : Type := { val : Z; deadline : option Z }.

Record Client : Type := { entries : gmap string entry; net : Net }.

Definition live (now : Z) (e : entry) : bool :=
  match deadline e with
  | None => true
  | Some d => now <? d
  end.

Definition lookup (now : Z) (k : string) (m : gmap string entry) : option entry :=
  match m !! k with
  | Some e => if live now e then Some e else None
  | None => None
  end.

(** One round trip: the command runs on the key space unless the call
    fails on the way. *)
Definition call {A} (f : gmap string entry -> result A * gmap string entry)
  : M Client A :=
  fun c =>
    let '(fails, n) := next_call (net c) in
    if fails then (Err (ErrConn "redis"), {| entries := entries c; net := n |})
    else let '(r, m) := f (entries c) in (r, {| entries := m; net := n |}).

Definition KeepTTL : Z := -1.

(** [formatSec]: the whole seconds the client sends for a duration.  A
    positive duration under a second goes as one second. *)
Definition formatSec (dur : Z) : Z :=
  if (0 <? dur) && (dur <? time.Second) then 1 else Z.quot dur time.Second.

(** The reply to TTL for a key with [remaining] nanoseconds to live: the
    server answers in whole seconds, the remaining milliseconds rounded to
    the nearest second, and [DurationCmd] multiplies the reply by
    [time.Second]. *)
Definition seconds_left (remaining : Z) : Z :=
  (remaining / time.Millisecond + 500) / 1000 * time.Second.

(** [client.TTL(ctx, key).Result()]: -2 for a missing key, -1 for a key
    without deadline. *)
Definition TTL (now : Z) (key : string) : M Client Z :=
  call (fun m =>
    match lookup now key m with
    | None => (Ok (-2), m)
    | Some e =>
        match deadline e with
        | None => (Ok (-1), m)
        | Some d => (Ok (seconds_left (d - now)), m)
        end
    end).

(** [client.Get(ctx, key).Int()] *)
Definition Get_Int (now : Z) (key : string) : M Client Z :=
  call (fun m =>
    match lookup now key m with
    | None => (Err redis_Nil, m)
    | Some e =>
        if in_int (val e) then (Ok (val e), m)
        else (Err (ErrLib "strconv.Atoi: value out of range"), m)
    end).

(** [client.Set(ctx, key, value, expiration).Err()].  The client sends a
    positive expiration in whole seconds when it is a whole number of
    seconds and in whole milliseconds otherwise; the deadline here keeps
    the expiration as given. *)
Definition Set_ (now : Z) (key : string) (value : Z) (expiration : Z) : M Client unit :=
  call (fun m =>
    let d :=
      if 0 <? expiration then Some (now + expiration)
      else if expiration =? KeepTTL then
        match lookup now key m with Some e => deadline e | None => None end
      else None in
    (Ok tt, <[key := {| val := value; deadline := d |}]> m)).

(** [client.Del(ctx, keys...).Err()] *)
Definition Del (now : Z) (keys : list string) : M Client unit :=
  call (fun m => (Ok tt, foldr delete m keys)).

(** [client.Incr(ctx, key).Result()] *)
Definition Incr (now : Z) (key : string) : M Client Z :=
  call (fun m =>
    match lookup now key m with
    | None => (Ok 1, <[key := {| val := 1; deadline := None |}]> m)
    | Some e =>
        if in_int (val e) && (val e <? max_int) then
          (Ok (val e + 1), <[key := {| val := val e + 1; deadline := deadline e |}]> m)
        else (Err (ErrLib "ERR value is not an integer or out of range"), m)
    end).

(** [client.Expire(ctx, key, expiration).Err()]: the expiration goes to
    the server in whole seconds; a number of seconds that is not positive
    deletes the key. *)
Definition Expire (now : Z) (key : string) (expiration : Z) : M Client bool :=
  call (fun m =>
    match lookup now key m with
    | None => (Ok false, m)
    | Some e =>
        let seconds := formatSec expiration in
        if 0 <? seconds then
          (Ok true,
           <[key := {| val := val e; deadline := Some (now + seconds * time.Second) |}]> m)
        else (Ok true, delete key m)
    end).

(** [client.Exists(ctx, key).Result()] *)
Definition Exists (now : Z) (key : string) : M Client Z :=
  call (fun m =>
    match lookup now key m with
    | None => (Ok 0, m)
    | Some _ => (Ok 1, m)
    end).

End redis.

(** ** String-valued keys

    The keys of the OAuth state manager hold a URL, not a counter.  Their
    key space is kept apart from the integer-valued one: the prefixes of the
    keys are disjoint. *)

Module redis_text.

Record entry : Type := { val : string; deadline : option Z }.

Record Client : Type := { entries : gmap string entry; net : Net }.

Definition live (now : Z) (e : entry) : bool :=
  match deadline e with
  | None => true
  | Some d => now <? d
  end.

Definition lookup (now : Z) (k : string) (m : gmap string entry) : option entry :=
  match m !! k with
  | Some e => if live now e then Some e else None
  | None => None
  end.

Definition call {A} (f : gmap string entry -> result A * gmap string entry)
  : M Client A :=
  fun c =>
    let '(fails, n) := next_call (net c) in
    if fails then (Err (ErrConn "redis"), {| entries := entries c; net := n |})
    else let '(r, m) := f (entries c) in (r, {| entries := m; net := n |}).

(** [client.Set(ctx, key, value, expiration).Err()] *)
Definition Set_ (now : Z) (key : string) (value : string) (expiration : Z) : M Client unit :=
  call (fun m =>
    let d :=
      if 0 <? expiration then Some (now + expiration)
      else if expiration =? redis.KeepTTL then
        match lookup now key m with Some e => deadline e | None => None end
      else None in
    (Ok tt, <[key := {| val := value; deadline := d |}]> m)).

(** [client.Get(ctx, key).Result()] *)
Definition Get (now : Z) (key : string) : M Client string :=
  call (fun m =>
    match lookup now key m with
    | None => (Err redis_Nil, m)
    | Some e => (Ok (val e), m)
    end).

(** [client.Del(ctx, keys...).Err()] *)
Definition Del (now : Z) (keys : list string) : M Client unit :=
  call (fun m => (Ok tt, foldr delete m keys)).

End redis_text.

(** ** package ratelimit *)

Module ratelimit.

Record Limiter : Type := {
  window : Z;           (* time window for counting attempts *)
  maxAttempts : Z;      (* maximum attempts allowed in window *)
  lockoutDuration : Z   (* how long to block after exceeding limit *)
}.

Definition NewLimiter (window maxAttempts lockoutDuration : Z) : Limiter :=
  {| window := window; maxAttempts := maxAttempts;
     lockoutDuration := lockoutDuration |}.

Definition LoginAttemptKey (email ipAddress : string) : string :=
  "ratelimit:login:" +:+ ipAddress +:+ ":" +:+ email.

Definition LoginLockoutKey (email ipAddress : string) : string :=
  "ratelimit:lockout:" +:+ ipAddress +:+ ":" +:+ email.

(** [err != nil && err != redis.Nil] returns; [redis.Nil] leaves the zero
    value in the variable. *)
Definition unless_Nil (format : string) (m : M redis.Client Z) : M redis.Client Z :=
  let* r := attempt m in
  match r with
  | Ok v => ret v
  | Err redis_Nil => ret 0
  | Err e => fail (Errorf format [AErr e])
  end.

(** Returns: allowed, remaining attempts, lockout remaining. *)
Definition CheckLoginAttempt (l : Limiter) (now : Z) (email ipAddress : string)
  : M redis.Client (bool * Z * Z) :=
  let lockoutKey := LoginLockoutKey email ipAddress in
  let* ttl := unless_Nil "failed to check lockout status: %w" (redis.TTL now lockoutKey) in
  if 0 <? ttl then
    ret (false, 0, ttl)
  else
    let attemptKey := LoginAttemptKey email ipAddress in
    let* count := unless_Nil "failed to get attempt count: %w" (redis.Get_Int now attemptKey) in
    let remaining := wrap_int (maxAttempts l - count) in
    if remaining <=? 0 then
      let* _ := wrap (fun e => Errorf "failed to set lockout: %w" [AErr e])
             (redis.Set_ now lockoutKey 1 (lockoutDuration l)) in
      let* _ := attempt (redis.Del now [attemptKey]) in
      ret (false, 0, lockoutDuration l)
    else
      ret (true, remaining, 0).

Definition RecordFailedAttempt (l : Limiter) (now : Z) (email ipAddress : string)
  : M redis.Client unit :=
  let attemptKey := LoginAttemptKey email ipAddress in
  let* count := wrap (fun e => Errorf "failed to increment attempt counter: %w" [AErr e])
             (redis.Incr now attemptKey) in
  if count =? 1 then
    let* _ := wrap (fun e => Errorf "failed to set expiry: %w" [AErr e])
           (redis.Expire now attemptKey (window l)) in
    ret tt
  else ret tt.

Definition RecordSuccessfulAttempt (l : Limiter) (now : Z) (email ipAddress : string)
  : M redis.Client unit :=
  let attemptKey := LoginAttemptKey email ipAddress in
  wrap (fun e => Errorf "failed to clear attempt counter: %w" [AErr e])
    (redis.Del now [attemptKey]).

Definition ClearLockout (l : Limiter) (now : Z) (email ipAddress : string)
  : M redis.Client unit :=
  let lockoutKey := LoginLockoutKey email ipAddress in
  let attemptKey := LoginAttemptKey email ipAddress in
  wrap (fun e => Errorf "failed to clear lockout: %w" [AErr e])
    (redis.Del now [lockoutKey; attemptKey]).

Definition GetAttemptCount (l : Limiter) (now : Z) (email ipAddress : string)
  : M redis.Client Z :=
  let attemptKey := LoginAttemptKey email ipAddress in
  let* r := attempt (redis.Get_Int now attemptKey) in
  match r with
  | Err redis_Nil => ret 0
  | Err e => fail (Errorf "failed to get attempt count: %w" [AErr e])
  | Ok count => ret count
  end.

End ratelimit.

(** ** Claims and the segments of a token *)

Module jwt_types.

(** The decoded first segment of a compact token. *)
Record Header : Type := { alg : option string; typ : string }.

(** [jwt.RegisteredClaims].  A [*jwt.NumericDate] is a whole number of
    seconds since the epoch, or nil. *)
Record RegisteredClaims : Type := {
  Issuer : string;
  Subject : string;
  Audience : list string;
  ExpiresAt : option Z;
  NotBefore : option Z;
  IssuedAt : option Z;
  ID : string
}.

(** [token.Claims] of claims.go. *)
Record Claims : Type := {
  UserID : Z;
  BoddleUID : string;
  Email : string;
  Name : string;
  MetaType : string;
  MetaID : Z;
  Registered : RegisteredClaims
}.

(** The decoded second segment: the JSON object of one of the two claim
    types the gateway marshals. *)
Inductive Payload : Type :=
  | OfClaims (c : Claims)
  | OfRegisteredClaims (rc : RegisteredClaims).

End jwt_types.
Export jwt_types.

(** ** Library primitives

    The keyed hash of [crypto/hmac] and the password comparison of
    [golang.org/x/crypto/bcrypt] are parameters of the development. *)

Class Primitives : Type := {
  (** [hmac.New(hash, key)] over the signing string (the first two segments) *)
  hmac : string -> string -> Header * Payload -> string;
  (** [bcrypt.CompareHashAndPassword(hash, password)]; [None] is nil *)
  CompareHashAndPassword : string -> string -> option error
}.

(** ** github.com/golang-jwt/jwt/v5 *)

Module jwt.

(** A token string, by what its three segments decode to; for a text that
    does not decode, what the parser reports about it. *)
Inductive TokenString : Type :=
  | Malformed (detail : string)
  | Compact (header : Header) (payload : Payload) (signature : string).

(** [newError(detail, ErrTokenMalformed)] *)
Definition ErrTokenMalformed (detail : string) : error :=
  Errorf "token is malformed: %s" [AStr detail].

Inductive SigningMethod : Type :=
  | SigningMethodHMAC (name hash : string)
  | SigningMethodRSA (name : string)
  | SigningMethodRSAPSS (name : string)
  | SigningMethodECDSA (name : string)
  | SigningMethodEd25519
  | signingMethodNone.

Definition SigningMethodHS256 : SigningMethod := SigningMethodHMAC "HS256" "SHA256".
Definition SigningMethodHS384 : SigningMethod := SigningMethodHMAC "HS384" "SHA384".
Definition SigningMethodHS512 : SigningMethod := SigningMethodHMAC "HS512" "SHA512".

Definition Alg (m : SigningMethod) : string :=
  match m with
  | SigningMethodHMAC name _ => name
  | SigningMethodRSA name => name
  | SigningMethodRSAPSS name => name
  | SigningMethodECDSA name => name
  | SigningMethodEd25519 => "EdDSA"
  | signingMethodNone => "none"
  end.

(** The methods the library registers. *)
Definition signingMethods : list SigningMethod :=
  [ SigningMethodHS256; SigningMethodHS384; SigningMethodHS512;
    SigningMethodRSA "RS256"; SigningMethodRSA "RS384"; SigningMethodRSA "RS512";
    SigningMethodRSAPSS "PS256"; SigningMethodRSAPSS "PS384"; SigningMethodRSAPSS "PS512";
    SigningMethodECDSA "ES256"; SigningMethodECDSA "ES384"; SigningMethodECDSA "ES512";
    SigningMethodEd25519; signingMethodNone ].

Definition GetSigningMethod (alg : string) : option SigningMethod :=
  find (fun m => String.eqb (Alg m) alg) signingMethods.

Definition TimePrecision : Z := time.Second.

(** [jwt.NewNumericDate(t)]: [t] truncated to [TimePrecision]. *)
Definition NewNumericDate (t : Z) : option Z := Some (t / TimePrecision).

(** The [.Time] of a numeric date. *)
Definition Time (d : Z) : Z := d * TimePrecision.

(** [jwt.NewWithClaims(method, claims)] followed by [SignedString(key)],
    for a [[]byte] key. *)
Definition SignedString `{Primitives} (method : SigningMethod) (p : Payload)
    (key : string) : result TokenString :=
  let h := {| alg := Some (Alg method); typ := "JWT" |} in
  match method with
  | SigningMethodHMAC _ hash => Ok (Compact h p (hmac hash key (h, p)))
  | signingMethodNone => Err (ErrLib "'none' signature type is not allowed")
  | _ => Err (ErrLib "key is of invalid type")
  end.

(** [method.Verify(signingString, signature, key)] for a [[]byte] key. *)
Definition Verify `{Primitives} (method : SigningMethod) (h : Header) (p : Payload)
    (signature key : string) : result unit :=
  match method with
  | SigningMethodHMAC _ hash =>
      if String.eqb signature (hmac hash key (h, p)) then Ok tt
      else Err (ErrLib "signature is invalid")
  | signingMethodNone => Err (ErrLib "'none' signature type is not allowed")
  | _ => Err (ErrLib "key is of invalid type")
  end.

(** The default validator: expiry and not-before, without leeway.  The
    errors of the checks that fail are joined. *)
Definition Validate (now : Z) (rc : RegisteredClaims) : result unit :=
  let expired :=
    match ExpiresAt rc with
    | None => false
    | Some exp => negb (time.Before now (Time exp))
    end in
  let early :=
    match NotBefore rc with
    | None => false
    | Some nbf => time.Before now (Time nbf)
    end in
  if expired then
    if early then Err (ErrLib "token is expired, token is not valid yet")
    else Err (ErrLib "token is expired")
  else if early then Err (ErrLib "token is not valid yet")
  else Ok tt.

(** [json.Unmarshal] of the payload into a [*token.Claims].  A payload is
    the value that was marshalled: this is exact for strings that are valid
    UTF-8 ([encoding/json] writes U+FFFD for any other byte, which is not
    modelled). *)
Definition toClaims (p : Payload) : Claims :=
  match p with
  | OfClaims c => c
  | OfRegisteredClaims rc =>
      {| UserID := 0; BoddleUID := ""; Email := ""; Name := ""; MetaType := "";
         MetaID := 0; Registered := rc |}
  end.

(** [json.Unmarshal] of the payload into a [*jwt.RegisteredClaims]. *)
Definition toRegisteredClaims (p : Payload) : RegisteredClaims :=
  match p with
  | OfClaims c => Registered c
  | OfRegisteredClaims rc => rc
  end.

(** [jwt.ParseWithClaims(tokenString, claims, keyFunc)].  The key function
    sees the method named by the header; [registered] gives the registered
    claims of the decoded claims value. *)
Definition ParseWithClaims `{Primitives} {C : Type} (now : Z) (tokenString : TokenString)
    (decode : Payload -> C) (registered : C -> RegisteredClaims)
    (keyFunc : SigningMethod -> Header -> result string) : result C :=
  match tokenString with
  | Malformed detail => Err (ErrTokenMalformed detail)
  | Compact h p signature =>
      match alg h with
      | None => Err (ErrLib "token is unverifiable: signing method (alg) is unspecified")
      | Some a =>
          match GetSigningMethod a with
          | None => Err (ErrLib "token is unverifiable: signing method (alg) is unavailable")
          | Some method =>
              match keyFunc method h with
              | Err e => Err (Errorf "token is unverifiable: error while executing keyfunc: %w" [AErr e])
              | Ok key =>
                  match Verify method h p signature key with
                  | Err e => Err (Errorf "token signature is invalid: %w" [AErr e])
                  | Ok _ =>
                      let claims := decode p in
                      match Validate now (registered claims) with
                      | Err e => Err (Errorf "token has invalid claims: %w" [AErr e])
                      | Ok _ => Ok claims
                      end
                  end
              end
          end
      end
  end.

(** [jwt.NewParser().ParseUnverified(tokenString, claims)]: the segments
    are decoded and the method is looked up; nothing is verified. *)
Definition ParseUnverified {C : Type} (tokenString : TokenString)
    (decode : Payload -> C) : result C :=
  match tokenString with
  | Malformed detail => Err (ErrTokenMalformed detail)
  | Compact h p _ =>
      match alg h with
      | None => Err (ErrLib "token is unverifiable: signing method (alg) is unspecified")
      | Some a =>
          match GetSigningMethod a with
          | None => Err (ErrLib "token is unverifiable: signing method (alg) is unavailable")
          | Some _ => Ok (decode p)
          end
      end
  end.

End jwt.

(** ** package token *)

Module token.

Record Service : Type := {
  secretKey : string;
  refreshSecretKey : string;
  accessTokenTTL : Z;
  refreshTokenTTL : Z
}.

Definition NewService (secretKey refreshSecretKey : string) (accessTTL refreshTTL : Z)
  : Service :=
  {| secretKey := secretKey; refreshSecretKey := refreshSecretKey;
     accessTokenTTL := accessTTL; refreshTokenTTL := refreshTTL |}.

Definition TokenTypeBearer : string := "Bearer".

Record TokenPair : Type := {
  AccessToken : jwt.TokenString;
  RefreshToken : jwt.TokenString;
  ExpiresAt_ : Z;
  TokenType : string
}.

(** [fmt.Sprintf("%d", n)] *)
Definition Sprintf_d (n : Z) : string := pretty n.

(** The claims of the access token [Generate] builds; [jti] is the value
    of [uuid.New().String()]. *)
Definition accessClaims (s : Service) (now : Z) (jti : string)
    (userID : Z) (boddleUID email name metaType : string) (metaID : Z) : Claims :=
  let accessExpiry := time.Add now (accessTokenTTL s) in
  {| UserID := userID; BoddleUID := boddleUID; Email := email; Name := name;
     MetaType := metaType; MetaID := metaID;
     Registered :=
       {| ExpiresAt := jwt.NewNumericDate accessExpiry;
          IssuedAt := jwt.NewNumericDate now;
          NotBefore := jwt.NewNumericDate now;
          Issuer := "boddle-auth-gateway";
          Subject := Sprintf_d userID;
          Audience := [];
          ID := jti |} |}.

Definition refreshClaims (s : Service) (now : Z) (jti : string) (userID : Z)
  : RegisteredClaims :=
  let refreshExpiry := time.Add now (refreshTokenTTL s) in
  {| ExpiresAt := jwt.NewNumericDate refreshExpiry;
     IssuedAt := jwt.NewNumericDate now;
     NotBefore := jwt.NewNumericDate now;
     Issuer := "boddle-auth-gateway";
     Subject := Sprintf_d userID;
     Audience := [];
     ID := jti |}.

(** [Generate]: [now] is the value of [time.Now()], [jtis] the values of
    the two [uuid.New().String()] calls. *)
Definition Generate `{Primitives} (s : Service) (now : Z) (jtis : string * string)
    (userID : Z) (boddleUID email name metaType : string) (metaID : Z)
  : result TokenPair :=
  let accessExpiry := time.Add now (accessTokenTTL s) in
  let claims := accessClaims s now (fst jtis) userID boddleUID email name metaType metaID in
  match jwt.SignedString jwt.SigningMethodHS256 (OfClaims claims) (secretKey s) with
  | Err e => Err (Errorf "failed to sign access token: %w" [AErr e])
  | Ok accessTokenString =>
      let rclaims := refreshClaims s now (snd jtis) userID in
      match jwt.SignedString jwt.SigningMethodHS256 (OfRegisteredClaims rclaims)
              (refreshSecretKey s) with
      | Err e => Err (Errorf "failed to sign refresh token: %w" [AErr e])
      | Ok refreshTokenString =>
          Ok {| AccessToken := accessTokenString;
                RefreshToken := refreshTokenString;
                ExpiresAt_ := accessExpiry;
                TokenType := TokenTypeBearer |}
      end
  end.

(** The key function of [Validate]: the type assertion of [token.Method]
    to the HMAC method type. *)
Definition keyFunc (key : string) (method : jwt.SigningMethod) (h : Header)
  : result string :=
  match method with
  | jwt.SigningMethodHMAC _ _ => Ok key
  | _ => Err (Errorf "unexpected signing method: %v"
                [AStr (default "" (alg h))])
  end.

Definition Validate `{Primitives} (s : Service) (now : Z) (tokenString : jwt.TokenString)
  : result Claims :=
  match jwt.ParseWithClaims now tokenString jwt.toClaims Registered
          (keyFunc (secretKey s)) with
  | Err e => Err (Errorf "failed to parse token: %w" [AErr e])
  | Ok claims => Ok claims
  end.

Definition ValidateRefreshToken `{Primitives} (s : Service) (now : Z)
    (tokenString : jwt.TokenString) : result RegisteredClaims :=
  match jwt.ParseWithClaims now tokenString jwt.toRegisteredClaims (fun rc => rc)
          (keyFunc (refreshSecretKey s)) with
  | Err e => Err (Errorf "failed to parse refresh token: %w" [AErr e])
  | Ok claims => Ok claims
  end.

Definition ExtractTokenID (s : Service) (tokenString : jwt.TokenString) : result string :=
  match jwt.ParseUnverified tokenString jwt.toClaims with
  | Err e => Err (Errorf "failed to parse token: %w" [AErr e])
  | Ok claims => Ok (ID (Registered claims))
  end.

(** *** blacklist.go *)

Definition blacklistKey (tokenID : string) : string := "blacklist:jti:" +:+ tokenID.

(** [Add]: [expiry] is a time, [time.Until(expiry)] the remaining lifetime. *)
Definition Add (now : Z) (tokenID : string) (expiry : Z) : M redis.Client unit :=
  let key := blacklistKey tokenID in
  let ttl := expiry - now in
  if ttl <=? 0 then ret tt
  else wrap (fun e => Errorf "failed to blacklist token: %w" [AErr e])
         (redis.Set_ now key 1 ttl).

Definition IsBlacklisted (now : Z) (tokenID : string) : M redis.Client bool :=
  let key := blacklistKey tokenID in
  let* exists_ := wrap (fun e => Errorf "failed to check blacklist: %w" [AErr e])
                   (redis.Exists now key) in
  ret (0 <? exists_).

Definition Remove (now : Z) (tokenID : string) : M redis.Client unit :=
  let key := blacklistKey tokenID in
  wrap (fun e => Errorf "failed to remove from blacklist: %w" [AErr e])
    (redis.Del now [key]).

End token.

(** ** package user

    The directory is the tables the repository queries, each a list of rows
    in storage order.  A nullable column is an [option]. *)

Module user.

Record User : Type := {
  User_ID : Z;
  User_Email : string;
  User_PasswordDigest : string;
  User_BoddleUID : option string;
  User_MetaType : string;
  User_MetaID : Z;
  User_LastLoggedOn : option Z;
  User_CreatedAt : Z;
  User_UpdatedAt : Z
}.

Record Teacher : Type := {
  Teacher_ID : Z;
  Teacher_UserID : Z;
  Teacher_FirstName : string;
  Teacher_LastName : string;
  Teacher_GoogleUID : option string;
  Teacher_CleverUID : option string;
  Teacher_Verified : bool;
  Teacher_CreatedAt : Z;
  Teacher_UpdatedAt : Z
}.

Record Student : Type := {
  Student_ID : Z;
  Student_UserID : Z;
  Student_Username : string;
  Student_FirstName : string;
  Student_LastName : string;
  Student_GoogleUID : option string;
  Student_CleverUID : option string;
  Student_ICloudUID : option string;
  Student_CreatedAt : Z;
  Student_UpdatedAt : Z
}.

Record Parent : Type := {
  Parent_ID : Z;
  Parent_UserID : Z;
  Parent_FirstName : string;
  Parent_LastName : string;
  Parent_ICloudUID : option string;
  Parent_CreatedAt : Z;
  Parent_UpdatedAt : Z
}.

Record LoginAttempt : Type := {
  LoginAttempt_Email : string;
  LoginAttempt_IPAddress : string;
  LoginAttempt_Success : bool;
  LoginAttempt_AttemptedAt : Z
}.

Record LoginToken : Type := {
  LoginToken_ID : Z;
  LoginToken_UserID : Z;
  LoginToken_Secret : string;
  LoginToken_Permanent : bool;
  LoginToken_CreatedAt : Z
}.

(** The dynamic value of [UserWithMeta.Meta]: no value, or a pointer of one
    of three types, which may be nil. *)
Inductive Meta : Type :=
  | NoMeta
  | IsTeacher (t : option Teacher)
  | IsStudent (s : option Student)
  | IsParent (p : option Parent).

Record UserWithMeta : Type := { User_ : User; Meta_ : Meta }.

Definition GetFullName (u : UserWithMeta) : result string :=
  match Meta_ u with
  | IsTeacher (Some meta) => Ok (Teacher_FirstName meta +:+ " " +:+ Teacher_LastName meta)
  | IsStudent (Some meta) => Ok (Student_FirstName meta +:+ " " +:+ Student_LastName meta)
  | IsParent (Some meta) => Ok (Parent_FirstName meta +:+ " " +:+ Parent_LastName meta)
  | NoMeta => Ok ""
  | _ => Err (Panic "nil pointer dereference")
  end.

Record DB : Type := {
  users : list User;
  teachers : list Teacher;
  students : list Student;
  parents : list Parent;
  login_tokens : list LoginToken;
  login_attempts : list LoginAttempt;
  net : Net
}.

Definition with_net (n : Net) (d : DB) : DB :=
  {| users := users d; teachers := teachers d; students := students d;
     parents := parents d; login_tokens := login_tokens d;
     login_attempts := login_attempts d; net := n |}.

(** [db.GetContext]: the first row of the result, or [sql.ErrNoRows]. *)
Definition GetContext {A} (q : DB -> option A) : M DB A :=
  fun d =>
    let '(fails, n) := next_call (net d) in
    if fails then (Err (ErrConn "postgres"), with_net n d)
    else match q d with
         | Some row => (Ok row, with_net n d)
         | None => (Err sql_ErrNoRows, with_net n d)
         end.

(** [db.ExecContext] *)
Definition ExecContext (f : DB -> DB) : M DB unit :=
  fun d =>
    let '(fails, n) := next_call (net d) in
    if fails then (Err (ErrConn "postgres"), with_net n d)
    else (Ok tt, with_net n (f d)).

(** The shape shared by the finders: no row is [nil, nil]. *)
Definition finder {A} (format : string) (q : DB -> option A) : M DB (option A) :=
  let* r := attempt (GetContext q) in
  match r with
  | Ok row => ret (Some row)
  | Err sql_ErrNoRows => ret None
  | Err e => fail (Errorf format [AErr e])
  end.

Definition column_is (v : string) (column : option string) : bool :=
  match column with
  | Some s => String.eqb s v
  | None => false
  end.

Definition FindByEmail (email : string) : M DB (option User) :=
  finder "failed to find user by email: %w"
    (fun d => find (fun u => String.eqb (User_Email u) email) (users d)).

Definition FindByID (id : Z) : M DB (option User) :=
  finder "failed to find user by ID: %w"
    (fun d => find (fun u => User_ID u =? id) (users d)).

Definition FindTeacher (id : Z) : M DB (option Teacher) :=
  finder "failed to find teacher: %w"
    (fun d => find (fun t => Teacher_ID t =? id) (teachers d)).

Definition FindTeacherByGoogleUID (googleUID : string) : M DB (option Teacher) :=
  finder "failed to find teacher by Google UID: %w"
    (fun d => find (fun t => column_is googleUID (Teacher_GoogleUID t)) (teachers d)).

Definition FindStudent (id : Z) : M DB (option Student) :=
  finder "failed to find student: %w"
    (fun d => find (fun t => Student_ID t =? id) (students d)).

Definition FindStudentByGoogleUID (googleUID : string) : M DB (option Student) :=
  finder "failed to find student by Google UID: %w"
    (fun d => find (fun t => column_is googleUID (Student_GoogleUID t)) (students d)).

Definition FindParent (id : Z) : M DB (option Parent) :=
  finder "failed to find parent: %w"
    (fun d => find (fun t => Parent_ID t =? id) (parents d)).

Definition FindWithMeta (userID : Z) : M DB (option UserWithMeta) :=
  let* user := FindByID userID in
  match user with
  | None => ret None
  | Some user =>
      if String.eqb (User_MetaType user) "Teacher" then
        let* meta := FindTeacher (User_MetaID user) in
        ret (Some {| User_ := user; Meta_ := IsTeacher meta |})
      else if String.eqb (User_MetaType user) "Student" then
        let* meta := FindStudent (User_MetaID user) in
        ret (Some {| User_ := user; Meta_ := IsStudent meta |})
      else if String.eqb (User_MetaType user) "Parent" then
        let* meta := FindParent (User_MetaID user) in
        ret (Some {| User_ := user; Meta_ := IsParent meta |})
      else ret (Some {| User_ := user; Meta_ := NoMeta |})
  end.

Definition set_users (f : list User -> list User) (d : DB) : DB :=
  {| users := f (users d); teachers := teachers d; students := students d;
     parents := parents d; login_tokens := login_tokens d;
     login_attempts := login_attempts d; net := net d |}.

Definition set_teachers (f : list Teacher -> list Teacher) (d : DB) : DB :=
  {| users := users d; teachers := f (teachers d); students := students d;
     parents := parents d; login_tokens := login_tokens d;
     login_attempts := login_attempts d; net := net d |}.

Definition set_students (f : list Student -> list Student) (d : DB) : DB :=
  {| users := users d; teachers := teachers d; students := f (students d);
     parents := parents d; login_tokens := login_tokens d;
     login_attempts := login_attempts d; net := net d |}.

Definition set_login_tokens (f : list LoginToken -> list LoginToken) (d : DB) : DB :=
  {| users := users d; teachers := teachers d; students := students d;
     parents := parents d; login_tokens := f (login_tokens d);
     login_attempts := login_attempts d; net := net d |}.

Definition set_login_attempts (f : list LoginAttempt -> list LoginAttempt) (d : DB) : DB :=
  {| users := users d; teachers := teachers d; students := students d;
     parents := parents d; login_tokens := login_tokens d;
     login_attempts := f (login_attempts d); net := net d |}.

Definition set_last_logged_on (now : Z) (u : User) : User :=
  {| User_ID := User_ID u; User_Email := User_Email u;
     User_PasswordDigest := User_PasswordDigest u;
     User_BoddleUID := User_BoddleUID u; User_MetaType := User_MetaType u;
     User_MetaID := User_MetaID u; User_LastLoggedOn := Some now;
     User_CreatedAt := User_CreatedAt u; User_UpdatedAt := User_UpdatedAt u |}.

(** [UPDATE users SET last_logged_on = $1 WHERE id = $2] *)
Definition UpdateLastLoggedOn (now : Z) (userID : Z) : M DB unit :=
  wrap (fun e => Errorf "failed to update last logged on: %w" [AErr e])
    (ExecContext (set_users (map (fun u =>
       if User_ID u =? userID then set_last_logged_on now u else u)))).

(** [INSERT INTO login_attempts ...] *)
Definition RecordLoginAttempt (now : Z) (email ipAddress : string) (success : bool)
  : M DB unit :=
  wrap (fun e => Errorf "failed to record login attempt: %w" [AErr e])
    (ExecContext (set_login_attempts (fun l =>
       app l [ {| LoginAttempt_Email := email; LoginAttempt_IPAddress := ipAddress;
                  LoginAttempt_Success := success; LoginAttempt_AttemptedAt := now |} ]))).

Definition FindLoginToken (secret : string) : M DB (option LoginToken) :=
  finder "failed to find login token: %w"
    (fun d => find (fun t => String.eqb (LoginToken_Secret t) secret) (login_tokens d)).

(** [DELETE FROM login_tokens WHERE id = $1] *)
Definition DeleteLoginToken (id : Z) : M DB unit :=
  wrap (fun e => Errorf "failed to delete login token: %w" [AErr e])
    (ExecContext (set_login_tokens (List.filter (fun t => negb (LoginToken_ID t =? id))))).

Definition link_teacher_google (now : Z) (googleUID : string) (t : Teacher) : Teacher :=
  {| Teacher_ID := Teacher_ID t; Teacher_UserID := Teacher_UserID t;
     Teacher_FirstName := Teacher_FirstName t; Teacher_LastName := Teacher_LastName t;
     Teacher_GoogleUID := Some googleUID; Teacher_CleverUID := Teacher_CleverUID t;
     Teacher_Verified := Teacher_Verified t; Teacher_CreatedAt := Teacher_CreatedAt t;
     Teacher_UpdatedAt := now |}.

Definition link_student_google (now : Z) (googleUID : string) (t : Student) : Student :=
  {| Student_ID := Student_ID t; Student_UserID := Student_UserID t;
     Student_Username := Student_Username t;
     Student_FirstName := Student_FirstName t; Student_LastName := Student_LastName t;
     Student_GoogleUID := Some googleUID; Student_CleverUID := Student_CleverUID t;
     Student_ICloudUID := Student_ICloudUID t; Student_CreatedAt := Student_CreatedAt t;
     Student_UpdatedAt := now |}.

(** [UPDATE teachers SET google_uid = $1, updated_at = $2 WHERE id = $3] *)
Definition UpdateTeacherGoogleUID (now : Z) (teacherID : Z) (googleUID : string)
  : M DB unit :=
  wrap (fun e => Errorf "failed to update teacher Google UID: %w" [AErr e])
    (ExecContext (set_teachers (map (fun t =>
       if Teacher_ID t =? teacherID then link_teacher_google now googleUID t else t)))).

(** [UPDATE students SET google_uid = $1, updated_at = $2 WHERE id = $3] *)
Definition UpdateStudentGoogleUID (now : Z) (studentID : Z) (googleUID : string)
  : M DB unit :=
  wrap (fun e => Errorf "failed to update student Google UID: %w" [AErr e])
    (ExecContext (set_students (map (fun t =>
       if Student_ID t =? studentID then link_student_google now googleUID t else t)))).

Definition FindTeacherByCleverUID (cleverUID : string) : M DB (option Teacher) :=
  finder "failed to find teacher by Clever UID: %w"
    (fun d => find (fun t => column_is cleverUID (Teacher_CleverUID t)) (teachers d)).

Definition FindStudentByCleverUID (cleverUID : string) : M DB (option Student) :=
  finder "failed to find student by Clever UID: %w"
    (fun d => find (fun t => column_is cleverUID (Student_CleverUID t)) (students d)).

Definition FindStudentByiCloudUID (icloudUID : string) : M DB (option Student) :=
  finder "failed to find student by iCloud UID: %w"
    (fun d => find (fun t => column_is icloudUID (Student_ICloudUID t)) (students d)).

Definition FindParentByiCloudUID (icloudUID : string) : M DB (option Parent) :=
  finder "failed to find parent by iCloud UID: %w"
    (fun d => find (fun t => column_is icloudUID (Parent_ICloudUID t)) (parents d)).

Definition set_parents (f : list Parent -> list Parent) (d : DB) : DB :=
  {| users := users d; teachers := teachers d; students := students d;
     parents := f (parents d); login_tokens := login_tokens d;
     login_attempts := login_attempts d; net := net d |}.

Definition link_teacher_clever (now : Z) (cleverUID : string) (t : Teacher) : Teacher :=
  {| Teacher_ID := Teacher_ID t; Teacher_UserID := Teacher_UserID t;
     Teacher_FirstName := Teacher_FirstName t; Teacher_LastName := Teacher_LastName t;
     Teacher_GoogleUID := Teacher_GoogleUID t; Teacher_CleverUID := Some cleverUID;
     Teacher_Verified := Teacher_Verified t; Teacher_CreatedAt := Teacher_CreatedAt t;
     Teacher_UpdatedAt := now |}.

Definition link_student_clever (now : Z) (cleverUID : string) (t : Student) : Student :=
  {| Student_ID := Student_ID t; Student_UserID := Student_UserID t;
     Student_Username := Student_Username t;
     Student_FirstName := Student_FirstName t; Student_LastName := Student_LastName t;
     Student_GoogleUID := Student_GoogleUID t; Student_CleverUID := Some cleverUID;
     Student_ICloudUID := Student_ICloudUID t; Student_CreatedAt := Student_CreatedAt t;
     Student_UpdatedAt := now |}.

Definition link_student_icloud (now : Z) (icloudUID : string) (t : Student) : Student :=
  {| Student_ID := Student_ID t; Student_UserID := Student_UserID t;
     Student_Username := Student_Username t;
     Student_FirstName := Student_FirstName t; Student_LastName := Student_LastName t;
     Student_GoogleUID := Student_GoogleUID t; Student_CleverUID := Student_CleverUID t;
     Student_ICloudUID := Some icloudUID; Student_CreatedAt := Student_CreatedAt t;
     Student_UpdatedAt := now |}.

Definition link_parent_icloud (now : Z) (icloudUID : string) (t : Parent) : Parent :=
  {| Parent_ID := Parent_ID t; Parent_UserID := Parent_UserID t;
     Parent_FirstName := Parent_FirstName t; Parent_LastName := Parent_LastName t;
     Parent_ICloudUID := Some icloudUID; Parent_CreatedAt := Parent_CreatedAt t;
     Parent_UpdatedAt := now |}.

(** [UPDATE teachers SET clever_uid = $1, updated_at = $2 WHERE id = $3] *)
Definition UpdateTeacherCleverUID (now : Z) (teacherID : Z) (cleverUID : string)
  : M DB unit :=
  wrap (fun e => Errorf "failed to update teacher Clever UID: %w" [AErr e])
    (ExecContext (set_teachers (map (fun t =>
       if Teacher_ID t =? teacherID then link_teacher_clever now cleverUID t else t)))).

(** [UPDATE students SET clever_uid = $1, updated_at = $2 WHERE id = $3] *)
Definition UpdateStudentCleverUID (now : Z) (studentID : Z) (cleverUID : string)
  : M DB unit :=
  wrap (fun e => Errorf "failed to update student Clever UID: %w" [AErr e])
    (ExecContext (set_students (map (fun t =>
       if Student_ID t =? studentID then link_student_clever now cleverUID t else t)))).

(** [UPDATE students SET icloud_uid = $1, updated_at = $2 WHERE id = $3] *)
Definition UpdateStudentiCloudUID (now : Z) (studentID : Z) (icloudUID : string)
  : M DB unit :=
  wrap (fun e => Errorf "failed to update student iCloud UID: %w" [AErr e])
    (ExecContext (set_students (map (fun t =>
       if Student_ID t =? studentID then link_student_icloud now icloudUID t else t)))).

(** [UPDATE parents SET icloud_uid = $1, updated_at = $2 WHERE id = $3] *)
Definition UpdateParentiCloudUID (now : Z) (parentID : Z) (icloudUID : string)
  : M DB unit :=
  wrap (fun e => Errorf "failed to update parent iCloud UID: %w" [AErr e])
    (ExecContext (set_parents (map (fun t =>
       if Parent_ID t =? parentID then link_parent_icloud now icloudUID t else t)))).

End user.

(** ** package regexp

    Expressions, and the match of a whole text, which is what a pattern
    between [^] and [$] asks for.  A text is matched by derivatives: the
    expression left after a byte is read. *)

Module regexp.

Inductive Regexp : Type :=
  | NoMatch                              (* matches no text *)
  | EmptyMatch                           (* matches the empty text *)
  | CharClass (p : ascii -> bool)        (* one byte of a class *)
  | Concat (r s : Regexp)
  | Alternate (r s : Regexp)
  | Star (r : Regexp).

(** One given byte; [r+]; [r{min,}]. *)
Definition Literal (c : ascii) : Regexp := CharClass (Ascii.eqb c).
Definition Plus (r : Regexp) : Regexp := Concat r (Star r).
Fixpoint Repeat (min : nat) (r : Regexp) : Regexp :=
  match min with
  | O => Star r
  | S n => Concat r (Repeat n r)
  end.

Fixpoint nullable (r : Regexp) : bool :=
  match r with
  | NoMatch => false
  | EmptyMatch => true
  | CharClass _ => false
  | Concat r s => nullable r && nullable s
  | Alternate r s => nullable r || nullable s
  | Star _ => true
  end.

Fixpoint derivative (c : ascii) (r : Regexp) : Regexp :=
  match r with
  | NoMatch => NoMatch
  | EmptyMatch => NoMatch
  | CharClass p => if p c then EmptyMatch else NoMatch
  | Concat r s =>
      if nullable r then Alternate (Concat (derivative c r) s) (derivative c s)
      else Concat (derivative c r) s
  | Alternate r s => Alternate (derivative c r) (derivative c s)
  | Star r => Concat (derivative c r) (Star r)
  end.

(** [re.MatchString(s)] for an expression anchored at both ends. *)
Fixpoint MatchString (r : Regexp) (s : string) : bool :=
  match s with
  | EmptyString => nullable r
  | String c s' => MatchString (derivative c r) s'
  end.

End regexp.

(** ** package auth *)

Module auth.

(** *** validator.go

    Strings are byte strings.  [strings.TrimSpace] and [strings.ToLower]
    are modelled as they work on ASCII text, the path both take when no
    byte is 0x80 or above; for other texts the library decodes runes, which
    is not modelled. *)

Definition is_space (c : ascii) : bool :=
  let n := Ascii.nat_of_ascii c in
  ((9 <=? n) && (n <=? 13))%nat || (n =? 32)%nat.

Definition to_lower (c : ascii) : ascii :=
  let n := Ascii.nat_of_ascii c in
  if ((65 <=? n) && (n <=? 90))%nat then Ascii.ascii_of_nat (n + 32) else c.

Fixpoint TrimLeft (s : string) : string :=
  match s with
  | String c r => if is_space c then TrimLeft r else s
  | EmptyString => EmptyString
  end.

Fixpoint TrimRight (s : string) : string :=
  match s with
  | String c r =>
      match TrimRight r with
      | EmptyString => if is_space c then EmptyString else String c EmptyString
      | r' => String c r'
      end
  | EmptyString => EmptyString
  end.

Definition TrimSpace (s : string) : string := TrimRight (TrimLeft s).

Fixpoint ToLower (s : string) : string :=
  match s with
  | String c r => String (to_lower c) (ToLower r)
  | EmptyString => EmptyString
  end.

Definition SanitizeEmail (email : string) : string := ToLower (TrimSpace email).

(** The classes of [emailRegex]:
    [^[a-zA-Z0-9._%+\-]+@[a-zA-Z0-9.\-]+\.[a-zA-Z]{2,}$]. *)
Definition in_range (lo hi c : ascii) : bool :=
  ((Ascii.nat_of_ascii lo <=? Ascii.nat_of_ascii c)
   && (Ascii.nat_of_ascii c <=? Ascii.nat_of_ascii hi))%nat.

Fixpoint one_of (chars : string) (c : ascii) : bool :=
  match chars with
  | String x rest => Ascii.eqb c x || one_of rest c
  | EmptyString => false
  end.

Definition letter (c : ascii) : bool :=
  in_range "a" "z" c || in_range "A" "Z" c.

Definition local_char (c : ascii) : bool :=
  letter c || in_range "0" "9" c || one_of "._%+-" c.

Definition domain_char (c : ascii) : bool :=
  letter c || in_range "0" "9" c || one_of ".-" c.

Definition emailRegex : regexp.Regexp :=
  regexp.Concat (regexp.Plus (regexp.CharClass local_char))
    (regexp.Concat (regexp.Literal "@")
       (regexp.Concat (regexp.Plus (regexp.CharClass domain_char))
          (regexp.Concat (regexp.Literal ".")
             (regexp.Repeat 2 (regexp.CharClass letter))))).

Definition minPasswordLength : nat := 3.

Definition IsValidEmail (email : string) : bool :=
  let email := TrimSpace email in
  if (254 <? String.length email)%nat then false
  else regexp.MatchString emailRegex email.

(** [strings.HasPrefix], [strings.HasSuffix] *)
Definition HasPrefix (s prefix : string) : bool :=
  (String.length prefix <=? String.length s)%nat
  && String.eqb (String.substring 0 (String.length prefix) s) prefix.

Definition HasSuffix (s suffix : string) : bool :=
  (String.length suffix <=? String.length s)%nat
  && String.eqb (String.substring (String.length s - String.length suffix)
                   (String.length suffix) s) suffix.

Definition IsStudentEmail (email : string) : bool :=
  HasSuffix (ToLower email) "@student.student".

(** *** password.go *)

Definition VerifyPassword `{Primitives} (password hash : string) : result unit :=
  match CompareHashAndPassword hash password with
  | Some bcrypt_ErrMismatchedHashAndPassword => Err (Errorf "invalid password" [])
  | Some err => Err (Errorf "failed to verify password: %w" [AErr err])
  | None => Ok tt
  end.

(** *** service.go *)

(** The two stores the service reaches. *)
Record World : Type := { rdb : redis.Client; db : user.DB }.

Definition onRedis {A} (m : M redis.Client A) : M World A :=
  zoom rdb (fun c w => {| rdb := c; db := db w |}) m.

Definition onDB {A} (m : M user.DB A) : M World A :=
  zoom db (fun d w => {| rdb := rdb w; db := d |}) m.

(** [rateLimiter] is an interface value and may be nil; the repository and
    the blacklist are the stores of [World]. *)
Record Service : Type := {
  tokenService : token.Service;
  rateLimiter : option ratelimit.Limiter
}.

Record LoginRequest : Type := { Email_ : string; Password_ : string }.

Record LoginResponse : Type := {
  Token : token.TokenPair;
  User : user.User;
  Meta : user.Meta
}.

(** [validator.ValidationErrors.Error]: one line for each field at fault,
    with the tag that failed. *)
Definition fieldError (field tag : string) : string :=
  Sprintf "Key: '%s' Error:Field validation for '%s' failed on the '%s' tag"
    ["LoginRequest." +:+ field; field; tag].

Fixpoint lines (l : list string) : string :=
  match l with
  | [] => ""
  | [e] => e
  | e :: rest => e +:+ String (Ascii.ascii_of_nat 10) (lines rest)
  end.

(** [c.ShouldBindJSON(&req)] for the request type [LoginRequest]: [body] is
    what the JSON decoder makes of the body (a field that is absent is the
    empty string), then the tags [binding:"required,email"] of [Email] and
    [binding:"required"] of [Password] are checked, the first tag that fails
    for a field being reported.  [email_rule] is the rule [email] of
    go-playground/validator. *)
Definition ShouldBindJSON (email_rule : string -> bool) (body : result LoginRequest)
  : string + LoginRequest :=
  match body with
  | Err err => inl (Error err)
  | Ok req =>
      let email :=
        if String.eqb (Email_ req) "" then [fieldError "Email" "required"]
        else if negb (email_rule (Email_ req)) then [fieldError "Email" "email"]
        else [] in
      let password :=
        if String.eqb (Password_ req) "" then [fieldError "Password" "required"]
        else [] in
      match app email password with
      | [] => inr req
      | errors => inl (lines errors)
      end
  end.

(** The statements shared by the three log-in paths after the subject and
    its meta value are known: [GetFullName], [Generate], the response.
    [userWithMeta] is a pointer and may be nil. *)
Definition issue `{Primitives} (s : Service) (now : Z) (jtis : string * string)
    (usr : user.User) (userWithMeta : option user.UserWithMeta) : result LoginResponse :=
  let boddleUID := default "" (user.User_BoddleUID usr) in
  match userWithMeta with
  | None => Err (Panic "nil pointer dereference")
  | Some userWithMeta =>
      match user.GetFullName userWithMeta with
      | Err e => Err e
      | Ok fullName =>
          match token.Generate (tokenService s) now jtis (user.User_ID usr) boddleUID
                  (user.User_Email usr) fullName (user.User_MetaType usr)
                  (user.User_MetaID usr) with
          | Err e => Err (Errorf "failed to generate token: %w" [AErr e])
          | Ok tokenPair =>
              Ok {| Token := tokenPair; User := usr; Meta := user.Meta_ userWithMeta |}
          end
      end
  end.

Definition lift {S A} (r : result A) : M S A :=
  match r with Ok a => ret a | Err e => fail e end.

(** The failure branch of [AuthenticateEmailPassword], written twice in
    the source. *)
Definition recordFailure {A} (s : Service) (now : Z) (email ipAddress : string)
  : M World A :=
  let* _ := attempt (onDB (user.RecordLoginAttempt now email ipAddress false)) in
  let* _ := match rateLimiter s with
            | Some l => attempt (onRedis (ratelimit.RecordFailedAttempt l now email ipAddress))
            | None => ret (Ok tt)
            end in
  fail (Errorf "invalid credentials" []).

Definition AuthenticateEmailPassword `{Primitives} (s : Service) (now : Z)
    (jtis : string * string) (email password ipAddress : string)
  : M World LoginResponse :=
  let email := SanitizeEmail email in
  let* _ :=
    match rateLimiter s with
    | Some l =>
        let* r := attempt (onRedis (ratelimit.CheckLoginAttempt l now email ipAddress)) in
        match r with
        | Err _ => ret tt
        | Ok (allowed, _, lockoutRemaining) =>
            if negb allowed then
              fail (Errorf "too many failed attempts, locked out for %v"
                      [ADuration (time.Round lockoutRemaining time.Second)])
            else ret tt
        end
    | None => ret tt
    end in
  let* usr := wrap (fun e => Errorf "database error: %w" [AErr e])
                (onDB (user.FindByEmail email)) in
  match usr with
  | None => recordFailure s now email ipAddress
  | Some usr =>
      match VerifyPassword password (user.User_PasswordDigest usr) with
      | Err _ => recordFailure s now email ipAddress
      | Ok _ =>
          let* _ := attempt (onDB (user.RecordLoginAttempt now email ipAddress true)) in
          let* _ := match rateLimiter s with
                    | Some l =>
                        attempt (onRedis (ratelimit.RecordSuccessfulAttempt l now email ipAddress))
                    | None => ret (Ok tt)
                    end in
          let* _ := attempt (onDB (user.UpdateLastLoggedOn now (user.User_ID usr))) in
          let* userWithMeta := wrap (fun e => Errorf "failed to load user meta: %w" [AErr e])
                                 (onDB (user.FindWithMeta (user.User_ID usr))) in
          lift (issue s now jtis usr userWithMeta)
      end
  end.

Definition AuthenticateLoginToken `{Primitives} (s : Service) (now : Z)
    (jtis : string * string) (secret : string) : M World LoginResponse :=
  let* loginToken := wrap (fun e => Errorf "database error: %w" [AErr e])
                       (onDB (user.FindLoginToken secret)) in
  match loginToken with
  | None => fail (Errorf "invalid token" [])
  | Some loginToken =>
      let* _ :=
        if negb (user.LoginToken_Permanent loginToken) then
          let expiryTime := time.Add (user.LoginToken_CreatedAt loginToken)
                              (5 * time.Minute) in
          if time.After now expiryTime then fail (Errorf "token expired" [])
          else
            let* _ := attempt (onDB (user.DeleteLoginToken (user.LoginToken_ID loginToken))) in
            ret tt
        else ret tt in
      let* userWithMeta := wrap (fun e => Errorf "failed to load user: %w" [AErr e])
                             (onDB (user.FindWithMeta (user.LoginToken_UserID loginToken))) in
      match userWithMeta with
      | None => fail (Errorf "user not found" [])
      | Some userWithMeta =>
          let usr := user.User_ userWithMeta in
          let* _ := attempt (onDB (user.UpdateLastLoggedOn now (user.User_ID usr))) in
          lift (issue s now jtis usr (Some userWithMeta))
      end
  end.

Definition ValidateToken `{Primitives} (s : Service) (now : Z)
    (tokenString : jwt.TokenString) : M World Claims :=
  let* claims := wrap (fun e => Errorf "invalid token: %w" [AErr e])
                   (lift (token.Validate (tokenService s) now tokenString)) in
  let* blacklisted := wrap (fun e => Errorf "failed to check blacklist: %w" [AErr e])
                        (onRedis (token.IsBlacklisted now (ID (Registered claims)))) in
  if blacklisted : bool then fail (Errorf "token revoked" [])
  else ret claims.

Definition Logout `{Primitives} (s : Service) (now : Z) (tokenString : jwt.TokenString)
  : M World unit :=
  match token.Validate (tokenService s) now tokenString with
  | Err _ => ret tt
  | Ok claims =>
      match ExpiresAt (Registered claims) with
      | None => fail (Panic "nil pointer dereference")
      | Some exp =>
          wrap (fun e => Errorf "failed to blacklist token: %w" [AErr e])
            (onRedis (token.Add now (ID (Registered claims)) (jwt.Time exp)))
      end
  end.

Definition GetCurrentUser (claims : Claims) : M World user.UserWithMeta :=
  let* userWithMeta := wrap (fun e => Errorf "failed to load user: %w" [AErr e])
                         (onDB (user.FindWithMeta (UserID claims))) in
  match userWithMeta with
  | None => fail (Errorf "user not found" [])
  | Some userWithMeta => ret userWithMeta
  end.

(** *** handler.go

    A response is a status and the uniform envelope. *)

Inductive Envelope (A : Type) : Type :=
  | Success (data : A)
  | Failure (code message : string).
Arguments Success {A} data.
Arguments Failure {A} code message.

Record Response (A : Type) : Type := { status : Z; body : Envelope A }.
Arguments status {A} r.
Arguments body {A} r.

Definition StatusOK : Z := 200.
Definition StatusBadRequest : Z := 400.
Definition StatusUnauthorized : Z := 401.
Definition StatusInternalServerError : Z := 500.

(** [response.ValidationError] *)
Definition ValidationError {A} (message : string) : Response A :=
  {| status := 400; body := Failure "VALIDATION_FAILED" message |}.

(** The reply of the recovery middleware to a panic in a handler. *)
Definition Recovery {A} : Response A :=
  {| status := StatusInternalServerError;
     body := Failure "INTERNAL_ERROR" "Internal server error" |}.

(** [Login]: [bound] is the outcome of [c.ShouldBindJSON(&req)], the error
    text or the request as [ShouldBindJSON] gives it, and [ipAddress] the
    outcome of [c.ClientIP()]. *)
Definition Login `{Primitives} (s : Service) (now : Z) (jtis : string * string)
    (bound : string + LoginRequest) (ipAddress : string) (w : World)
  : Response LoginResponse * World :=
  match bound with
  | inl err => (ValidationError err, w)
  | inr req =>
      match AuthenticateEmailPassword s now jtis (Email_ req) (Password_ req) ipAddress w with
      | (Err (Panic _), w') => (Recovery, w')
      | (Err _, w') =>
          ({| status := StatusUnauthorized;
              body := Failure "INVALID_CREDENTIALS" "Invalid email or password" |}, w')
      | (Ok result, w') => ({| status := StatusOK; body := Success result |}, w')
      end
  end.

(** [LoginWithToken]: [secret] is [c.Query("token")]. *)
Definition LoginWithToken `{Primitives} (s : Service) (now : Z) (jtis : string * string)
    (secret : string) (w : World) : Response LoginResponse * World :=
  if String.eqb secret "" then (ValidationError "token parameter is required", w)
  else
    match AuthenticateLoginToken s now jtis secret w with
    | (Err (Panic _), w') => (Recovery, w')
    | (Err _, w') =>
        ({| status := StatusUnauthorized;
            body := Failure "INVALID_TOKEN" "Invalid or expired token" |}, w')
    | (Ok result, w') => ({| status := StatusOK; body := Success result |}, w')
    end.

(** [response.Error]: no error value of the service is an [*AppError],
    so the reply is the default one. *)
Definition response_Error {A} (err : error) : Response A :=
  {| status := 500; body := Failure "INTERNAL_ERROR" "Internal server error" |}.

(** [Handler.Logout]: [authHeader] is [c.GetHeader("Authorization")], and
    [segments] what the text of a token decodes to. *)
Definition Handler_Logout `{Primitives} (s : Service) (now : Z)
    (segments : string -> jwt.TokenString) (authHeader : string) (w : World)
  : Response string * World :=
  if String.eqb authHeader "" then (ValidationError "Authorization header is required", w)
  else if (7 <? String.length authHeader)%nat
          && String.eqb (String.substring 0 7 authHeader) "Bearer " then
    let tokenString := String.substring 7 (String.length authHeader - 7) authHeader in
    match Logout s now (segments tokenString) w with
    | (Err (Panic _), w') => (Recovery, w')
    | (Err err, w') => (response_Error err, w')
    | (Ok _, w') =>
        ({| status := StatusOK; body := Success "Logged out successfully" |}, w')
    end
  else (ValidationError "Invalid Authorization header format", w).

(** [Handler.Me]: [claims] is the value the middleware has set in the
    context under "claims", if any. *)
Definition Me (s : Service) (claims : option Claims) (w : World)
  : Response (user.User * user.Meta) * World :=
  match claims with
  | None =>
      ({| status := StatusUnauthorized;
          body := Failure "UNAUTHORIZED" "Not authenticated" |}, w)
  | Some claims =>
      match GetCurrentUser claims w with
      | (Err (Panic _), w') => (Recovery, w')
      | (Err err, w') => (response_Error err, w')
      | (Ok userWithMeta, w') =>
          ({| status := StatusOK;
              body := Success (user.User_ userWithMeta, user.Meta_ userWithMeta) |}, w')
      end
  end.

End auth.

(** ** package auth, validator.go: the validation of a request *)

Module validator.

Record ValidationError : Type := { Field : string; Message : string }.

(** [ValidationError.Error] *)
Definition ValidationError_Error (e : ValidationError) : string :=
  Sprintf "%s: %s" [Field e; Message e].

(** [strings.Join] *)
Fixpoint Join (elems : list string) (sep : string) : string :=
  match elems with
  | [] => ""
  | [e] => e
  | e :: rest => e +:+ sep +:+ Join rest sep
  end.

(** [validationErrors.Error] *)
Definition validationErrors_Error (errors : list ValidationError) : string :=
  Join (map ValidationError_Error errors) "; ".

(** [ValidateLoginRequest]: [None] is nil, [Some errors] the
    [*validationErrors] value. *)
Definition ValidateLoginRequest (req : auth.LoginRequest) : option (list ValidationError) :=
  let errors := [] in
  let errors :=
    if String.eqb (auth.Email_ req) "" then
      app errors [ {| Field := "email"; Message := "Email is required" |} ]
    else if negb (auth.IsValidEmail (auth.Email_ req)) then
      app errors [ {| Field := "email"; Message := "Email format is invalid" |} ]
    else errors in
  let errors :=
    if String.eqb (auth.Password_ req) "" then
      app errors [ {| Field := "password"; Message := "Password is required" |} ]
    else if (String.length (auth.Password_ req) <? auth.minPasswordLength)%nat then
      app errors [ {| Field := "password";
                      Message := Sprintf "Password must be at least %d characters"
                                   [pretty (Z.of_nat auth.minPasswordLength)] |} ]
    else errors in
  if (0 <? length errors)%nat then Some errors else None.

End validator.

(** ** package middleware *)

Module middleware.

(** [Auth]: the reply that aborts the request, or the claims set in the
    context for the handlers that follow. *)
Definition Auth `{Primitives} {A} (s : auth.Service) (now : Z)
    (segments : string -> jwt.TokenString) (authHeader : string) (w : auth.World)
  : (auth.Response A + Claims) * auth.World :=
  if String.eqb authHeader "" then
    (inl {| auth.status := auth.StatusUnauthorized;
            auth.body := auth.Failure "UNAUTHORIZED" "Missing Authorization header" |}, w)
  else if auth.HasPrefix authHeader "Bearer " then
    let tokenString := String.substring 7 (String.length authHeader - 7) authHeader in
    match auth.ValidateToken s now (segments tokenString) w with
    | (Err (Panic _), w') => (inl auth.Recovery, w')
    | (Err err, w') =>
        (inl {| auth.status := auth.StatusUnauthorized;
                auth.body := auth.Failure "INVALID_TOKEN" (Error err) |}, w')
    | (Ok claims, w') => (inr claims, w')
    end
  else
    (inl {| auth.status := auth.StatusUnauthorized;
            auth.body := auth.Failure "UNAUTHORIZED" "Invalid Authorization header format" |},
     w).

End middleware.

(** ** cmd/server: the protected route *)

Module server.

(** [GET /auth/me]: the [Auth] middleware, then [Handler.Me]. *)
Definition GET_auth_me `{Primitives} (s : auth.Service) (now : Z)
    (segments : string -> jwt.TokenString) (authHeader : string) (w : auth.World)
  : auth.Response (user.User * user.Meta) * auth.World :=
  match middleware.Auth s now segments authHeader w with
  | (inl reply, w') => (reply, w')
  | (inr claims, w') => auth.Me s (Some claims) w'
  end.

End server.

(** ** package oauth *)

Module oauth.

Record OAuthUserInfo : Type := {
  ProviderUserID : string;
  Email_ : string;
  FirstName : string;
  LastName : string;
  Picture : string;
  EmailVerified : bool
}.

(** [findOrCreateGoogleUser].  The first result is a pointer to a user and
    is nil when [FindByID] finds no row.  After a link the role record is
    returned as it was read, with the provider column set: its
    [updated_at] is the one read. *)
Definition findOrCreateGoogleUser (now : Z) (info : OAuthUserInfo)
  : M user.DB (option user.User * user.Meta) :=
  let* teacher := user.FindTeacherByGoogleUID (ProviderUserID info) in
  match teacher with
  | Some teacher =>
      let* usr := user.FindByID (user.Teacher_UserID teacher) in
      ret (usr, user.IsTeacher (Some teacher))
  | None =>
      let* student := user.FindStudentByGoogleUID (ProviderUserID info) in
      match student with
      | Some student =>
          let* usr := user.FindByID (user.Student_UserID student) in
          ret (usr, user.IsStudent (Some student))
      | None =>
          let* usr := user.FindByEmail (Email_ info) in
          match usr with
          | None =>
              fail (Errorf "no account found for this Google account. Please sign up first." [])
          | Some usr =>
              if String.eqb (user.User_MetaType usr) "Teacher" then
                let* teacher := user.FindTeacher (user.User_MetaID usr) in
                match teacher with
                | None => fail (Errorf "teacher meta not found" [])
                | Some teacher =>
                    let* _ := wrap (fun e => Errorf "failed to link Google account: %w" [AErr e])
                                (user.UpdateTeacherGoogleUID now (user.Teacher_ID teacher)
                                   (ProviderUserID info)) in
                    ret (Some usr,
                         user.IsTeacher (Some
                           (user.link_teacher_google (user.Teacher_UpdatedAt teacher)
                              (ProviderUserID info) teacher)))
                end
              else if String.eqb (user.User_MetaType usr) "Student" then
                let* student := user.FindStudent (user.User_MetaID usr) in
                match student with
                | None => fail (Errorf "student meta not found" [])
                | Some student =>
                    let* _ := wrap (fun e => Errorf "failed to link Google account: %w" [AErr e])
                                (user.UpdateStudentGoogleUID now (user.Student_ID student)
                                   (ProviderUserID info)) in
                    ret (Some usr,
                         user.IsStudent (Some
                           (user.link_student_google (user.Student_UpdatedAt student)
                              (ProviderUserID info) student)))
                end
              else
                fail (Errorf "unsupported user type for Google OAuth: %s"
                        [AStr (user.User_MetaType usr)])
          end
      end
  end.

(** [findOrCreateCleverUser] *)
Definition findOrCreateCleverUser (now : Z) (info : OAuthUserInfo)
  : M user.DB (option user.User * user.Meta) :=
  let* teacher := user.FindTeacherByCleverUID (ProviderUserID info) in
  match teacher with
  | Some teacher =>
      let* usr := user.FindByID (user.Teacher_UserID teacher) in
      ret (usr, user.IsTeacher (Some teacher))
  | None =>
      let* student := user.FindStudentByCleverUID (ProviderUserID info) in
      match student with
      | Some student =>
          let* usr := user.FindByID (user.Student_UserID student) in
          ret (usr, user.IsStudent (Some student))
      | None =>
          let* usr := user.FindByEmail (Email_ info) in
          match usr with
          | None =>
              fail (Errorf "no account found for this Clever account. Please sign up first." [])
          | Some usr =>
              if String.eqb (user.User_MetaType usr) "Teacher" then
                let* teacher := user.FindTeacher (user.User_MetaID usr) in
                match teacher with
                | None => fail (Errorf "teacher meta not found" [])
                | Some teacher =>
                    let* _ := wrap (fun e => Errorf "failed to link Clever account: %w" [AErr e])
                                (user.UpdateTeacherCleverUID now (user.Teacher_ID teacher)
                                   (ProviderUserID info)) in
                    ret (Some usr,
                         user.IsTeacher (Some
                           (user.link_teacher_clever (user.Teacher_UpdatedAt teacher)
                              (ProviderUserID info) teacher)))
                end
              else if String.eqb (user.User_MetaType usr) "Student" then
                let* student := user.FindStudent (user.User_MetaID usr) in
                match student with
                | None => fail (Errorf "student meta not found" [])
                | Some student =>
                    let* _ := wrap (fun e => Errorf "failed to link Clever account: %w" [AErr e])
                                (user.UpdateStudentCleverUID now (user.Student_ID student)
                                   (ProviderUserID info)) in
                    ret (Some usr,
                         user.IsStudent (Some
                           (user.link_student_clever (user.Student_UpdatedAt student)
                              (ProviderUserID info) student)))
                end
              else
                fail (Errorf "unsupported user type for Clever SSO: %s"
                        [AStr (user.User_MetaType usr)])
          end
      end
  end.

(** [findOrCreateiCloudUser] *)
Definition findOrCreateiCloudUser (now : Z) (info : OAuthUserInfo)
  : M user.DB (option user.User * user.Meta) :=
  let* student := user.FindStudentByiCloudUID (ProviderUserID info) in
  match student with
  | Some student =>
      let* usr := user.FindByID (user.Student_UserID student) in
      ret (usr, user.IsStudent (Some student))
  | None =>
      let* parent := user.FindParentByiCloudUID (ProviderUserID info) in
      match parent with
      | Some parent =>
          let* usr := user.FindByID (user.Parent_UserID parent) in
          ret (usr, user.IsParent (Some parent))
      | None =>
          let* usr := user.FindByEmail (Email_ info) in
          match usr with
          | None =>
              fail (Errorf "no account found for this iCloud account. Please sign up first." [])
          | Some usr =>
              if String.eqb (user.User_MetaType usr) "Student" then
                let* student := user.FindStudent (user.User_MetaID usr) in
                match student with
                | None => fail (Errorf "student meta not found" [])
                | Some student =>
                    let* _ := wrap (fun e => Errorf "failed to link iCloud account: %w" [AErr e])
                                (user.UpdateStudentiCloudUID now (user.Student_ID student)
                                   (ProviderUserID info)) in
                    ret (Some usr,
                         user.IsStudent (Some
                           (user.link_student_icloud (user.Student_UpdatedAt student)
                              (ProviderUserID info) student)))
                end
              else if String.eqb (user.User_MetaType usr) "Parent" then
                let* parent := user.FindParent (user.User_MetaID usr) in
                match parent with
                | None => fail (Errorf "parent meta not found" [])
                | Some parent =>
                    let* _ := wrap (fun e => Errorf "failed to link iCloud account: %w" [AErr e])
                                (user.UpdateParentiCloudUID now (user.Parent_ID parent)
                                   (ProviderUserID info)) in
                    ret (Some usr,
                         user.IsParent (Some
                           (user.link_parent_icloud (user.Parent_UpdatedAt parent)
                              (ProviderUserID info) parent)))
                end
              else
                fail (Errorf "unsupported user type for iCloud Sign In: %s (iCloud is for students and parents only)"
                        [AStr (user.User_MetaType usr)])
          end
      end
  end.

(** The full name [AuthenticateWithGoogle] computes by a type switch. *)
Definition fullName (meta : user.Meta) : result string :=
  match meta with
  | user.IsTeacher (Some m) => Ok (user.Teacher_FirstName m +:+ " " +:+ user.Teacher_LastName m)
  | user.IsStudent (Some m) => Ok (user.Student_FirstName m +:+ " " +:+ user.Student_LastName m)
  | user.IsTeacher None | user.IsStudent None => Err (Panic "nil pointer dereference")
  | _ => Ok ""
  end.

(** [AuthenticateWithGoogle]: [callback] is the outcome of
    [googleSvc.HandleCallback(ctx, code, state)], the exchange with the
    provider. *)
Definition AuthenticateWithGoogle `{Primitives} (ts : token.Service) (now : Z)
    (jtis : string * string) (callback : result (OAuthUserInfo * string))
  : M user.DB (auth.LoginResponse * string) :=
  let* (oauthUserInfo, redirectURL) := auth.lift callback in
  let* (usr, meta) := findOrCreateGoogleUser now oauthUserInfo in
  match usr with
  | None => fail (Panic "nil pointer dereference")
  | Some usr =>
      let* _ := attempt (user.UpdateLastLoggedOn now (user.User_ID usr)) in
      let boddleUID := default "" (user.User_BoddleUID usr) in
      let* fullName := auth.lift (fullName meta) in
      let* tokenPair := wrap (fun e => Errorf "failed to generate token: %w" [AErr e])
                          (auth.lift (token.Generate ts now jtis (user.User_ID usr) boddleUID
                             (user.User_Email usr) fullName (user.User_MetaType usr)
                             (user.User_MetaID usr))) in
      ret ({| auth.Token := tokenPair; auth.User := usr; auth.Meta := meta |}, redirectURL)
  end.

(** [AuthenticateWithClever] *)
Definition AuthenticateWithClever `{Primitives} (ts : token.Service) (now : Z)
    (jtis : string * string) (callback : result (OAuthUserInfo * string))
  : M user.DB (auth.LoginResponse * string) :=
  let* (oauthUserInfo, redirectURL) := auth.lift callback in
  let* (usr, meta) := findOrCreateCleverUser now oauthUserInfo in
  match usr with
  | None => fail (Panic "nil pointer dereference")
  | Some usr =>
      let* _ := attempt (user.UpdateLastLoggedOn now (user.User_ID usr)) in
      let boddleUID := default "" (user.User_BoddleUID usr) in
      let* fullName := auth.lift (fullName meta) in
      let* tokenPair := wrap (fun e => Errorf "failed to generate token: %w" [AErr e])
                          (auth.lift (token.Generate ts now jtis (user.User_ID usr) boddleUID
                             (user.User_Email usr) fullName (user.User_MetaType usr)
                             (user.User_MetaID usr))) in
      ret ({| auth.Token := tokenPair; auth.User := usr; auth.Meta := meta |}, redirectURL)
  end.

(** The full name [AuthenticateWithiCloud] computes by a type switch. *)
Definition fullName_iCloud (meta : user.Meta) : result string :=
  match meta with
  | user.IsStudent (Some m) => Ok (user.Student_FirstName m +:+ " " +:+ user.Student_LastName m)
  | user.IsParent (Some m) => Ok (user.Parent_FirstName m +:+ " " +:+ user.Parent_LastName m)
  | user.IsStudent None | user.IsParent None => Err (Panic "nil pointer dereference")
  | _ => Ok ""
  end.

(** [AuthenticateWithiCloud] *)
Definition AuthenticateWithiCloud `{Primitives} (ts : token.Service) (now : Z)
    (jtis : string * string) (callback : result (OAuthUserInfo * string))
  : M user.DB (auth.LoginResponse * string) :=
  let* (oauthUserInfo, redirectURL) := auth.lift callback in
  let* (usr, meta) := findOrCreateiCloudUser now oauthUserInfo in
  match usr with
  | None => fail (Panic "nil pointer dereference")
  | Some usr =>
      let* _ := attempt (user.UpdateLastLoggedOn now (user.User_ID usr)) in
      let boddleUID := default "" (user.User_BoddleUID usr) in
      let* fullName := auth.lift (fullName_iCloud meta) in
      let* tokenPair := wrap (fun e => Errorf "failed to generate token: %w" [AErr e])
                          (auth.lift (token.Generate ts now jtis (user.User_ID usr) boddleUID
                             (user.User_Email usr) fullName (user.User_MetaType usr)
                             (user.User_MetaID usr))) in
      ret ({| auth.Token := tokenPair; auth.User := usr; auth.Meta := meta |}, redirectURL)
  end.

(** The reply shared by the three callback handlers once [code] and
    [state] are read. *)
Definition reply {A} (code state : string)
    (authenticate : M user.DB A) (d : user.DB) : auth.Response A * user.DB :=
  if String.eqb code "" || String.eqb state "" then
    ({| auth.status := auth.StatusBadRequest;
        auth.body := auth.Failure "INVALID_REQUEST" "Missing code or state parameter" |}, d)
  else
    match authenticate d with
    | (Err (Panic _), d') => (auth.Recovery, d')
    | (Err err, d') =>
        ({| auth.status := auth.StatusUnauthorized;
            auth.body := auth.Failure "OAUTH_FAILED" (Error err) |}, d')
    | (Ok result, d') => ({| auth.status := auth.StatusOK; auth.body := auth.Success result |}, d')
    end.

(** [CleverCallback]: [code] and [state] are the query parameters. *)
Definition CleverCallback `{Primitives} (ts : token.Service) (now : Z)
    (jtis : string * string) (code state : string)
    (callback : result (OAuthUserInfo * string)) (d : user.DB)
  : auth.Response (auth.LoginResponse * string) * user.DB :=
  reply code state (AuthenticateWithClever ts now jtis callback) d.

(** [ICloudCallback]: the form fields, and the query parameters read when
    a form field is empty. *)
Definition ICloudCallback `{Primitives} (ts : token.Service) (now : Z)
    (jtis : string * string) (formCode formState queryCode queryState : string)
    (callback : result (OAuthUserInfo * string)) (d : user.DB)
  : auth.Response (auth.LoginResponse * string) * user.DB :=
  let code := if String.eqb formCode "" then queryCode else formCode in
  let state := if String.eqb formState "" then queryState else formState in
  reply code state (AuthenticateWithiCloud ts now jtis callback) d.

(** [GoogleCallback]: [code] and [state] are the query parameters. *)
Definition GoogleCallback `{Primitives} (ts : token.Service) (now : Z)
    (jtis : string * string) (code state : string)
    (callback : result (OAuthUserInfo * string)) (d : user.DB)
  : auth.Response (auth.LoginResponse * string) * user.DB :=
  reply code state (AuthenticateWithGoogle ts now jtis callback) d.

(** *** state.go *)

Record StateManager : Type := { ttl : Z }.

Definition NewStateManager : StateManager := {| ttl := 10 * time.Minute |}.

(** [hex.EncodeToString]: two digits for every byte. *)
Definition hextable : string := "0123456789abcdef".

Definition hexdigit (n : nat) : ascii :=
  match String.get n hextable with
  | Some c => c
  | None => "0"
  end.

Fixpoint EncodeToString (src : string) : string :=
  match src with
  | EmptyString => EmptyString
  | String v rest =>
      String (hexdigit (Ascii.nat_of_ascii v / 16))
        (String (hexdigit (Ascii.nat_of_ascii v mod 16)) (EncodeToString rest))
  end.

(** [GenerateState]: [random] is the outcome of [rand.Read(b)] for the
    32 bytes of [b]. *)
Definition GenerateState (random : result string) : result string :=
  match random with
  | Err err => Err (Errorf "failed to generate random state: %w" [AErr err])
  | Ok b => Ok (EncodeToString b)
  end.

Definition stateKey (state : string) : string := "oauth:state:" +:+ state.

Definition SaveState (sm : StateManager) (now : Z) (state redirectURL : string)
  : M redis_text.Client unit :=
  let key := stateKey state in
  wrap (fun e => Errorf "failed to save OAuth state: %w" [AErr e])
    (redis_text.Set_ now key redirectURL (ttl sm)).

Definition ValidateState (sm : StateManager) (now : Z) (state : string)
  : M redis_text.Client string :=
  let key := stateKey state in
  let* r := attempt (redis_text.Get now key) in
  match r with
  | Err redis_Nil => fail (Errorf "invalid or expired state token" [])
  | Err err => fail (Errorf "failed to validate OAuth state: %w" [AErr err])
  | Ok redirectURL =>
      let* _ := attempt (redis_text.Del now [key]) in
      ret redirectURL
  end.

(** *** google.go, clever.go

    What the provider answers: the authorization URL the library builds
    for a state, the exchange of a code for an access token, and the
    profile fetched with an access token. *)
Record Provider : Type := {
  AuthCodeURL : string -> string;
  Exchange : string -> result string;
  fetchUserInfo : string -> result OAuthUserInfo
}.

(** [GetAuthURL] of [GoogleService] and of [CleverService]. *)
Definition GetAuthURL (sm : StateManager) (p : Provider) (now : Z)
    (random : result string) (redirectURL : string) : M redis_text.Client string :=
  let* state := auth.lift (GenerateState random) in
  let* _ := SaveState sm now state redirectURL in
  ret (AuthCodeURL p state).

(** [HandleCallback] of [GoogleService] and of [CleverService]. *)
Definition HandleCallback (sm : StateManager) (p : Provider) (now : Z)
    (code state : string) : M redis_text.Client (OAuthUserInfo * string) :=
  let* redirectURL := wrap (fun e => Errorf "invalid state: %w" [AErr e])
                        (ValidateState sm now state) in
  let* token := wrap (fun e => Errorf "failed to exchange code: %w" [AErr e])
                  (auth.lift (Exchange p code)) in
  let* userInfo := wrap (fun e => Errorf "failed to fetch user info: %w" [AErr e])
                     (auth.lift (fetchUserInfo p token)) in
  ret (userInfo, redirectURL).

(** [GoogleLogin], [CleverLogin]: [redirect_url] is the query parameter;
    the reply is the redirect to the provider or the error reply. *)
Definition ProviderLogin (sm : StateManager) (p : Provider) (now : Z)
    (random : result string) (redirect_url : string) (c : redis_text.Client)
  : (auth.Response unit + string) * redis_text.Client :=
  let redirectURL := if String.eqb redirect_url "" then "/" else redirect_url in
  match GetAuthURL sm p now random redirectURL c with
  | (Err err, c') => (inl (auth.response_Error err), c')
  | (Ok authURL, c') => (inr authURL, c')
  end.

End oauth.

(** ** Vocabulary of the statements *)

(** A client whose store is reachable, over the key space [m]. *)
Definition up (m : gmap string redis.entry) : redis.Client :=
  {| redis.entries := m; redis.net := reachable |}.
Arguments up : simpl never.

(** A client whose store is unreachable. *)
Definition down (m : gmap string redis.entry) : redis.Client :=
  {| redis.entries := m; redis.net := unreachable |}.

(** Both keys of a pair exist at [now]. *)
Definition coexist (now : Z) (email ip : string) (c : redis.Client) : bool :=
  match redis.lookup now (ratelimit.LoginLockoutKey email ip) (redis.entries c),
        redis.lookup now (ratelimit.LoginAttemptKey email ip) (redis.entries c) with
  | Some _, Some _ => true
  | _, _ => false
  end.

(** The failures of a run of attempts at the times [ts], recorded one after
    the other. *)
Fixpoint record_failures (l : ratelimit.Limiter) (email ip : string) (ts : list Z)
    (c : redis.Client) : redis.Client :=
  match ts with
  | [] => c
  | t :: ts' =>
      record_failures l email ip ts' (snd (ratelimit.RecordFailedAttempt l t email ip c))
  end.

(** An instance of the library primitives, for evaluating the definitions on
    concrete inputs: a keyed tag that depends on the hash, the key, the
    algorithm header and the claims' identifiers, and a password comparison
    against digests of the form ["bcrypt:" ++ password]. *)
Definition sample_tag (hash key : string) (hp : Header * Payload) : string :=
  let rc := jwt.toRegisteredClaims (snd hp) in
  hash +:+ "(" +:+ key +:+ ";" +:+ default "" (alg (fst hp)) +:+ ";" +:+
  Subject rc +:+ ";" +:+ ID rc +:+ ")".

Definition sample_compare (hash password : string) : option error :=
  if String.eqb hash ("bcrypt:" +:+ password) then None
  else Some bcrypt_ErrMismatchedHashAndPassword.

Definition sample_primitives : Primitives :=
  {| hmac := sample_tag; CompareHashAndPassword := sample_compare |}.

(** The service of the default configuration with sample secrets. *)
Definition sample_token_service : token.Service :=
  token.NewService "access-secret" "refresh-secret" (6 * time.Hour) (720 * time.Hour).

Definition default_limiter : ratelimit.Limiter :=
  ratelimit.NewLimiter (10 * time.Minute) 5 (15 * time.Minute).

Definition sample_service : auth.Service :=
  {| auth.tokenService := sample_token_service;
     auth.rateLimiter := Some default_limiter |}.

(** The algorithm names the library gives its keyed-hash methods, with the
    hash of each. *)
Definition hmac_methods : list (string * string) :=
  [("HS256", "SHA256"); ("HS384", "SHA384"); ("HS512", "SHA512")].

(** A token as [Generate] builds its access token, under another method. *)
Definition signed_with `{Primitives} (name hash key : string) (c : Claims) : jwt.TokenString :=
  let h := {| alg := Some name; typ := "JWT" |} in
  jwt.Compact h (OfClaims c) (hmac hash key (h, OfClaims c)).

Definition sample_claims : Claims :=
  token.accessClaims sample_token_service 0 "jti-1" 123 "1f1e" "t@example.com"
    "Test User" "Teacher" 456.

(** The reply of [Login] to an error of the service. *)
Definition invalid_credentials : auth.Response auth.LoginResponse :=
  {| auth.status := 401;
     auth.body := auth.Failure "INVALID_CREDENTIALS" "Invalid email or password" |}.

(** The reply of [LoginWithToken] to an error of the service. *)
Definition invalid_token : auth.Response auth.LoginResponse :=
  {| auth.status := 401;
     auth.body := auth.Failure "INVALID_TOKEN" "Invalid or expired token" |}.

(** A string of white space only. *)
Fixpoint all_space (s : string) : bool :=
  match s with
  | String c r => auth.is_space c && all_space r
  | EmptyString => true
  end.

(** What [FindWithMeta] reads from a directory that answers. *)
Definition with_meta (d : user.DB) (userID : Z) : option user.UserWithMeta :=
  match find (fun u => user.User_ID u =? userID) (user.users d) with
  | None => None
  | Some u =>
      let meta :=
        if String.eqb (user.User_MetaType u) "Teacher" then
          user.IsTeacher (find (fun t => user.Teacher_ID t =? user.User_MetaID u) (user.teachers d))
        else if String.eqb (user.User_MetaType u) "Student" then
          user.IsStudent (find (fun t => user.Student_ID t =? user.User_MetaID u) (user.students d))
        else if String.eqb (user.User_MetaType u) "Parent" then
          user.IsParent (find (fun t => user.Parent_ID t =? user.User_MetaID u) (user.parents d))
        else user.NoMeta in
      Some {| user.User_ := u; user.Meta_ := meta |}
  end.

(** The row of the magic link with this secret, and the rows left when the
    rows of an identifier are deleted. *)
Definition token_of (secret : string) (d : user.DB) : option user.LoginToken :=
  find (fun t => String.eqb (user.LoginToken_Secret t) secret) (user.login_tokens d).

Definition without_token (id : Z) (l : list user.LoginToken) : list user.LoginToken :=
  List.filter (fun t => negb (user.LoginToken_ID t =? id)) l.

(** A sample directory: one teacher, one short-lived and one permanent magic
    link. *)
Definition sample_user : user.User :=
  {| user.User_ID := 123; user.User_Email := "t@example.com";
     user.User_PasswordDigest := "bcrypt:Passw0rd!"; user.User_BoddleUID := Some "1f1e";
     user.User_MetaType := "Teacher"; user.User_MetaID := 456;
     user.User_LastLoggedOn := None; user.User_CreatedAt := 0; user.User_UpdatedAt := 0 |}.

Definition sample_teacher : user.Teacher :=
  {| user.Teacher_ID := 456; user.Teacher_UserID := 123;
     user.Teacher_FirstName := "Test"; user.Teacher_LastName := "User";
     user.Teacher_GoogleUID := None; user.Teacher_CleverUID := None;
     user.Teacher_Verified := true; user.Teacher_CreatedAt := 0;
     user.Teacher_UpdatedAt := 0 |}.

Definition sample_db (n : Net) : user.DB :=
  {| user.users := [sample_user];
     user.teachers := [sample_teacher];
     user.students := [];
     user.parents := [];
     user.login_tokens :=
       [ {| user.LoginToken_ID := 1; user.LoginToken_UserID := 123;
            user.LoginToken_Secret := "abc123"; user.LoginToken_Permanent := false;
            user.LoginToken_CreatedAt := 0 |};
         {| user.LoginToken_ID := 2; user.LoginToken_UserID := 123;
            user.LoginToken_Secret := "game-link"; user.LoginToken_Permanent := true;
            user.LoginToken_CreatedAt := 0 |} ];
     user.login_attempts := [];
     user.net := n |}.

Definition sample_world : auth.World :=
  {| auth.rdb := up ∅; auth.db := sample_db reachable |}.

(** The directory after a log-in of a user, and after a successful use of a
    short-lived link. *)
Definition logged_on (now : Z) (userID : Z) (d : user.DB) : user.DB :=
  user.set_users (map (fun u =>
      if user.User_ID u =? userID then user.set_last_logged_on now u else u)) d.

Definition used (now : Z) (tok : user.LoginToken) (d : user.DB) : user.DB :=
  logged_on now (user.LoginToken_UserID tok)
    (user.set_login_tokens (without_token (user.LoginToken_ID tok)) d).

(** A store in which the pair (x@y.com, 10.0.0.1) is locked out until the
    instant 15 min. *)
Definition locked_world : auth.World :=
  {| auth.rdb := up {[ ratelimit.LoginLockoutKey "x@y.com" "10.0.0.1" :=
                         {| redis.val := 1; redis.deadline := Some (15 * time.Minute) |} ]};
     auth.db := sample_db reachable |}.

(** A run of [POST /auth/login] requests from one address, each at its
    instant, and the statuses and codes of the replies. *)
Fixpoint logins `{Primitives} (s : auth.Service) (ip : string)
    (reqs : list (Z * auth.LoginRequest)) (w : auth.World)
  : list (Z * string) * auth.World :=
  match reqs with
  | [] => ([], w)
  | (now, req) :: reqs' =>
      let '(r, w1) := auth.Login s now ("jti-1", "jti-2") (inr req) ip w in
      let code := match auth.body r with
                  | auth.Success _ => "OK"
                  | auth.Failure code _ => code
                  end in
      let '(rs, w2) := logins s ip reqs' w1 in
      ((auth.status r, code) :: rs, w2)
  end.

(** The rows the Google resolution looks for. *)
Definition teacher_by_google (uid : string) (d : user.DB) : option user.Teacher :=
  find (fun t => user.column_is uid (user.Teacher_GoogleUID t)) (user.teachers d).

Definition student_by_google (uid : string) (d : user.DB) : option user.Student :=
  find (fun t => user.column_is uid (user.Student_GoogleUID t)) (user.students d).

Definition user_by_email (email : string) (d : user.DB) : option user.User :=
  find (fun u => String.eqb (user.User_Email u) email) (user.users d).

Definition user_by_id (id : Z) (d : user.DB) : option user.User :=
  find (fun u => user.User_ID u =? id) (user.users d).

Definition teacher_by_id (id : Z) (d : user.DB) : option user.Teacher :=
  find (fun t => user.Teacher_ID t =? id) (user.teachers d).

Definition student_by_id (id : Z) (d : user.DB) : option user.Student :=
  find (fun t => user.Student_ID t =? id) (user.students d).

(** The teacher and student values the resolution returns after a link: the
    row as read, with the Google column set. *)
Definition linked_teacher (uid : string) (t : user.Teacher) : user.Teacher :=
  user.link_teacher_google (user.Teacher_UpdatedAt t) uid t.

Definition linked_student (uid : string) (t : user.Student) : user.Student :=
  user.link_student_google (user.Student_UpdatedAt t) uid t.

(** The directory after the link of a teacher, of a student. *)
Definition teacher_linked (now : Z) (id : Z) (uid : string) (d : user.DB) : user.DB :=
  user.set_teachers (map (fun t =>
    if user.Teacher_ID t =? id then user.link_teacher_google now uid t else t)) d.

Definition student_linked (now : Z) (id : Z) (uid : string) (d : user.DB) : user.DB :=
  user.set_students (map (fun t =>
    if user.Student_ID t =? id then user.link_student_google now uid t else t)) d.

(** The subjects and the identifiers of the role records of a directory. *)
Definition population (d : user.DB) : list user.User * list Z * list Z * list Z :=
  (user.users d, map user.Teacher_ID (user.teachers d),
   map user.Student_ID (user.students d), map user.Parent_ID (user.parents d)).

(** A directory with a parent, and a Google profile with the parent's
    address. *)
Definition parent_db : user.DB :=
  {| user.users :=
       [ {| user.User_ID := 7; user.User_Email := "p@example.com";
            user.User_PasswordDigest := "bcrypt:secret"; user.User_BoddleUID := None;
            user.User_MetaType := "Parent"; user.User_MetaID := 70;
            user.User_LastLoggedOn := None; user.User_CreatedAt := 0;
            user.User_UpdatedAt := 0 |} ];
     user.teachers := [];
     user.students := [];
     user.parents :=
       [ {| user.Parent_ID := 70; user.Parent_UserID := 7; user.Parent_FirstName := "Pat";
            user.Parent_LastName := "Parent"; user.Parent_ICloudUID := None;
            user.Parent_CreatedAt := 0; user.Parent_UpdatedAt := 0 |} ];
     user.login_tokens := [];
     user.login_attempts := [];
     user.net := reachable |}.

Definition google_profile (sub email : string) : oauth.OAuthUserInfo :=
  {| oauth.ProviderUserID := sub; oauth.Email_ := email; oauth.FirstName := "";
     oauth.LastName := ""; oauth.Picture := ""; oauth.EmailVerified := true |}.

(** The reply of [GoogleCallback] when no account matches the profile. *)
Definition no_google_account : string :=
  "no account found for this Google account. Please sign up first.".

Definition oauth_failed (message : string) : auth.Response (auth.LoginResponse * string) :=
  {| auth.status := 401; auth.body := auth.Failure "OAUTH_FAILED" message |}.

(** The rows the Clever and the iCloud resolutions look for. *)
Definition teacher_by_clever (uid : string) (d : user.DB) : option user.Teacher :=
  find (fun t => user.column_is uid (user.Teacher_CleverUID t)) (user.teachers d).

Definition student_by_clever (uid : string) (d : user.DB) : option user.Student :=
  find (fun t => user.column_is uid (user.Student_CleverUID t)) (user.students d).

Definition student_by_icloud (uid : string) (d : user.DB) : option user.Student :=
  find (fun t => user.column_is uid (user.Student_ICloudUID t)) (user.students d).

Definition parent_by_icloud (uid : string) (d : user.DB) : option user.Parent :=
  find (fun t => user.column_is uid (user.Parent_ICloudUID t)) (user.parents d).

Definition parent_by_id (id : Z) (d : user.DB) : option user.Parent :=
  find (fun t => user.Parent_ID t =? id) (user.parents d).

(** The directory after the rows of an identifier are rewritten. *)
Definition teachers_updated (f : user.Teacher -> user.Teacher) (id : Z) (d : user.DB)
  : user.DB :=
  user.set_teachers (map (fun t => if user.Teacher_ID t =? id then f t else t)) d.

Definition students_updated (f : user.Student -> user.Student) (id : Z) (d : user.DB)
  : user.DB :=
  user.set_students (map (fun t => if user.Student_ID t =? id then f t else t)) d.

Definition parents_updated (f : user.Parent -> user.Parent) (id : Z) (d : user.DB)
  : user.DB :=
  user.set_parents (map (fun t => if user.Parent_ID t =? id then f t else t)) d.

(** A text without a colon, as the text of an IPv4 address. *)
Fixpoint no_colon (s : string) : bool :=
  match s with
  | String c r => negb (Ascii.eqb c ":") && no_colon r
  | EmptyString => true
  end.

(** The directory after a log-in attempt is recorded. *)
Definition attempted (now : Z) (email ip : string) (success : bool) (d : user.DB) : user.DB :=
  user.set_login_attempts (fun l =>
    app l [ {| user.LoginAttempt_Email := email; user.LoginAttempt_IPAddress := ip;
               user.LoginAttempt_Success := success;
               user.LoginAttempt_AttemptedAt := now |} ]) d.

(** The header that carries a token. *)
Definition bearer (tokenText : string) : string := "Bearer " +:+ tokenText.

(** The replies of [POST /auth/logout] and of the protected route. *)
Definition logged_out : auth.Response string :=
  {| auth.status := 200; auth.body := auth.Success "Logged out successfully" |}.

Definition unauthorized {A} (code message : string) : auth.Response A :=
  {| auth.status := 401; auth.body := auth.Failure code message |}.

Definition internal_error {A} : auth.Response A :=
  {| auth.status := 500; auth.body := auth.Failure "INTERNAL_ERROR" "Internal server error" |}.

(** What a refused password log-in replies and leaves in the key-value
    store: the outcome of the admission check and, when the check lets the
    request through or fails, of the record of the failure. *)
Definition refusal (s : auth.Service) (now : Z) (ip email : string) (c : redis.Client)
  : auth.Response auth.LoginResponse * redis.Client :=
  let email := auth.SanitizeEmail email in
  match auth.rateLimiter s with
  | None => (invalid_credentials, c)
  | Some l =>
      match ratelimit.CheckLoginAttempt l now email ip c with
      | (Ok (false, _, _), c1) => (invalid_credentials, c1)
      | (_, c1) =>
          (invalid_credentials, snd (ratelimit.RecordFailedAttempt l now email ip c1))
      end
  end.

(** The texts an expression matches. *)
Inductive matches : regexp.Regexp -> string -> Prop :=
  | matches_empty : matches regexp.EmptyMatch ""
  | matches_class p c : p c = true -> matches (regexp.CharClass p) (String c "")
  | matches_concat r s u v :
      matches r u -> matches s v -> matches (regexp.Concat r s) (u +:+ v)
  | matches_left r s u : matches r u -> matches (regexp.Alternate r s) u
  | matches_right r s u : matches s u -> matches (regexp.Alternate r s) u
  | matches_star_nil r : matches (regexp.Star r) ""
  | matches_star_cons r u v :
      matches r u -> matches (regexp.Star r) v -> matches (regexp.Star r) (u +:+ v).

(** All bytes of a text are in a class. *)
Fixpoint all_in (p : ascii -> bool) (s : string) : bool :=
  match s with
  | String c r => p c && all_in p r
  | EmptyString => true
  end.

(** The classes of an expression do not tell a capital letter from the
    small one. *)
Fixpoint case_blind (r : regexp.Regexp) : Prop :=
  match r with
  | regexp.NoMatch | regexp.EmptyMatch => True
  | regexp.CharClass p => forall c, p (auth.to_lower c) = p c
  | regexp.Concat r s | regexp.Alternate r s => case_blind r /\ case_blind s
  | regexp.Star r => case_blind r
  end.

(** The fields of the errors [ValidateLoginRequest] reports. *)
Definition reported_fields (req : auth.LoginRequest) : list string :=
  (if auth.IsValidEmail (auth.Email_ req) then [] else ["email"]) ++
  (if (String.length (auth.Password_ req) <? 3)%nat then ["password"] else []).

(** A client of the string-valued keys whose store is reachable. *)
Definition up_text (m : gmap string redis_text.entry) : redis_text.Client :=
  {| redis_text.entries := m; redis_text.net := reachable |}.
Arguments up_text : simpl never.

(** The reply to a state that is not, or no longer, in the store. *)
Definition invalid_state : error :=
  Errorf "invalid state: %w" [AErr (Errorf "invalid or expired state token" [])].

(** The value of a hexadecimal digit, and the bytes a text of such digits
    stands for. *)
Definition fromHexChar (c : ascii) : option nat :=
  let n := Ascii.nat_of_ascii c in
  if ((48 <=? n) && (n <=? 57))%nat then Some (n - 48)%nat
  else if ((97 <=? n) && (n <=? 102))%nat then Some (n - 87)%nat
  else None.

Fixpoint decode_hex (s : string) : option string :=
  match s with
  | EmptyString => Some EmptyString
  | String hi (String lo rest) =>
      match fromHexChar hi, fromHexChar lo, decode_hex rest with
      | Some a, Some b, Some bytes => Some (String (Ascii.ascii_of_nat (16 * a + b)) bytes)
      | _, _, _ => None
      end
  | String _ EmptyString => None
  end.

(** A text of ASCII bytes: no byte is 0x80 or above. *)
Fixpoint ascii_text (s : string) : bool :=
  match s with
  | String c r => (Ascii.nat_of_ascii c <? 128)%nat && ascii_text r
  | EmptyString => true
  end.

(** A text with no white space at either end. *)
Fixpoint last_byte (c : ascii) (s : string) : ascii :=
  match s with
  | String c' r => last_byte c' r
  | EmptyString => c
  end.

Definition trimmed (s : string) : bool :=
  match s with
  | String c r => negb (auth.is_space c) && negb (auth.is_space (last_byte c r))
  | EmptyString => true
  end.


(** The window in which failures are counted, as the store keeps it: whole
    seconds. *)
Definition counting_window (l : ratelimit.Limiter) : Z :=
  redis.formatSec (ratelimit.window l) * time.Second.

(** Half a second: a key with less than this to live has a TTL of zero. *)
Definition half_second : Z := 500 * time.Millisecond.

(** The TTL of the lockout marker of a pair is not positive: there is no
    marker, or it has no deadline, or less than half a second to live. *)
Definition marker_passes (email ip : string) (now : Z) (m : gmap string redis.entry) : Prop :=
  match redis.lookup now (ratelimit.LoginLockoutKey email ip) m with
  | None => True
  | Some e =>
      match redis.deadline e with
      | None => True
      | Some d => d - now < half_second
      end
  end.

(** The registered claims are in force at [now]: not expired, and not before
    their time. *)
Definition in_force (now : Z) (rc : RegisteredClaims) : Prop :=
  (forall exp, ExpiresAt rc = Some exp -> now < jwt.Time exp) /\
  (forall nbf, NotBefore rc = Some nbf -> jwt.Time nbf <= now).

(** A stand-in for the rule [email] of the binder, for evaluating the
    definitions on concrete requests: the expression of validator.go on the
    address as it is posted. *)
Definition sample_email_rule (email : string) : bool :=
  regexp.MatchString auth.emailRegex email.

(** * Properties *)

(** ** The text of errors, on examples *)

Example Duration_String_examples :
  Duration_String (15 * time.Minute) = "15m0s" /\
  Duration_String (6 * time.Hour) = "6h0m0s" /\
  Duration_String (42 * time.Second) = "42s" /\
  Duration_String (1500 * time.Millisecond) = "1.5s" /\
  Duration_String 1500000 = "1.5ms" /\
  Duration_String 0 = "0s" /\
  Duration_String (- (61 * time.Second)) = "-1m1s".
Proof. vm_compute. repeat split; reflexivity. Qed.

Example Error_examples :
  Error (Errorf "too many failed attempts, locked out for %v"
           [ADuration (time.Round (14 * time.Minute + 400 * time.Millisecond) time.Second)])
    = "too many failed attempts, locked out for 14m0s" /\
  Error (Errorf "failed to check blacklist: %w"
           [AErr (Errorf "failed to check blacklist: %w" [AErr (ErrConn "redis")])])
    = "failed to check blacklist: failed to check blacklist: redis: connection refused" /\
  Error (Errorf "unsupported user type for Google OAuth: %s" [AStr "Parent"])
    = "unsupported user type for Google OAuth: Parent".
Proof. vm_compute. repeat split; reflexivity. Qed.

Lemma keys_distinct email ip email' ip' :
  ratelimit.LoginAttemptKey email ip <> ratelimit.LoginLockoutKey email' ip'.
Proof.
  unfold ratelimit.LoginAttemptKey, ratelimit.LoginLockoutKey.
  intros H. injection H. intros. discriminate.
Qed.

Lemma wrap_int_id z : min_int <= z <= max_int -> wrap_int z = z.
Proof. unfold wrap_int, min_int, max_int. intros. rewrite Z.mod_small; lia. Qed.

Lemma lookup_None_later t t' k (m : gmap string redis.entry) :
  t <= t' -> redis.lookup t k m = None -> redis.lookup t' k m = None.
Proof.
  unfold redis.lookup, redis.live. intros Ht.
  destruct (m !! k) as [e|]; [|done].
  destruct (redis.deadline e) as [d|]; [|done].
  destruct (Z.ltb_spec t d); [done|].
  destruct (Z.ltb_spec t' d); [lia|done].
Qed.

(** ** Whole seconds *)

Lemma floor_spec x a : 0 < a -> a * (x / a) <= x < a * (x / a) + a.
Proof.
  intros Ha. pose proof (Z.div_mod x a ltac:(lia)). pose proof (Z.mod_pos_bound x a Ha). lia.
Qed.

Lemma seconds_left_spec r :
  exists q, redis.seconds_left r = q * time.Second /\
            q * time.Second <= r + half_second < q * time.Second + time.Second.
Proof.
  unfold redis.seconds_left, half_second.
  exists ((r / time.Millisecond + 500) / 1000). split; [reflexivity|].
  pose proof (floor_spec r time.Millisecond ltac:(reflexivity)).
  pose proof (floor_spec (r / time.Millisecond + 500) 1000 ltac:(reflexivity)).
  unfold time.Second, time.Millisecond in *. lia.
Qed.

Lemma seconds_left_pos r : half_second <= r -> 0 < redis.seconds_left r.
Proof.
  destruct (seconds_left_spec r) as (q & -> & Hq). unfold half_second, time.Second,
    time.Millisecond in *. lia.
Qed.

Lemma seconds_left_none r : r < half_second -> redis.seconds_left r <= 0.
Proof.
  destruct (seconds_left_spec r) as (q & -> & Hq). unfold half_second, time.Second,
    time.Millisecond in *. lia.
Qed.

Lemma seconds_left_near r :
  r - half_second < redis.seconds_left r <= r + half_second.
Proof.
  destruct (seconds_left_spec r) as (q & -> & Hq). unfold half_second, time.Second,
    time.Millisecond in *. lia.
Qed.

Lemma seconds_left_le r k : r <= k * time.Second -> redis.seconds_left r <= k * time.Second.
Proof.
  destruct (seconds_left_spec r) as (q & -> & Hq). unfold half_second, time.Second,
    time.Millisecond in *. lia.
Qed.

Lemma seconds_left_whole k : redis.seconds_left (k * time.Second) = k * time.Second.
Proof.
  destruct (seconds_left_spec (k * time.Second)) as (q & -> & Hq). unfold half_second,
    time.Second, time.Millisecond in *. lia.
Qed.

Lemma formatSec_pos d : 0 < d -> 0 < redis.formatSec d.
Proof.
  intros Hd. unfold redis.formatSec.
  destruct (Z.ltb_spec 0 d); [|lia]. destruct (Z.ltb_spec d time.Second); cbn; [lia|].
  apply Z.quot_str_pos. unfold time.Second in *. lia.
Qed.

Lemma formatSec_whole k : 0 < k -> redis.formatSec (k * time.Second) = k.
Proof.
  intros Hk. unfold redis.formatSec.
  destruct (Z.ltb_spec (k * time.Second) time.Second); [unfold time.Second in *; lia|].
  rewrite andb_false_r. apply Z.quot_mul. discriminate.
Qed.

Lemma counting_window_pos l : 0 < ratelimit.window l -> 0 < counting_window l.
Proof.
  intros HW. unfold counting_window. pose proof (formatSec_pos _ HW).
  unfold time.Second. lia.
Qed.

(** A window of whole seconds is kept as it is. *)
Lemma counting_window_whole l k :
  0 < k -> ratelimit.window l = k * time.Second -> counting_window l = ratelimit.window l.
Proof. intros Hk HW. unfold counting_window. rewrite HW, formatSec_whole by done. reflexivity. Qed.

Lemma call_up {A} (f : gmap string redis.entry -> result A * gmap string redis.entry) m :
  redis.call f (up m) = (fst (f m), up (snd (f m))).
Proof. unfold redis.call, up. cbn. destruct (f m); reflexivity. Qed.

Section limiter.
Variable l : ratelimit.Limiter.
Variables email ip : string.

Lemma check_locked m now e d :
  m !! ratelimit.LoginLockoutKey email ip = Some e ->
  redis.deadline e = Some d -> half_second <= d - now ->
  ratelimit.CheckLoginAttempt l now email ip (up m) =
    (Ok (false, 0, redis.seconds_left (d - now)), up m).
Proof.
  intros Hm Hd Hlt.
  unfold ratelimit.CheckLoginAttempt, ratelimit.unless_Nil, bind, attempt, redis.TTL.
  rewrite call_up. unfold redis.lookup, redis.live. rewrite Hm, Hd.
  destruct (Z.ltb_spec now d); [|unfold half_second, time.Millisecond in *; lia].
  cbn. rewrite Hd. cbn. pose proof (seconds_left_pos _ Hlt).
  destruct (Z.ltb_spec 0 (redis.seconds_left (d - now))); [|lia]. reflexivity.
Qed.

Lemma TTL_passes m now :
  marker_passes email ip now m ->
  exists ttl, redis.TTL now (ratelimit.LoginLockoutKey email ip) (up m) = (Ok ttl, up m) /\
              ttl <= 0.
Proof.
  unfold marker_passes, redis.TTL. rewrite call_up. intros Hp.
  destruct (redis.lookup now (ratelimit.LoginLockoutKey email ip) m) as [e|]; cbn;
    [destruct (redis.deadline e) as [d|]|]; cbn; eexists; (split; [reflexivity|]);
    [apply seconds_left_none; exact Hp | lia | lia].
Qed.

Lemma TTL_denies m now ttl c :
  redis.TTL now (ratelimit.LoginLockoutKey email ip) (up m) = (Ok ttl, c) -> 0 < ttl ->
  exists e d, m !! ratelimit.LoginLockoutKey email ip = Some e /\
              redis.deadline e = Some d /\ half_second <= d - now /\
              ttl = redis.seconds_left (d - now) /\ c = up m.
Proof.
  unfold redis.TTL. rewrite call_up. unfold redis.lookup.
  destruct (m !! ratelimit.LoginLockoutKey email ip) as [e|]; [|cbn; intros [= <- <-]; lia].
  destruct (redis.live now e); [|cbn; intros [= <- <-]; lia].
  destruct (redis.deadline e) as [d|] eqn:Hd; cbn; intros [= <- <-] Hpos; [|lia].
  exists e, d. repeat split; try done.
  destruct (Z.le_gt_cases half_second (d - now)) as [|Hlt]; [done|].
  pose proof (seconds_left_none _ Hlt). lia.
Qed.

Lemma check_locks m now e :
  0 < ratelimit.lockoutDuration l ->
  0 <= ratelimit.maxAttempts l ->
  redis.lookup now (ratelimit.LoginLockoutKey email ip) m = None ->
  redis.lookup now (ratelimit.LoginAttemptKey email ip) m = Some e ->
  ratelimit.maxAttempts l <= redis.val e <= max_int ->
  ratelimit.CheckLoginAttempt l now email ip (up m) =
    (Ok (false, 0, ratelimit.lockoutDuration l),
     up (delete (ratelimit.LoginAttemptKey email ip)
           (<[ratelimit.LoginLockoutKey email ip :=
                {| redis.val := 1;
                   redis.deadline := Some (now + ratelimit.lockoutDuration l) |}]> m))).
Proof.
  intros HL Hmax Hlk Hak Hcount.
  unfold ratelimit.CheckLoginAttempt, ratelimit.unless_Nil, bind, attempt, wrap,
    redis.TTL, redis.Get_Int, redis.Set_, redis.Del.
  rewrite call_up, Hlk. cbn. rewrite call_up, Hak. cbn.
  assert (Hin : in_int (redis.val e) = true).
  { unfold in_int, min_int, max_int in *. apply andb_true_iff; split; apply Z.leb_le; lia. }
  rewrite Hin. cbn.
  rewrite wrap_int_id by (unfold min_int, max_int in *; lia).
  destruct (Z.leb_spec (ratelimit.maxAttempts l - redis.val e) 0); [|lia].
  rewrite call_up. cbn. rewrite call_up. cbn.
  destruct (Z.ltb_spec 0 (ratelimit.lockoutDuration l)); [|lia]. reflexivity.
Qed.

Lemma TTL_cases m now :
  exists ttl, redis.TTL now (ratelimit.LoginLockoutKey email ip) (up m) = (Ok ttl, up m) /\
              (0 < ttl \/ (ttl <= 0 /\ marker_passes email ip now m)).
Proof.
  unfold marker_passes, redis.TTL. rewrite call_up.
  destruct (redis.lookup now (ratelimit.LoginLockoutKey email ip) m) as [e|]; cbn;
    [destruct (redis.deadline e) as [d|]|]; cbn; eexists; (split; [reflexivity|]);
    [| right; split; [lia | exact I] ..].
  destruct (Z.le_gt_cases half_second (d - now)) as [Hge|Hlt].
  - left. apply seconds_left_pos. exact Hge.
  - right. split; [apply seconds_left_none; exact Hlt | exact Hlt].
Qed.

Lemma check_passes m now count :
  marker_passes email ip now m ->
  match redis.lookup now (ratelimit.LoginAttemptKey email ip) m with
  | Some e => redis.val e = count
  | None => count = 0
  end ->
  0 <= count < ratelimit.maxAttempts l -> ratelimit.maxAttempts l <= max_int ->
  ratelimit.CheckLoginAttempt l now email ip (up m) =
    (Ok (true, ratelimit.maxAttempts l - count, 0), up m).
Proof.
  intros Hlk Hak Hcount Hmax.
  destruct (TTL_passes m now Hlk) as (ttl & Ettl & Httl).
  unfold ratelimit.CheckLoginAttempt, ratelimit.unless_Nil, bind, attempt, wrap,
    redis.Get_Int.
  rewrite Ettl. cbn. destruct (Z.ltb_spec 0 ttl); [lia|]. rewrite call_up.
  assert (Hw : wrap_int (ratelimit.maxAttempts l - count) = ratelimit.maxAttempts l - count).
  { apply wrap_int_id. unfold min_int, max_int in *. lia. }
  destruct (redis.lookup now (ratelimit.LoginAttemptKey email ip) m) as [e|]; cbn.
  - subst count.
    assert (Hin : in_int (redis.val e) = true).
    { unfold in_int, min_int, max_int in *. apply andb_true_iff; split; apply Z.leb_le; lia. }
    rewrite Hin. cbn. rewrite Hw.
    destruct (Z.leb_spec (ratelimit.maxAttempts l - redis.val e) 0); [lia|]. reflexivity.
  - subst count. rewrite Hw.
    destruct (Z.leb_spec (ratelimit.maxAttempts l - 0) 0); [lia|]. reflexivity.
Qed.

Lemma check_allows m now count :
  redis.lookup now (ratelimit.LoginLockoutKey email ip) m = None ->
  match redis.lookup now (ratelimit.LoginAttemptKey email ip) m with
  | Some e => redis.val e = count
  | None => count = 0
  end ->
  0 <= count < ratelimit.maxAttempts l -> ratelimit.maxAttempts l <= max_int ->
  ratelimit.CheckLoginAttempt l now email ip (up m) =
    (Ok (true, ratelimit.maxAttempts l - count, 0), up m).
Proof.
  intros Hlk. apply check_passes. unfold marker_passes. rewrite Hlk. exact I.
Qed.

Lemma record_first m now :
  0 < ratelimit.window l ->
  redis.lookup now (ratelimit.LoginAttemptKey email ip) m = None ->
  ratelimit.RecordFailedAttempt l now email ip (up m) =
    (Ok tt, up (<[ratelimit.LoginAttemptKey email ip :=
                   {| redis.val := 1;
                      redis.deadline := Some (now + counting_window l) |}]> m)).
Proof.
  intros HW Hak.
  unfold ratelimit.RecordFailedAttempt, bind, wrap, redis.Incr, redis.Expire.
  rewrite call_up, Hak. cbn. rewrite call_up.
  unfold redis.lookup. rewrite lookup_insert_eq. cbn.
  pose proof (formatSec_pos _ HW).
  destruct (Z.ltb_spec 0 (redis.formatSec (ratelimit.window l))); [|lia]. cbn.
  rewrite insert_insert_eq. reflexivity.
Qed.

Lemma record_next m now k d :
  m !! ratelimit.LoginAttemptKey email ip = Some {| redis.val := k; redis.deadline := Some d |} ->
  now < d -> 1 <= k < max_int ->
  ratelimit.RecordFailedAttempt l now email ip (up m) =
    (Ok tt, up (<[ratelimit.LoginAttemptKey email ip :=
                   {| redis.val := k + 1; redis.deadline := Some d |}]> m)).
Proof.
  intros Hak Hlive Hk.
  unfold ratelimit.RecordFailedAttempt, bind, wrap, redis.Incr.
  rewrite call_up. unfold redis.lookup, redis.live. rewrite Hak. cbn.
  destruct (Z.ltb_spec now d); [|lia].
  assert (Hin : in_int k = true).
  { unfold in_int, min_int, max_int in *. apply andb_true_iff; split; apply Z.leb_le; lia. }
  cbn [redis.val redis.deadline].
  rewrite Hin. destruct (Z.ltb_spec k max_int); [|lia]. cbn.
  destruct (Z.eqb_spec (k + 1) 1); [lia|]. reflexivity.
Qed.

Lemma record_failures_next ts : forall m k d,
  m !! ratelimit.LoginAttemptKey email ip = Some {| redis.val := k; redis.deadline := Some d |} ->
  Forall (fun t => t < d) ts -> 1 <= k -> k + Z.of_nat (length ts) <= max_int ->
  record_failures l email ip ts (up m) =
    up (<[ratelimit.LoginAttemptKey email ip :=
            {| redis.val := k + Z.of_nat (length ts); redis.deadline := Some d |}]> m).
Proof.
  induction ts as [|t ts IH]; intros m k d Hak Hts Hk Hmax.
  - cbn. rewrite Z.add_0_r. rewrite insert_id; done.
  - cbn [record_failures]. apply Forall_cons in Hts as [Ht Hts].
    cbn [length] in Hmax. rewrite Nat2Z.inj_succ in Hmax.
    rewrite (record_next m t k d) by (auto; lia). cbn [snd].
    rewrite (IH _ (k + 1) d); [| apply lookup_insert_eq | done | lia | lia].
    rewrite insert_insert_eq. do 3 f_equal. cbn [length]. lia.
Qed.

Lemma record_failures_first t1 ts m :
  0 < ratelimit.window l ->
  redis.lookup t1 (ratelimit.LoginAttemptKey email ip) m = None ->
  Forall (fun t => t < t1 + counting_window l) ts ->
  1 + Z.of_nat (length ts) <= max_int ->
  record_failures l email ip (t1 :: ts) (up m) =
    up (<[ratelimit.LoginAttemptKey email ip :=
            {| redis.val := 1 + Z.of_nat (length ts);
               redis.deadline := Some (t1 + counting_window l) |}]> m).
Proof.
  intros HW Hak Hts Hmax. cbn [record_failures].
  rewrite record_first by done. cbn [snd].
  rewrite (record_failures_next ts _ 1 (t1 + counting_window l));
    [| apply lookup_insert_eq | done | lia | lia].
  rewrite insert_insert_eq. reflexivity.
Qed.
End limiter.

(** ** The counter and the lockout marker *)

Lemma same_pair_keys e ip e' ip' :
  ratelimit.LoginAttemptKey e ip = ratelimit.LoginAttemptKey e' ip' <->
  ratelimit.LoginLockoutKey e ip = ratelimit.LoginLockoutKey e' ip'.
Proof.
  unfold ratelimit.LoginAttemptKey, ratelimit.LoginLockoutKey.
  split; intros H; injection H as H;
    change (ip +:+ ":" +:+ e = ip' +:+ ":" +:+ e') in H; rewrite H; reflexivity.
Qed.

Lemma redis_lookup_insert_ne now k k' e (m : gmap string redis.entry) :
  k <> k' -> redis.lookup now k' (<[k := e]> m) = redis.lookup now k' m.
Proof. intros. unfold redis.lookup. rewrite lookup_insert_ne by done. reflexivity. Qed.

Lemma redis_lookup_delete_ne now k k' (m : gmap string redis.entry) :
  k <> k' -> redis.lookup now k' (delete k m) = redis.lookup now k' m.
Proof. intros. unfold redis.lookup. rewrite lookup_delete_ne by done. reflexivity. Qed.

Lemma redis_lookup_delete_eq now k (m : gmap string redis.entry) :
  redis.lookup now k (delete k m) = None.
Proof. unfold redis.lookup. rewrite lookup_delete_eq. reflexivity. Qed.

(** What a round trip can leave behind. *)
Lemma call_cases {A} (f : gmap string redis.entry -> result A * gmap string redis.entry) c :
  (exists n, redis.call f c = (Err (ErrConn "redis"), {| redis.entries := redis.entries c; redis.net := n |}))
  \/ (exists n, redis.call f c =
        (fst (f (redis.entries c)), {| redis.entries := snd (f (redis.entries c)); redis.net := n |})).
Proof.
  unfold redis.call. destruct (next_call (redis.net c)) as [[] n]; [left | right]; exists n.
  - reflexivity.
  - destruct (f (redis.entries c)); reflexivity.
Qed.

Section pairs.
Variables (email ip email' ip' : string).

Abbreviation ak := (ratelimit.LoginAttemptKey email ip).
Abbreviation lk := (ratelimit.LoginLockoutKey email ip).

(** Changing the counter of a pair that is not locked. *)
Lemma coexist_counter_changed now c (m' : gmap string redis.entry) n :
  coexist now email' ip' c = false ->
  redis.lookup now lk (redis.entries c) = None ->
  (forall k, k <> ak -> m' !! k = redis.entries c !! k) ->
  coexist now email' ip' {| redis.entries := m'; redis.net := n |} = false.
Proof.
  intros Hinv Hlk Hm'. unfold coexist in *. cbn [redis.entries].
  destruct (decide (ratelimit.LoginAttemptKey email' ip' = ak)) as [Heq|Hne].
  - assert (Hl : ratelimit.LoginLockoutKey email' ip' = lk) by (apply same_pair_keys; done).
    rewrite Hl. unfold redis.lookup at 1. rewrite Hm' by (apply not_eq_sym, keys_distinct).
    unfold redis.lookup in Hlk. rewrite Hlk. reflexivity.
  - unfold redis.lookup in *.
    rewrite (Hm' (ratelimit.LoginLockoutKey email' ip'))
      by (auto using not_eq_sym, keys_distinct).
    rewrite (Hm' (ratelimit.LoginAttemptKey email' ip')) by done.
    done.
Qed.

(** Removing the counter of a pair, whatever happens to its marker. *)
Lemma coexist_counter_removed now c (m' : gmap string redis.entry) n :
  coexist now email' ip' c = false ->
  m' !! ak = None ->
  (forall k, k <> ak -> k <> lk -> m' !! k = redis.entries c !! k) ->
  coexist now email' ip' {| redis.entries := m'; redis.net := n |} = false.
Proof.
  intros Hinv Hak Hm'. unfold coexist in *. cbn [redis.entries].
  destruct (decide (ratelimit.LoginAttemptKey email' ip' = ak)) as [Heq|Hne].
  - rewrite Heq. unfold redis.lookup at 2. rewrite Hak.
    destruct (redis.lookup now (ratelimit.LoginLockoutKey email' ip') m'); reflexivity.
  - assert (Hl : ratelimit.LoginLockoutKey email' ip' <> lk).
    { intros Hl. apply Hne. apply same_pair_keys. done. }
    unfold redis.lookup in *.
    rewrite (Hm' (ratelimit.LoginLockoutKey email' ip'))
      by (auto using not_eq_sym, keys_distinct).
    rewrite (Hm' (ratelimit.LoginAttemptKey email' ip'))
      by (auto using keys_distinct).
    done.
Qed.
End pairs.

Lemma coexist_entries now email ip c c' :
  redis.entries c' = redis.entries c -> coexist now email ip c' = coexist now email ip c.
Proof. unfold coexist. intros ->. reflexivity. Qed.

Lemma coexist_later t t' email ip c :
  t <= t' -> coexist t email ip c = false -> coexist t' email ip c = false.
Proof.
  unfold coexist. intros Ht.
  destruct (redis.lookup t (ratelimit.LoginLockoutKey email ip) (redis.entries c)) eqn:Hl.
  - destruct (redis.lookup t (ratelimit.LoginAttemptKey email ip) (redis.entries c)) eqn:Ha; [done|].
    intros _. rewrite (lookup_None_later t t' _ _ Ht Ha).
    destruct (redis.lookup t' _ _); reflexivity.
  - intros _. rewrite (lookup_None_later t t' _ _ Ht Hl). reflexivity.
Qed.

Section preservation.
Variables (l : ratelimit.Limiter) (now : Z) (email ip email' ip' : string).

Lemma RecordSuccessfulAttempt_preserves c :
  coexist now email' ip' c = false ->
  coexist now email' ip' (snd (ratelimit.RecordSuccessfulAttempt l now email ip c)) = false.
Proof.
  intros Hinv. unfold ratelimit.RecordSuccessfulAttempt, wrap, redis.Del.
  destruct (call_cases (fun m => (Ok tt, foldr delete m [ratelimit.LoginAttemptKey email ip])) c)
    as [[n ->] | [n ->]]; cbn.
  - rewrite <- Hinv. apply coexist_entries. reflexivity.
  - apply (coexist_counter_removed email ip email' ip' now c); [done | apply lookup_delete_eq |].
    intros k Hk _. apply lookup_delete_ne. done.
Qed.

Lemma ClearLockout_preserves c :
  coexist now email' ip' c = false ->
  coexist now email' ip' (snd (ratelimit.ClearLockout l now email ip c)) = false.
Proof.
  intros Hinv. unfold ratelimit.ClearLockout, wrap, redis.Del.
  destruct (call_cases (fun m => (Ok tt, foldr delete m [ratelimit.LoginLockoutKey email ip;
                                     ratelimit.LoginAttemptKey email ip])) c)
    as [[n ->] | [n ->]]; cbn.
  - rewrite <- Hinv. apply coexist_entries. reflexivity.
  - apply (coexist_counter_removed email ip email' ip' now c); [done | |].
    + rewrite lookup_delete_ne by (apply not_eq_sym, keys_distinct). apply lookup_delete_eq.
    + intros k Hk Hk'. rewrite !lookup_delete_ne by done. reflexivity.
Qed.

Lemma RecordFailedAttempt_entries c k :
  k <> ratelimit.LoginAttemptKey email ip ->
  redis.entries (snd (ratelimit.RecordFailedAttempt l now email ip c)) !! k
    = redis.entries c !! k.
Proof.
  assert (Hgoal : forall r c1,
    ratelimit.RecordFailedAttempt l now email ip c = (r, c1) ->
    forall k, k <> ratelimit.LoginAttemptKey email ip ->
              redis.entries c1 !! k = redis.entries c !! k).
  { unfold ratelimit.RecordFailedAttempt, bind, wrap, redis.Incr, redis.Expire.
    intros r c1.
    match goal with |- context [redis.call ?f c] =>
      destruct (call_cases f c) as [[n ->] | [n ->]] end; cbn [redis.entries].
    - intros [= <- <-] k' Hk. reflexivity.
    - set (m1 := snd _). assert (Hm1 : forall k, k <> ratelimit.LoginAttemptKey email ip ->
                                            m1 !! k = redis.entries c !! k).
      { intros k' Hk. subst m1.
        destruct (redis.lookup now (ratelimit.LoginAttemptKey email ip) (redis.entries c))
          as [e|]; cbn.
        - destruct (in_int (redis.val e) && (redis.val e <? max_int)); cbn;
            [apply lookup_insert_ne; done | reflexivity].
        - apply lookup_insert_ne; done. }
      destruct (fst _) as [count|e]; [|intros [= <- <-]; exact Hm1].
      destruct (count =? 1); [|intros [= <- <-]; exact Hm1].
      match goal with |- context [redis.call ?f ?c'] =>
        destruct (call_cases f c') as [[n' ->] | [n' ->]] end; cbn [redis.entries].
      + intros [= <- <-]. exact Hm1.
      + destruct (redis.lookup now (ratelimit.LoginAttemptKey email ip) m1) as [e|]; cbn.
        * destruct (0 <? redis.formatSec (ratelimit.window l)); cbn;
            intros [= <- <-] k' Hk; cbn.
          -- rewrite lookup_insert_ne by done. auto.
          -- rewrite lookup_delete_ne by done. auto.
        * intros [= <- <-]. exact Hm1. }
  intros Hk.
  destruct (ratelimit.RecordFailedAttempt l now email ip c) as [r c1] eqn:E. cbn [snd].
  exact (Hgoal r c1 eq_refl k Hk).
Qed.

(** The record of a failure counted against a marker that is gone at [t]. *)
Lemma RecordFailedAttempt_later t c :
  redis.lookup t (ratelimit.LoginLockoutKey email ip) (redis.entries c) = None ->
  coexist t email' ip' c = false ->
  coexist t email' ip' (snd (ratelimit.RecordFailedAttempt l now email ip c)) = false.
Proof.
  intros Hlk Hinv.
  destruct (ratelimit.RecordFailedAttempt l now email ip c) as [r [m1 n1]] eqn:E. cbn [snd].
  apply (coexist_counter_changed email ip email' ip' t c); [done | done |].
  intros k Hk. pose proof (RecordFailedAttempt_entries c k Hk) as H. rewrite E in H. exact H.
Qed.

Lemma RecordFailedAttempt_preserves c :
  redis.lookup now (ratelimit.LoginLockoutKey email ip) (redis.entries c) = None ->
  coexist now email' ip' c = false ->
  coexist now email' ip' (snd (ratelimit.RecordFailedAttempt l now email ip c)) = false.
Proof. apply RecordFailedAttempt_later. Qed.

(** The three ways of the admission check on a store that answers: denied
    for the marker; locked out now; passed on to the caller (allowed, or an
    error of the counter). *)
Lemma check_cases m :
  (exists ttl, 0 < ttl /\
     ratelimit.CheckLoginAttempt l now email ip (up m) = (Ok (false, 0, ttl), up m)) \/
  (exists e, marker_passes email ip now m /\
     ratelimit.CheckLoginAttempt l now email ip (up m) =
       (Ok (false, 0, ratelimit.lockoutDuration l),
        up (delete (ratelimit.LoginAttemptKey email ip)
              (<[ratelimit.LoginLockoutKey email ip := e]> m)))) \/
  (marker_passes email ip now m /\
   ((exists remaining, ratelimit.CheckLoginAttempt l now email ip (up m) =
                         (Ok (true, remaining, 0), up m)) \/
    (exists err, ratelimit.CheckLoginAttempt l now email ip (up m) = (Err err, up m)))).
Proof.
  destruct (TTL_cases email ip m now) as (ttl & Ettl & [Hpos | [Hle Hpass]]);
    unfold ratelimit.CheckLoginAttempt, ratelimit.unless_Nil, bind, attempt, wrap,
      redis.Get_Int, redis.Set_, redis.Del; rewrite Ettl; cbn.
  - left. exists ttl. destruct (Z.ltb_spec 0 ttl); [done | lia].
  - right. destruct (Z.ltb_spec 0 ttl); [lia|]. rewrite call_up.
    destruct (redis.lookup now (ratelimit.LoginAttemptKey email ip) m) as [e'|];
      [destruct (in_int (redis.val e'))|]; cbn; [| right; eauto 6 |].
    all: destruct (wrap_int _ <=? 0); cbn; [|right; eauto 6].
    all: rewrite call_up; cbn; rewrite call_up; cbn; left; eauto.
Qed.

Lemma check_entries m :
  exists r m', ratelimit.CheckLoginAttempt l now email ip (up m) = (r, up m') /\
    (m' = m \/ exists e, m' = delete (ratelimit.LoginAttemptKey email ip)
                              (<[ratelimit.LoginLockoutKey email ip := e]> m)).
Proof.
  destruct (check_cases m) as [(ttl & _ & ->) | [(e & _ & ->) | [_ [[r ->] | [err ->]]]]];
    eauto 8.
Qed.

Lemma CheckLoginAttempt_preserves m :
  coexist now email' ip' (up m) = false ->
  coexist now email' ip' (snd (ratelimit.CheckLoginAttempt l now email ip (up m))) = false.
Proof.
  intros Hinv. destruct (check_entries m) as (r & m' & -> & [-> | [e ->]]); cbn [snd].
  - done.
  - apply (coexist_counter_removed email ip email' ip' now (up m)); [done | apply lookup_delete_eq |].
    intros k Hk Hk'. rewrite lookup_delete_ne, lookup_insert_ne by done. reflexivity.
Qed.
End preservation.

(** The record of a failure for a pair that is locked out creates the counter
    beside the marker. *)
Lemma RecordFailedAttempt_breaks_exclusion :
  let c := up {[ ratelimit.LoginLockoutKey "x@y.com" "10.0.0.1" :=
                   {| redis.val := 1; redis.deadline := Some (15 * time.Minute) |} ]} in
  coexist 0 "x@y.com" "10.0.0.1" c = false /\
  coexist 0 "x@y.com" "10.0.0.1"
    (snd (ratelimit.RecordFailedAttempt default_limiter 0 "x@y.com" "10.0.0.1" c)) = true.
Proof. vm_compute. split; reflexivity. Qed.

(** C4, as the code has it: with a positive lockout duration L and the
    store reachable, for every pair (email, client address).  When no lockout
    marker is alive and the counter has reached [maxAttempts], the admission
    check denies with L, leaves a marker that lives L and no counter.  A
    later check denies as long as the marker has half a second or more to
    live, with the remaining time in whole seconds, the nearest to the time
    that is left: above zero, and at most L when L is a whole number of
    seconds.  In the marker's last half second, and after it, the check
    allows the attempt again with all attempts left.  A check on any marker
    with half a second or more to live denies.  After as many recorded
    failures as [maxAttempts] (five by default), all within the window of the
    first, the next attempt is denied with L, and the one after it is denied
    when it comes half a second or more before the end of the lockout. *)
Theorem lockout_after_max_attempts (l : ratelimit.Limiter) (email ip : string) :
  0 < ratelimit.lockoutDuration l ->
  0 <= ratelimit.maxAttempts l ->
  (forall m now e,
     redis.lookup now (ratelimit.LoginLockoutKey email ip) m = None ->
     redis.lookup now (ratelimit.LoginAttemptKey email ip) m = Some e ->
     ratelimit.maxAttempts l <= redis.val e <= max_int ->
     exists m',
       ratelimit.CheckLoginAttempt l now email ip (up m)
         = (Ok (false, 0, ratelimit.lockoutDuration l), up m') /\
       redis.lookup now (ratelimit.LoginLockoutKey email ip) m'
         = Some {| redis.val := 1;
                   redis.deadline := Some (now + ratelimit.lockoutDuration l) |} /\
       redis.lookup now (ratelimit.LoginAttemptKey email ip) m' = None /\
       (forall t, now <= t -> t + half_second <= now + ratelimit.lockoutDuration l ->
          ratelimit.CheckLoginAttempt l t email ip (up m')
            = (Ok (false, 0, redis.seconds_left (now + ratelimit.lockoutDuration l - t)),
               up m') /\
          0 < redis.seconds_left (now + ratelimit.lockoutDuration l - t)
            <= ratelimit.lockoutDuration l + half_second) /\
       (forall k t, ratelimit.lockoutDuration l = k * time.Second -> now <= t ->
          redis.seconds_left (now + ratelimit.lockoutDuration l - t)
            <= ratelimit.lockoutDuration l) /\
       (forall t, 0 < ratelimit.maxAttempts l <= max_int ->
          now + ratelimit.lockoutDuration l < t + half_second ->
          ratelimit.CheckLoginAttempt l t email ip (up m')
            = (Ok (true, ratelimit.maxAttempts l, 0), up m'))) /\
  (forall m t e d,
     m !! ratelimit.LoginLockoutKey email ip = Some e ->
     redis.deadline e = Some d -> half_second <= d - t ->
     ratelimit.CheckLoginAttempt l t email ip (up m)
       = (Ok (false, 0, redis.seconds_left (d - t)), up m) /\
     0 < redis.seconds_left (d - t)) /\
  (forall m t1 ts t6 t7,
     0 < ratelimit.window l ->
     ratelimit.maxAttempts l = Z.of_nat (length (t1 :: ts)) ->
     ratelimit.maxAttempts l <= max_int ->
     redis.lookup t1 (ratelimit.LoginLockoutKey email ip) m = None ->
     redis.lookup t1 (ratelimit.LoginAttemptKey email ip) m = None ->
     Forall (fun t => t1 <= t < t1 + counting_window l) ts ->
     t1 <= t6 < t1 + counting_window l ->
     t6 <= t7 -> t7 + half_second <= t6 + ratelimit.lockoutDuration l ->
     exists c6 ttl,
       ratelimit.CheckLoginAttempt l t6 email ip (record_failures l email ip (t1 :: ts) (up m))
         = (Ok (false, 0, ratelimit.lockoutDuration l), c6) /\
       ratelimit.CheckLoginAttempt l t7 email ip c6 = (Ok (false, 0, ttl), c6) /\
       0 < ttl <= ratelimit.lockoutDuration l + half_second /\
       (forall k, ratelimit.lockoutDuration l = k * time.Second ->
                  ttl <= ratelimit.lockoutDuration l)).
Proof.
  intros HL Hmax.
  assert (Hlocks : forall m now e,
     redis.lookup now (ratelimit.LoginLockoutKey email ip) m = None ->
     redis.lookup now (ratelimit.LoginAttemptKey email ip) m = Some e ->
     ratelimit.maxAttempts l <= redis.val e <= max_int ->
     let m' := delete (ratelimit.LoginAttemptKey email ip)
                 (<[ratelimit.LoginLockoutKey email ip :=
                      {| redis.val := 1;
                         redis.deadline := Some (now + ratelimit.lockoutDuration l) |}]> m) in
     ratelimit.CheckLoginAttempt l now email ip (up m)
         = (Ok (false, 0, ratelimit.lockoutDuration l), up m') /\
     m' !! ratelimit.LoginLockoutKey email ip
       = Some {| redis.val := 1; redis.deadline := Some (now + ratelimit.lockoutDuration l) |}).
  { intros m now e Hlk Hak Hcount m'. split.
    - apply (check_locks l email ip m now e); assumption.
    - subst m'. rewrite lookup_delete_ne by apply keys_distinct. apply lookup_insert_eq. }
  assert (Hdenies : forall m t e d,
     m !! ratelimit.LoginLockoutKey email ip = Some e ->
     redis.deadline e = Some d -> half_second <= d - t ->
     ratelimit.CheckLoginAttempt l t email ip (up m)
       = (Ok (false, 0, redis.seconds_left (d - t)), up m) /\
     0 < redis.seconds_left (d - t)).
  { intros m t e d Hm Hd Ht. split; [|apply seconds_left_pos; exact Ht].
    apply (check_locked l email ip m t e d Hm Hd Ht). }
  split; [|split].
  - intros m now e Hlk Hak Hcount.
    destruct (Hlocks m now e Hlk Hak Hcount) as [Hcheck Hmarker].
    eexists. split; [exact Hcheck|]. split; [|split; [|split; [|split]]].
    + unfold redis.lookup, redis.live. rewrite Hmarker. cbn.
      destruct (Z.ltb_spec now (now + ratelimit.lockoutDuration l)); [reflexivity | lia].
    + apply redis_lookup_delete_eq.
    + intros t Ht Ht'.
      destruct (Hdenies _ t _ _ Hmarker eq_refl ltac:(lia)) as [E Hpos].
      split; [exact E|]. split; [exact Hpos|].
      pose proof (seconds_left_near (now + ratelimit.lockoutDuration l - t)). lia.
    + intros k t Hk Ht. rewrite Hk at 2. apply seconds_left_le. lia.
    + intros t Hn Ht.
      replace (ratelimit.maxAttempts l) with (ratelimit.maxAttempts l - 0) at 1 by lia.
      apply check_passes; [| rewrite redis_lookup_delete_eq; reflexivity | lia | lia].
      unfold marker_passes, redis.lookup. rewrite Hmarker.
      destruct (redis.live t _); cbn; [lia | exact I].
  - exact Hdenies.
  - intros m t1 ts t6 t7 HW Hn Hn' Hlk Hak Hts Ht6 Ht67 Ht7.
    cbn [length] in Hn. rewrite Nat2Z.inj_succ in Hn.
    rewrite record_failures_first; [| done | done | | lia].
    2: { eapply Forall_impl; [exact Hts|]. cbn. intros; lia. }
    set (m5 := <[_ := _]> m).
    destruct (Hlocks m5 t6 {| redis.val := 1 + Z.of_nat (length ts);
                              redis.deadline := Some (t1 + counting_window l) |})
      as [Hcheck Hmarker].
    + subst m5. rewrite redis_lookup_insert_ne by apply keys_distinct.
      apply (lookup_None_later t1); [lia | done].
    + subst m5. unfold redis.lookup, redis.live. rewrite lookup_insert_eq. cbn.
      destruct (Z.ltb_spec t6 (t1 + counting_window l)); [done | lia].
    + cbn. lia.
    + destruct (Hdenies _ t7 _ _ Hmarker eq_refl ltac:(lia)) as [E Hpos].
      eexists _, _. split; [exact Hcheck|]. split; [exact E|]. split.
      * split; [exact Hpos|].
        pose proof (seconds_left_near (t6 + ratelimit.lockoutDuration l - t7)). lia.
      * intros k Hk. rewrite Hk at 2. apply seconds_left_le. lia.
Qed.

Lemma lockout_after_max_attempts_witness :
  exists c6 ttl,
    ratelimit.CheckLoginAttempt default_limiter (5 * time.Second) "x@y.com" "10.0.0.1"
      (record_failures default_limiter "x@y.com" "10.0.0.1"
         [0; time.Second; 2 * time.Second; 3 * time.Second; 4 * time.Second] (up ∅))
      = (Ok (false, 0, 15 * time.Minute), c6) /\
    ratelimit.CheckLoginAttempt default_limiter (6 * time.Second) "x@y.com" "10.0.0.1" c6
      = (Ok (false, 0, ttl), c6) /\
    0 < ttl <= 15 * time.Minute.
Proof.
  destruct (lockout_after_max_attempts default_limiter "x@y.com" "10.0.0.1")
    as (_ & _ & H); [vm_compute; reflexivity | vm_compute; discriminate |].
  destruct (H ∅ 0 [time.Second; 2 * time.Second; 3 * time.Second; 4 * time.Second]
              (5 * time.Second) (6 * time.Second))
    as (c6 & ttl & E6 & E7 & [Hpos _] & Hle).
  - vm_compute; reflexivity.
  - reflexivity.
  - vm_compute; discriminate.
  - reflexivity.
  - reflexivity.
  - repeat constructor; vm_compute; try reflexivity; discriminate.
  - vm_compute. split; [discriminate | reflexivity].
  - vm_compute. discriminate.
  - vm_compute. discriminate.
  - exists c6, ttl. split; [exact E6|]. split; [exact E7|]. split; [exact Hpos|].
    apply (Hle 900). reflexivity.
Defined.

(** The check follows the store's reply, which is in whole seconds.  After
    five failures the sixth attempt locks the pair out for 15 minutes; an
    attempt 400 ms before the end of the 15 minutes finds the marker in the
    store and is allowed, with all five attempts left.  And with a lockout of
    1.5 s the check that follows the locking one is denied with 2 s, more
    than the lockout lasts. *)
Lemma lockout_ends_half_a_second_early :
  let c5 := record_failures default_limiter "x@y.com" "10.0.0.1"
              [0; time.Second; 2 * time.Second; 3 * time.Second; 4 * time.Second] (up ∅) in
  let c6 := snd (ratelimit.CheckLoginAttempt default_limiter (5 * time.Second)
                   "x@y.com" "10.0.0.1" c5) in
  let t7 := 5 * time.Second + 15 * time.Minute - 400 * time.Millisecond in
  let l := ratelimit.NewLimiter (10 * time.Minute) 5 (1500 * time.Millisecond) in
  let m : gmap string redis.entry :=
    {[ ratelimit.LoginAttemptKey "x@y.com" "10.0.0.1" :=
         {| redis.val := 5; redis.deadline := Some (10 * time.Minute) |} ]} in
  let c := snd (ratelimit.CheckLoginAttempt l time.Second "x@y.com" "10.0.0.1" (up m)) in
  (fst (ratelimit.CheckLoginAttempt default_limiter (5 * time.Second) "x@y.com" "10.0.0.1" c5)
     = Ok (false, 0, 15 * time.Minute) /\
   redis.lookup t7 (ratelimit.LoginLockoutKey "x@y.com" "10.0.0.1") (redis.entries c6)
     = Some {| redis.val := 1; redis.deadline := Some (5 * time.Second + 15 * time.Minute) |} /\
   fst (ratelimit.CheckLoginAttempt default_limiter t7 "x@y.com" "10.0.0.1" c6)
     = Ok (true, 5, 0)) /\
  (fst (ratelimit.CheckLoginAttempt l time.Second "x@y.com" "10.0.0.1" (up m))
     = Ok (false, 0, 1500 * time.Millisecond) /\
   fst (redis.TTL time.Second (ratelimit.LoginLockoutKey "x@y.com" "10.0.0.1") c)
     = Ok (2 * time.Second) /\
   fst (ratelimit.CheckLoginAttempt l time.Second "x@y.com" "10.0.0.1" c)
     = Ok (false, 0, 2 * time.Second) /\
   ratelimit.lockoutDuration l < 2 * time.Second).
Proof. vm_compute. repeat split; reflexivity. Qed.

(** The marker is written before the counter is deleted, and a failed
    deletion is only logged: a store that drops that one call leaves both
    keys behind. *)
Lemma CheckLoginAttempt_failed_deletion :
  let c := {| redis.entries :=
                {[ ratelimit.LoginAttemptKey "x@y.com" "10.0.0.1" :=
                     {| redis.val := 5; redis.deadline := Some (10 * time.Minute) |} ]};
              redis.net := {| script := [false; false; false; true]; steady := false |} |} in
  coexist time.Second "x@y.com" "10.0.0.1" c = false /\
  fst (ratelimit.CheckLoginAttempt default_limiter time.Second "x@y.com" "10.0.0.1" c)
    = Ok (false, 0, 15 * time.Minute) /\
  coexist time.Second "x@y.com" "10.0.0.1"
    (snd (ratelimit.CheckLoginAttempt default_limiter time.Second "x@y.com" "10.0.0.1" c))
  = true.
Proof. vm_compute. repeat split; reflexivity. Qed.

(** ** Tokens *)

Lemma GetSigningMethod_hmac a name hash :
  jwt.GetSigningMethod a = Some (jwt.SigningMethodHMAC name hash) ->
  a = name /\ In (name, hash) hmac_methods.
Proof.
  unfold jwt.GetSigningMethod, jwt.signingMethods. cbn [find jwt.Alg
    jwt.SigningMethodHS256 jwt.SigningMethodHS384 jwt.SigningMethodHS512].
  repeat match goal with
  | |- context [String.eqb ?x a] =>
      destruct (String.eqb_spec x a); [subst a; intros [= <- <-] || intros [=] |]
  end; try (intros [=]); cbn; auto.
Qed.

Lemma GetSigningMethod_Alg a m : jwt.GetSigningMethod a = Some m -> jwt.Alg m = a.
Proof.
  unfold jwt.GetSigningMethod. intros H. apply find_some in H as [_ H].
  apply String.eqb_eq in H. exact H.
Qed.

Section validate.
Context `{Primitives}.
Variables (s : token.Service) (now : Z).

Lemma Validate_Ok tokenString claims :
  token.Validate s now tokenString = Ok claims ->
  exists h p signature name hash,
    tokenString = jwt.Compact h p signature /\ alg h = Some name /\
    In (name, hash) hmac_methods /\
    signature = hmac hash (token.secretKey s) (h, p) /\
    claims = jwt.toClaims p /\
    jwt.Validate now (Registered claims) = Ok tt.
Proof.
  unfold token.Validate, jwt.ParseWithClaims.
  destruct tokenString as [text | h p signature]; [discriminate|].
  destruct (alg h) as [a|] eqn:Ha; [|discriminate].
  destruct (jwt.GetSigningMethod a) as [method|] eqn:Hm; [|discriminate].
  destruct method as [name hash | | | | |]; cbn [token.keyFunc]; try discriminate.
  apply GetSigningMethod_hmac in Hm as [-> Hin].
  cbn [jwt.Verify].
  destruct (String.eqb_spec signature (hmac hash (token.secretKey s) (h, p)));
    [|discriminate].
  destruct (jwt.Validate now (Registered (jwt.toClaims p))) as [[]|] eqn:Hv; [|discriminate].
  intros [= <-]. exists h, p, signature, name, hash. auto 10.
Qed.
End validate.

Lemma Validate_rejects `{Primitives} (s : token.Service) (now : Z) h p signature :
  (forall name hash, alg h = Some name -> ~ In (name, hash) hmac_methods) ->
  exists e, token.Validate s now (jwt.Compact h p signature) = Err e.
Proof.
  intros Hno.
  destruct (token.Validate s now (jwt.Compact h p signature)) as [c|e] eqn:E; [|eauto].
  apply Validate_Ok in E as (h' & p' & sig' & name & hash & [= <- <- <-] & Ha & Hin & _).
  destruct (Hno name hash Ha Hin).
Qed.

Lemma jwt_Validate_in_force now rc : jwt.Validate now rc = Ok tt <-> in_force now rc.
Proof.
  unfold jwt.Validate, in_force, time.Before. split.
  - intros E. split.
    + intros exp He. rewrite He in E.
      destruct (Z.ltb_spec now (jwt.Time exp)); [done|]. cbn in E.
      destruct (NotBefore rc) as [nbf|]; [destruct (now <? jwt.Time nbf)|]; discriminate.
    + intros nbf Hn. rewrite Hn in E.
      destruct (Z.ltb_spec now (jwt.Time nbf)); [|lia].
      destruct (ExpiresAt rc) as [exp|]; [destruct (now <? jwt.Time exp)|]; discriminate.
  - intros [H1 H2].
    destruct (ExpiresAt rc) as [exp|].
    + specialize (H1 _ eq_refl). destruct (Z.ltb_spec now (jwt.Time exp)); [|lia]. cbn.
      destruct (NotBefore rc) as [nbf|]; [|reflexivity].
      specialize (H2 _ eq_refl). destruct (Z.ltb_spec now (jwt.Time nbf)); [lia | reflexivity].
    + destruct (NotBefore rc) as [nbf|]; [|reflexivity].
      specialize (H2 _ eq_refl). destruct (Z.ltb_spec now (jwt.Time nbf)); [lia | reflexivity].
Qed.

Lemma Validate_hmac `{Primitives} (s : token.Service) (now : Z) h p name hash :
  alg h = Some name -> In (name, hash) hmac_methods ->
  in_force now (Registered (jwt.toClaims p)) ->
  token.Validate s now (jwt.Compact h p (hmac hash (token.secretKey s) (h, p)))
    = Ok (jwt.toClaims p).
Proof.
  intros Ha Hin Hf. apply jwt_Validate_in_force in Hf.
  unfold token.Validate, jwt.ParseWithClaims. rewrite Ha.
  assert (Hm : jwt.GetSigningMethod name = Some (jwt.SigningMethodHMAC name hash)).
  { repeat (destruct Hin as [[= <- <-]|Hin]; [reflexivity|]). destruct Hin. }
  rewrite Hm. cbn [token.keyFunc jwt.Verify]. rewrite String.eqb_refl, Hf. reflexivity.
Qed.

(** C1, as the code has it: [Validate] accepts exactly the tokens whose
    header names one of the library's keyed-hash algorithms (HS256, HS384 or
    HS512), whose signature is the tag of that algorithm's hash under the
    access secret, and whose claims are in force; the claims returned are the
    decoded payload.  A token whose header names no algorithm, or any other
    algorithm (none, RS256, ES256, an unknown name), is rejected.  A token
    built as [Generate] builds its access token, under any of the three
    algorithms and the access secret, is accepted while its claims are in
    force. *)
Theorem Validate_accepts_only_hmac `{Primitives} (s : token.Service) (now : Z)
    (tokenString : jwt.TokenString) :
  (forall claims,
     token.Validate s now tokenString = Ok claims <->
     exists h p name hash,
       tokenString = jwt.Compact h p (hmac hash (token.secretKey s) (h, p)) /\
       alg h = Some name /\ In (name, hash) hmac_methods /\
       claims = jwt.toClaims p /\
       in_force now (Registered claims)) /\
  (forall h p signature,
     tokenString = jwt.Compact h p signature ->
     (forall name, alg h = Some name -> ~ In name ["HS256"; "HS384"; "HS512"]) ->
     exists e, token.Validate s now tokenString = Err e) /\
  (forall name hash c,
     In (name, hash) hmac_methods ->
     in_force now (Registered c) ->
     token.Validate s now (signed_with name hash (token.secretKey s) c) = Ok c).
Proof.
  split; [|split].
  - intros claims. split.
    + intros E.
      apply Validate_Ok in E as (h & p & sig & name & hash & -> & ? & ? & -> & ? & Hv).
      exists h, p, name, hash. apply jwt_Validate_in_force in Hv. auto 10.
    + intros (h & p & name & hash & -> & Ha & Hin & -> & Hf).
      apply (Validate_hmac s now h p name hash Ha Hin Hf).
  - intros h p signature -> Hno. apply Validate_rejects.
    intros name hash Ha Hin. apply (Hno name Ha).
    cbn in Hin. cbn. intuition congruence.
  - intros name hash c Hin Hf. unfold signed_with.
    apply (Validate_hmac s now {| alg := Some name; typ := "JWT" |} (OfClaims c) name hash);
      [reflexivity | exact Hin | exact Hf].
Qed.

Lemma Validate_accepts_only_hmac_witness :
  (exists e, @token.Validate sample_primitives sample_token_service 0
               (jwt.Compact {| alg := Some "none"; typ := "JWT" |} (OfClaims sample_claims) "")
             = Err e) /\
  (exists e, @token.Validate sample_primitives sample_token_service 0
               (jwt.Compact {| alg := Some "RS256"; typ := "JWT" |} (OfClaims sample_claims)
                  "signature")
             = Err e) /\
  @token.Validate sample_primitives sample_token_service 0
    (@signed_with sample_primitives "HS512" "SHA512" "access-secret" sample_claims)
  = Ok sample_claims.
Proof.
  split; [|split].
  - destruct (@Validate_accepts_only_hmac sample_primitives sample_token_service 0
                (jwt.Compact {| alg := Some "none"; typ := "JWT" |} (OfClaims sample_claims) ""))
      as (_ & Hreject & _).
    apply (Hreject _ _ _ eq_refl).
    intros name [= <-]. cbn. intuition discriminate.
  - destruct (@Validate_accepts_only_hmac sample_primitives sample_token_service 0
                (jwt.Compact {| alg := Some "RS256"; typ := "JWT" |} (OfClaims sample_claims)
                   "signature"))
      as (_ & Hreject & _).
    apply (Hreject _ _ _ eq_refl).
    intros name [= <-]. cbn. intuition discriminate.
  - destruct (@Validate_accepts_only_hmac sample_primitives sample_token_service 0
                (jwt.Malformed "")) as (_ & _ & Haccept).
    apply (Haccept "HS512" "SHA512" sample_claims).
    + cbn. auto.
    + apply jwt_Validate_in_force. vm_compute. reflexivity.
Defined.

(** A token under HS384 or HS512 with the tag of the access secret is
    accepted. *)
Lemma Validate_accepts_HS384 :
  @token.Validate sample_primitives sample_token_service 0
    (@signed_with sample_primitives "HS384" "SHA384" "access-secret" sample_claims)
  = Ok sample_claims.
Proof. vm_compute. reflexivity. Qed.

Lemma Validate_accepts_HS512 :
  @token.Validate sample_primitives sample_token_service 0
    (@signed_with sample_primitives "HS512" "SHA512" "access-secret" sample_claims)
  = Ok sample_claims.
Proof. vm_compute. reflexivity. Qed.

(** ** Round trip *)

Section roundtrip.
Context `{Primitives}.
Variables (s : token.Service) (now : Z) (jtis : string * string).
Variables (userID : Z) (boddleUID email name metaType : string) (metaID : Z).

Lemma Generate_Ok :
  token.Generate s now jtis userID boddleUID email name metaType metaID =
    Ok {| token.AccessToken :=
            signed_with "HS256" "SHA256" (token.secretKey s)
              (token.accessClaims s now (fst jtis) userID boddleUID email name metaType metaID);
          token.RefreshToken :=
            let h := {| alg := Some "HS256"; typ := "JWT" |} in
            let p := OfRegisteredClaims (token.refreshClaims s now (snd jtis) userID) in
            jwt.Compact h p (hmac "SHA256" (token.refreshSecretKey s) (h, p));
          token.ExpiresAt_ := now + token.accessTokenTTL s;
          token.TokenType := "Bearer" |}.
Proof. reflexivity. Qed.

Lemma Validate_signed (at_ : Z) c :
  jwt.Validate at_ (Registered c) = Ok tt ->
  token.Validate s at_ (signed_with "HS256" "SHA256" (token.secretKey s) c) = Ok c.
Proof.
  intros Hv. unfold token.Validate, signed_with, jwt.ParseWithClaims.
  cbn [alg]. change (jwt.GetSigningMethod "HS256") with (Some jwt.SigningMethodHS256).
  cbn [token.keyFunc jwt.SigningMethodHS256 jwt.Verify jwt.toClaims].
  rewrite String.eqb_refl. rewrite Hv. reflexivity.
Qed.
End roundtrip.

(** The claims of an access token are in force from the instant of issue
    until the second of the expiry. *)
Lemma accessClaims_in_force (s : token.Service) now later jti userID boddleUID email name
    metaType metaID :
  now <= later < (now + token.accessTokenTTL s) / time.Second * time.Second ->
  in_force later
    (Registered (token.accessClaims s now jti userID boddleUID email name metaType metaID)).
Proof.
  intros Hlater. unfold in_force, token.accessClaims, jwt.NewNumericDate, time.Add, jwt.Time,
    jwt.TimePrecision. cbn [Registered ExpiresAt NotBefore].
  split; intros ? [= <-]; [lia|].
  pose proof (floor_spec now time.Second ltac:(reflexivity)). lia.
Qed.

(** C5, as the code has it: for claim sets whose strings are valid UTF-8 and
    every configured access lifetime, [Generate] succeeds and validating its
    access token with the same service, at any instant from the instant of
    issue until the expiry, returns claims whose [user_id], [boddle_uid],
    [email], [name], [meta_type] and [meta_id] are the arguments of
    [Generate].  The dates of the token are whole seconds, [iat] the second
    of the issue and [exp] the second of the issue plus the lifetime: [exp]
    minus [iat] is the lifetime when that is a whole number of seconds, and
    less than a second away from it otherwise. *)
Theorem Generate_Validate_roundtrip `{Primitives} (s : token.Service)
    (now later : Z) (jtis : string * string)
    (userID : Z) (boddleUID email name metaType : string) (metaID : Z) :
  utf8.ValidString boddleUID = true -> utf8.ValidString email = true ->
  utf8.ValidString name = true -> utf8.ValidString metaType = true ->
  utf8.ValidString (fst jtis) = true ->
  let iat := now / time.Second in
  let exp := (now + token.accessTokenTTL s) / time.Second in
  exists pair,
    token.Generate s now jtis userID boddleUID email name metaType metaID = Ok pair /\
    (now <= later < jwt.Time exp ->
     exists claims,
       token.Validate s later (token.AccessToken pair) = Ok claims /\
       UserID claims = userID /\ BoddleUID claims = boddleUID /\ Email claims = email /\
       Name claims = name /\ MetaType claims = metaType /\ MetaID claims = metaID /\
       ID (Registered claims) = fst jtis /\
       ExpiresAt (Registered claims) = Some exp /\
       IssuedAt (Registered claims) = Some iat /\
       NotBefore (Registered claims) = Some iat) /\
    (forall T, token.accessTokenTTL s = T * time.Second -> exp - iat = T) /\
    token.accessTokenTTL s - time.Second < (exp - iat) * time.Second
      < token.accessTokenTTL s + time.Second.
Proof.
  intros _ _ _ _ _ iat exp. subst iat exp.
  eexists. split; [apply Generate_Ok|]. cbn [token.AccessToken]. split; [|split].
  - intros Hlater. unfold jwt.Time, jwt.TimePrecision in Hlater.
    exists (token.accessClaims s now (fst jtis) userID boddleUID email name metaType metaID).
    split; [|repeat split].
    apply Validate_signed, jwt_Validate_in_force, accessClaims_in_force. exact Hlater.
  - intros T HT. rewrite HT, Z.div_add by discriminate. lia.
  - pose proof (floor_spec now time.Second ltac:(reflexivity)).
    pose proof (floor_spec (now + token.accessTokenTTL s) time.Second ltac:(reflexivity)).
    unfold time.Second in *. lia.
Qed.

Lemma Generate_Validate_roundtrip_witness :
  exists pair claims,
    @token.Generate sample_primitives sample_token_service 1700000000123456789
      ("jti-1", "jti-2") 123 "1f1e" "t@example.com" "Test User" "Teacher" 456 = Ok pair /\
    @token.Validate sample_primitives sample_token_service 1700000001000000000
      (token.AccessToken pair) = Ok claims /\
    UserID claims = 123 /\ BoddleUID claims = "1f1e" /\ Email claims = "t@example.com" /\
    Name claims = "Test User" /\ MetaType claims = "Teacher" /\ MetaID claims = 456 /\
    ID (Registered claims) = "jti-1" /\
    ExpiresAt (Registered claims) = Some (1700000000 + 21600) /\
    IssuedAt (Registered claims) = Some 1700000000 /\
    NotBefore (Registered claims) = Some 1700000000.
Proof.
  destruct (@Generate_Validate_roundtrip sample_primitives sample_token_service
              1700000000123456789 1700000001000000000 ("jti-1", "jti-2")
              123 "1f1e" "t@example.com" "Test User" "Teacher" 456)
    as (pair & Hg & Hv & _); try reflexivity.
  destruct Hv as (claims & Hc); [vm_compute; split; [discriminate | reflexivity]|].
  exists pair, claims. split; [exact Hg | exact Hc].
Defined.

(** With a lifetime that is not a whole number of seconds the two dates are
    still whole seconds: a token issued at 0.6 s for 1.5 s is validated with
    [iat] 0 and [exp] 2, two seconds apart. *)
Lemma exp_minus_iat_fractional :
  let s := token.NewService "access-secret" "refresh-secret" (1500 * time.Millisecond)
             (720 * time.Hour) in
  exists pair claims,
    @token.Generate sample_primitives s (600 * time.Millisecond) ("jti-1", "jti-2")
      123 "1f1e" "t@example.com" "Test User" "Teacher" 456 = Ok pair /\
    @token.Validate sample_primitives s (600 * time.Millisecond) (token.AccessToken pair)
      = Ok claims /\
    ExpiresAt (Registered claims) = Some 2 /\ IssuedAt (Registered claims) = Some 0 /\
    (2 - 0) * time.Second <> token.accessTokenTTL s.
Proof. eexists _, _. vm_compute. repeat split; try reflexivity. discriminate. Qed.

(** ** Calls on a store that is down, and on a directory that is up *)

#[local] Arguments ratelimit.CheckLoginAttempt : simpl never.
#[local] Arguments ratelimit.RecordFailedAttempt : simpl never.
#[local] Arguments ratelimit.RecordSuccessfulAttempt : simpl never.
#[local] Arguments user.FindByEmail : simpl never.
#[local] Arguments user.FindByID : simpl never.
#[local] Arguments user.FindWithMeta : simpl never.
#[local] Arguments user.FindLoginToken : simpl never.
#[local] Arguments user.DeleteLoginToken : simpl never.
#[local] Arguments user.UpdateLastLoggedOn : simpl never.
#[local] Arguments user.RecordLoginAttempt : simpl never.
#[local] Arguments auth.issue : simpl never.
#[local] Arguments auth.VerifyPassword : simpl never.
#[local] Arguments auth.SanitizeEmail : simpl never.

Lemma call_down {A} (f : gmap string redis.entry -> result A * gmap string redis.entry) c :
  redis.net c = unreachable -> redis.call f c = (Err (ErrConn "redis"), c).
Proof. destruct c as [m n]. cbn. intros ->. reflexivity. Qed.

Lemma with_net_id d : user.with_net (user.net d) d = d.
Proof. destruct d. reflexivity. Qed.

Lemma finder_up {A} format (q : user.DB -> option A) d :
  user.net d = reachable -> user.finder format q d = (Ok (q d), d).
Proof.
  intros Hn. unfold user.finder, bind, attempt, user.GetContext. rewrite Hn. cbn.
  rewrite <- Hn, with_net_id. destruct (q d); reflexivity.
Qed.

Lemma ExecContext_up f d :
  user.net d = reachable -> user.net (f d) = reachable ->
  user.ExecContext f d = (Ok tt, f d).
Proof.
  intros Hn Hn'. unfold user.ExecContext. rewrite Hn. cbn.
  rewrite <- Hn', with_net_id. reflexivity.
Qed.

(** ** Fail-open and fail-closed *)

Lemma CheckLoginAttempt_down l now email ip c :
  redis.net c = unreachable ->
  ratelimit.CheckLoginAttempt l now email ip c =
    (Err (Errorf "failed to check lockout status: %w" [AErr (ErrConn "redis")]), c).
Proof.
  intros Hn. unfold ratelimit.CheckLoginAttempt, ratelimit.unless_Nil, bind, attempt, redis.TTL.
  rewrite call_down by done. reflexivity.
Qed.

(** C2, the blacklist: with the store unreachable, [ValidateToken] of a token
    that [Validate] accepts returns the error of the lookup, not the
    claims. *)
Theorem ValidateToken_store_unreachable `{Primitives} (s : auth.Service) (now : Z)
    (tokenString : jwt.TokenString) (claims : Claims) (w : auth.World) :
  token.Validate (auth.tokenService s) now tokenString = Ok claims ->
  redis.net (auth.rdb w) = unreachable ->
  auth.ValidateToken s now tokenString w =
    (Err (Errorf "failed to check blacklist: %w"
            [AErr (Errorf "failed to check blacklist: %w" [AErr (ErrConn "redis")])]), w).
Proof.
  intros Hv Hn. unfold auth.ValidateToken, bind, wrap, auth.lift. rewrite Hv. cbn.
  unfold auth.onRedis, zoom, token.IsBlacklisted, bind, wrap, redis.Exists.
  rewrite call_down by done. destruct w. reflexivity.
Qed.

Lemma ValidateToken_store_unreachable_witness :
  let w := {| auth.rdb := down ∅;
              auth.db := {| user.users := []; user.teachers := []; user.students := [];
                            user.parents := []; user.login_tokens := [];
                            user.login_attempts := []; user.net := reachable |} |} in
  @auth.ValidateToken sample_primitives sample_service 0
    (@signed_with sample_primitives "HS256" "SHA256" "access-secret" sample_claims) w =
    (Err (Errorf "failed to check blacklist: %w"
            [AErr (Errorf "failed to check blacklist: %w" [AErr (ErrConn "redis")])]), w).
Proof.
  intros w.
  apply (@ValidateToken_store_unreachable sample_primitives sample_service 0 _ sample_claims).
  - vm_compute. reflexivity.
  - reflexivity.
Defined.

Lemma RecordFailedAttempt_down_eq l now email ip c :
  redis.net c = unreachable ->
  ratelimit.RecordFailedAttempt l now email ip c =
    (Err (Errorf "failed to increment attempt counter: %w" [AErr (ErrConn "redis")]), c).
Proof.
  intros Hn. unfold ratelimit.RecordFailedAttempt, bind, wrap, redis.Incr.
  rewrite call_down by done. reflexivity.
Qed.

Lemma RecordSuccessfulAttempt_down_eq l now email ip c :
  redis.net c = unreachable ->
  ratelimit.RecordSuccessfulAttempt l now email ip c =
    (Err (Errorf "failed to clear attempt counter: %w" [AErr (ErrConn "redis")]), c).
Proof.
  intros Hn. unfold ratelimit.RecordSuccessfulAttempt, wrap, redis.Del.
  rewrite call_down by done. reflexivity.
Qed.

(** X27: the rate limiter fails open: with the store unreachable, password
    log-in runs as it does without a rate limiter; no call is refused and the
    store is left as it was. *)
Lemma AuthenticateEmailPassword_store_unreachable `{Primitives} (s : auth.Service)
    (now : Z) (jtis : string * string) (email password ip : string) (w : auth.World) :
  redis.net (auth.rdb w) = unreachable ->
  auth.AuthenticateEmailPassword s now jtis email password ip w =
  auth.AuthenticateEmailPassword
    {| auth.tokenService := auth.tokenService s; auth.rateLimiter := None |}
    now jtis email password ip w.
Proof.
  intros Hn. destruct s as [ts [l|]]; [|reflexivity]. destruct w as [c d]. cbn in Hn.
  cbv beta iota zeta delta [auth.AuthenticateEmailPassword auth.recordFailure bind attempt
    wrap auth.onDB auth.onRedis zoom ret fail auth.rateLimiter auth.tokenService
    auth.rdb auth.db].
  rewrite CheckLoginAttempt_down by done.
  destruct (user.FindByEmail (auth.SanitizeEmail email) d) as [[[usr|]|e] d1]; cbn.
  - destruct (auth.VerifyPassword password (user.User_PasswordDigest usr)); cbn.
    + destruct (user.RecordLoginAttempt _ _ _ _ d1) as [r1 d2]; cbn.
      rewrite RecordSuccessfulAttempt_down_eq by done.
      destruct (user.UpdateLastLoggedOn _ _ d2) as [r2 d3]; cbn.
      reflexivity.
    + destruct (user.RecordLoginAttempt _ _ _ _ d1) as [r1 d2]; cbn.
      rewrite RecordFailedAttempt_down_eq by done. reflexivity.
  - destruct (user.RecordLoginAttempt _ _ _ _ d1) as [r1 d2]; cbn.
    rewrite RecordFailedAttempt_down_eq by done. reflexivity.
  - reflexivity.
Qed.

(** ** The reply of [POST /auth/login] *)

(** Every error of the service, whatever it is, gets the same reply. *)
Lemma Login_error_reply `{Primitives} (s : auth.Service) (now : Z) (jtis : string * string)
    (req : auth.LoginRequest) (ip : string) (w w' : auth.World) (e : error) :
  (forall what, e <> Panic what) ->
  auth.AuthenticateEmailPassword s now jtis (auth.Email_ req) (auth.Password_ req) ip w
    = (Err e, w') ->
  auth.Login s now jtis (inr req) ip w = (invalid_credentials, w').
Proof.
  intros Hp E. unfold auth.Login. rewrite E.
  destruct e; try reflexivity. destruct (Hp what eq_refl).
Qed.

(** C3, on the code: a log-in the rate limiter denies is answered with
    status 401 and the code INVALID_CREDENTIALS, the reply to a wrong
    password; the remaining lockout time stays in the error value of the
    service.  The limiter denies, in particular, for every pair whose lockout
    marker has half a second or more to live. *)
Theorem Login_locked_out `{Primitives} (s : auth.Service) (l : ratelimit.Limiter)
    (now : Z) (jtis : string * string) (req : auth.LoginRequest) (ip : string)
    (w : auth.World) (m : gmap string redis.entry) :
  auth.rateLimiter s = Some l ->
  auth.rdb w = up m ->
  (forall remainingAttempts lockoutRemaining c,
     ratelimit.CheckLoginAttempt l now (auth.SanitizeEmail (auth.Email_ req)) ip (up m)
       = (Ok (false, remainingAttempts, lockoutRemaining), c) ->
     auth.AuthenticateEmailPassword s now jtis (auth.Email_ req) (auth.Password_ req) ip w =
       (Err (Errorf "too many failed attempts, locked out for %v"
               [ADuration (time.Round lockoutRemaining time.Second)]),
        {| auth.rdb := c; auth.db := auth.db w |}) /\
     auth.Login s now jtis (inr req) ip w =
       (invalid_credentials, {| auth.rdb := c; auth.db := auth.db w |})) /\
  (forall e d,
     m !! ratelimit.LoginLockoutKey (auth.SanitizeEmail (auth.Email_ req)) ip = Some e ->
     redis.deadline e = Some d ->
     half_second <= d - now ->
     auth.AuthenticateEmailPassword s now jtis (auth.Email_ req) (auth.Password_ req) ip w =
       (Err (Errorf "too many failed attempts, locked out for %v"
               [ADuration (time.Round (redis.seconds_left (d - now)) time.Second)]), w) /\
     auth.Login s now jtis (inr req) ip w = (invalid_credentials, w)).
Proof.
  intros Hl Hw.
  assert (Hdenied : forall remainingAttempts lockoutRemaining c,
     ratelimit.CheckLoginAttempt l now (auth.SanitizeEmail (auth.Email_ req)) ip (up m)
       = (Ok (false, remainingAttempts, lockoutRemaining), c) ->
     auth.AuthenticateEmailPassword s now jtis (auth.Email_ req) (auth.Password_ req) ip w =
       (Err (Errorf "too many failed attempts, locked out for %v"
               [ADuration (time.Round lockoutRemaining time.Second)]),
        {| auth.rdb := c; auth.db := auth.db w |}) /\
     auth.Login s now jtis (inr req) ip w =
       (invalid_credentials, {| auth.rdb := c; auth.db := auth.db w |})).
  { intros remainingAttempts lockoutRemaining c Hcheck.
    assert (E : auth.AuthenticateEmailPassword s now jtis (auth.Email_ req)
                  (auth.Password_ req) ip w =
                (Err (Errorf "too many failed attempts, locked out for %v"
                        [ADuration (time.Round lockoutRemaining time.Second)]),
                 {| auth.rdb := c; auth.db := auth.db w |})).
    { destruct s as [ts rl]. cbn in Hl. subst rl. destruct w as [c0 db]. cbn in Hw. subst c0.
      cbv beta iota zeta delta [auth.AuthenticateEmailPassword bind attempt
        wrap auth.onDB auth.onRedis zoom ret fail auth.rateLimiter auth.tokenService
        auth.rdb auth.db].
      rewrite Hcheck. reflexivity. }
    split; [exact E|].
    eapply Login_error_reply; [|exact E]. intros; discriminate. }
  split; [exact Hdenied|].
  intros e d Hm Hd Hlt.
  pose proof (check_locked l _ ip m now e d Hm Hd Hlt) as Hcheck.
  destruct (Hdenied _ _ _ Hcheck) as [E1 E2].
  assert (Hw' : {| auth.rdb := up m; auth.db := auth.db w |} = w).
  { destruct w as [c0 db]. cbn in Hw. subst c0. reflexivity. }
  rewrite Hw' in E1, E2. split; assumption.
Qed.

Lemma Login_locked_out_witness :
  let req := {| auth.Email_ := "X@Y.com"; auth.Password_ := "wrong" |} in
  @auth.AuthenticateEmailPassword sample_primitives sample_service time.Minute
    ("jti-1", "jti-2") "X@Y.com" "wrong" "10.0.0.1" locked_world =
    (Err (Errorf "too many failed attempts, locked out for %v"
            [ADuration (time.Round (redis.seconds_left (15 * time.Minute - time.Minute))
                          time.Second)]),
     locked_world) /\
  @auth.Login sample_primitives sample_service time.Minute ("jti-1", "jti-2")
    (inr req) "10.0.0.1" locked_world = (invalid_credentials, locked_world).
Proof.
  intros req.
  destruct (@Login_locked_out sample_primitives sample_service default_limiter time.Minute
              ("jti-1", "jti-2") req "10.0.0.1" locked_world
              {[ ratelimit.LoginLockoutKey "x@y.com" "10.0.0.1" :=
                   {| redis.val := 1; redis.deadline := Some (15 * time.Minute) |} ]})
    as [_ H].
  - reflexivity.
  - reflexivity.
  - apply (H {| redis.val := 1; redis.deadline := Some (15 * time.Minute) |}
             (15 * time.Minute)).
    + vm_compute. reflexivity.
    + reflexivity.
    + vm_compute. discriminate.
Defined.

(** Scenario S2: five refused passwords from one address, then two more
    requests.  All seven replies are 401 INVALID_CREDENTIALS. *)
Lemma seven_logins :
  let req := {| auth.Email_ := "x@y.com"; auth.Password_ := "wrong" |} in
  fst (@logins sample_primitives sample_service "10.0.0.1"
         [ (0, req); (1 * time.Second, req); (2 * time.Second, req); (3 * time.Second, req);
           (4 * time.Second, req); (5 * time.Second, req); (6 * time.Second, req) ]
         sample_world)
  = [ (401, "INVALID_CREDENTIALS"); (401, "INVALID_CREDENTIALS"); (401, "INVALID_CREDENTIALS");
      (401, "INVALID_CREDENTIALS"); (401, "INVALID_CREDENTIALS"); (401, "INVALID_CREDENTIALS");
      (401, "INVALID_CREDENTIALS") ].
Proof. vm_compute. reflexivity. Qed.

(** A transient failure of the store lets a failure be recorded for a pair
    that is locked out: the admission check errs and is passed over, the
    counter is then created beside the marker. *)
Lemma failure_recorded_while_locked :
  let w := {| auth.rdb :=
                {| redis.entries := redis.entries (auth.rdb locked_world);
                   redis.net := {| script := [true]; steady := false |} |};
              auth.db := sample_db reachable |} in
  coexist time.Minute "x@y.com" "10.0.0.1" (auth.rdb w) = false /\
  coexist time.Minute "x@y.com" "10.0.0.1"
    (auth.rdb (snd (@auth.AuthenticateEmailPassword sample_primitives sample_service
                      time.Minute ("jti-1", "jti-2") "x@y.com" "wrong" "10.0.0.1" w)))
  = true.
Proof. vm_compute. split; reflexivity. Qed.

(** ** Email normalization *)

Lemma is_space_to_lower c : auth.is_space (auth.to_lower c) = auth.is_space c.
Proof. destruct c as [[] [] [] [] [] [] [] []]; reflexivity. Qed.

Lemma to_lower_idem c : auth.to_lower (auth.to_lower c) = auth.to_lower c.
Proof. destruct c as [[] [] [] [] [] [] [] []]; reflexivity. Qed.

Lemma ToLower_idem s : auth.ToLower (auth.ToLower s) = auth.ToLower s.
Proof. induction s as [|c r IH]; cbn; [done|]. rewrite to_lower_idem, IH. done. Qed.

Lemma append_cons c r t : String c r +:+ t = String c (r +:+ t).
Proof. reflexivity. Qed.

Lemma append_nil t : "" +:+ t = t.
Proof. reflexivity. Qed.

Lemma ToLower_app s t : auth.ToLower (s +:+ t) = auth.ToLower s +:+ auth.ToLower t.
Proof.
  induction s as [|c r IH]; [done|].
  rewrite append_cons. cbn. rewrite IH. done.
Qed.

Lemma TrimLeft_ToLower s : auth.TrimLeft (auth.ToLower s) = auth.ToLower (auth.TrimLeft s).
Proof.
  induction s as [|c r IH]; cbn; [done|].
  rewrite is_space_to_lower. destruct (auth.is_space c); [exact IH | reflexivity].
Qed.

Lemma TrimRight_ToLower s : auth.TrimRight (auth.ToLower s) = auth.ToLower (auth.TrimRight s).
Proof.
  induction s as [|c r IH]; cbn; [done|].
  rewrite IH, is_space_to_lower.
  destruct (auth.TrimRight r); cbn; [destruct (auth.is_space c)|]; reflexivity.
Qed.

Lemma TrimSpace_ToLower s : auth.TrimSpace (auth.ToLower s) = auth.ToLower (auth.TrimSpace s).
Proof. unfold auth.TrimSpace. rewrite TrimLeft_ToLower. apply TrimRight_ToLower. Qed.

Lemma TrimLeft_all_space s : all_space s = true -> auth.TrimLeft s = "".
Proof.
  induction s as [|c r IH]; cbn; [done|].
  intros [Hc Hr]%andb_true_iff. rewrite Hc. auto.
Qed.

Lemma TrimRight_all_space s : all_space s = true -> auth.TrimRight s = "".
Proof.
  induction s as [|c r IH]; cbn; [done|].
  intros [Hc Hr]%andb_true_iff. rewrite IH, Hc by done. reflexivity.
Qed.

Lemma TrimLeft_prefix pre s : all_space pre = true -> auth.TrimLeft (pre +:+ s) = auth.TrimLeft s.
Proof.
  induction pre as [|c r IH]; [done|]. rewrite append_cons. cbn.
  intros [Hc Hr]%andb_true_iff. rewrite Hc. auto.
Qed.

Lemma TrimRight_suffix s suf : all_space suf = true -> auth.TrimRight (s +:+ suf) = auth.TrimRight s.
Proof.
  intros Hsuf. induction s as [|c r IH].
  - rewrite append_nil. cbn. apply TrimRight_all_space. done.
  - rewrite append_cons. cbn. rewrite IH. reflexivity.
Qed.

Lemma TrimSpace_suffix s suf :
  all_space suf = true -> auth.TrimSpace (s +:+ suf) = auth.TrimSpace s.
Proof.
  intros Hsuf. unfold auth.TrimSpace. induction s as [|c r IH].
  - rewrite append_nil. cbn. rewrite TrimLeft_all_space by done. reflexivity.
  - rewrite append_cons. cbn. destruct (auth.is_space c); [exact IH|].
    rewrite <- append_cons. apply (TrimRight_suffix (String c r) suf Hsuf).
Qed.

Lemma TrimSpace_surrounded pre s suf :
  all_space pre = true -> all_space suf = true ->
  auth.TrimSpace (pre +:+ s +:+ suf) = auth.TrimSpace s.
Proof.
  intros Hpre Hsuf. rewrite <- (TrimSpace_suffix s suf Hsuf).
  unfold auth.TrimSpace. rewrite TrimLeft_prefix by done. reflexivity.
Qed.

Lemma TrimRight_idem s : auth.TrimRight (auth.TrimRight s) = auth.TrimRight s.
Proof.
  induction s as [|c r IH]; cbn; [done|].
  destruct (auth.TrimRight r) as [|c' r'] eqn:E.
  - destruct (auth.is_space c) eqn:Ec; cbn; [done|]. rewrite Ec. reflexivity.
  - cbn [auth.TrimRight] in *. destruct (auth.TrimRight r') as [|c'' r''] eqn:E'.
    + destruct (auth.is_space c'); [discriminate|]. injection IH as <-. reflexivity.
    + rewrite IH. reflexivity.
Qed.

(** A string that does not start with white space. *)
Lemma TrimLeft_head s :
  match auth.TrimLeft s with String c _ => auth.is_space c = false | EmptyString => True end.
Proof.
  induction s as [|c r IH]; cbn; [done|].
  destruct (auth.is_space c) eqn:E; [exact IH | exact E].
Qed.

Lemma TrimLeft_TrimRight t :
  match t with String c _ => auth.is_space c = false | EmptyString => True end ->
  auth.TrimLeft (auth.TrimRight t) = auth.TrimRight t.
Proof.
  destruct t as [|c r]; cbn; [done|]. intros Hc.
  destruct (auth.TrimRight r); [rewrite Hc|]; cbn; rewrite Hc; reflexivity.
Qed.

Lemma TrimSpace_idem s : auth.TrimSpace (auth.TrimSpace s) = auth.TrimSpace s.
Proof.
  unfold auth.TrimSpace.
  rewrite (TrimLeft_TrimRight (auth.TrimLeft s)) by apply TrimLeft_head.
  apply TrimRight_idem.
Qed.



(** A text with no white space at its ends is left as it is. *)
Lemma TrimRight_last c r :
  auth.is_space (last_byte c r) = false -> auth.TrimRight (String c r) = String c r.
Proof.
  revert c. induction r as [|c' r IH]; intros c Hlast.
  - cbn in *. rewrite Hlast. reflexivity.
  - cbn [last_byte] in Hlast. specialize (IH c' Hlast).
    change (auth.TrimRight (String c (String c' r)))
      with (match auth.TrimRight (String c' r) with
            | EmptyString => if auth.is_space c then EmptyString else String c EmptyString
            | r' => String c r'
            end).
    rewrite IH. reflexivity.
Qed.

Lemma TrimSpace_trimmed s : trimmed s = true -> auth.TrimSpace s = s.
Proof.
  destruct s as [|c r]; [reflexivity|]. cbn [trimmed]. intros Ht.
  apply andb_true_iff in Ht as [Hc Hlast].
  apply negb_true_iff in Hc. apply negb_true_iff in Hlast.
  unfold auth.TrimSpace. cbn [auth.TrimLeft]. rewrite Hc. apply TrimRight_last. exact Hlast.
Qed.

Lemma TrimSpace_core pre core suf :
  all_space pre = true -> all_space suf = true -> trimmed core = true ->
  auth.TrimSpace (pre +:+ core +:+ suf) = core.
Proof.
  intros Hpre Hsuf Hcore. rewrite TrimSpace_surrounded by done. apply TrimSpace_trimmed, Hcore.
Qed.


(** Scenario S1: the address is matched in its sanitized form. *)
Lemma login_with_mixed_case :
  exists resp w',
    @auth.AuthenticateEmailPassword sample_primitives sample_service 0 ("jti-1", "jti-2")
      " T@Example.com" "Passw0rd!" "10.0.0.1" sample_world = (Ok resp, w') /\
    auth.User resp = sample_user.
Proof. eexists _, _. vm_compute. split; reflexivity. Qed.

(** ** The directory, when it answers *)

Lemma FindLoginToken_up secret d :
  user.net d = reachable -> user.FindLoginToken secret d = (Ok (token_of secret d), d).
Proof. intros. unfold user.FindLoginToken. rewrite finder_up by done. reflexivity. Qed.

Lemma DeleteLoginToken_up id d :
  user.net d = reachable ->
  user.DeleteLoginToken id d = (Ok tt, user.set_login_tokens (without_token id) d).
Proof.
  intros. unfold user.DeleteLoginToken, wrap. rewrite ExecContext_up by done. reflexivity.
Qed.

Lemma UpdateLastLoggedOn_up now id d :
  user.net d = reachable ->
  user.UpdateLastLoggedOn now id d =
    (Ok tt, user.set_users (map (fun u =>
               if user.User_ID u =? id then user.set_last_logged_on now u else u)) d).
Proof.
  intros. unfold user.UpdateLastLoggedOn, wrap. rewrite ExecContext_up by done. reflexivity.
Qed.

Lemma FindWithMeta_up id d :
  user.net d = reachable -> user.FindWithMeta id d = (Ok (with_meta d id), d).
Proof.
  intros Hn. unfold user.FindWithMeta, user.FindByID, user.FindTeacher, user.FindStudent,
    user.FindParent, bind, with_meta.
  rewrite finder_up by done.
  destruct (find _ (user.users d)) as [u|]; [|reflexivity].
  destruct (String.eqb (user.User_MetaType u) "Teacher");
    [rewrite finder_up by done; reflexivity|].
  destruct (String.eqb (user.User_MetaType u) "Student");
    [rewrite finder_up by done; reflexivity|].
  destruct (String.eqb (user.User_MetaType u) "Parent");
    [rewrite finder_up by done; reflexivity|].
  reflexivity.
Qed.

(** A finder leaves every table as it is, whether it fails or not. *)
Lemma finder_tables {A} format (q : user.DB -> option A) d r d' :
  user.finder format q d = (r, d') -> exists n, d' = user.with_net n d.
Proof.
  unfold user.finder, bind, attempt, user.GetContext.
  destruct (next_call (user.net d)) as [[] n]; cbn.
  - intros [= <- <-]. eauto.
  - destruct (q d); intros [= <- <-]; eauto.
Qed.

Lemma FindWithMeta_tables id d r d' :
  user.FindWithMeta id d = (r, d') -> exists n, d' = user.with_net n d.
Proof.
  unfold user.FindWithMeta, user.FindByID, user.FindTeacher, user.FindStudent,
    user.FindParent, bind, ret.
  destruct (user.finder _ _ d) as [[[u|]|e] d1] eqn:E1;
    apply finder_tables in E1 as [n1 ->]; try (intros [= <- <-]; eauto; fail).
  repeat match goal with
  | |- context [if ?b then _ else _] => destruct b
  end.
  all: try (intros [= <- <-]; eauto; fail).
  all: match goal with |- context [user.finder ?f ?q ?d] =>
         destruct (user.finder f q d) as [[m|e] d2] eqn:E2;
         apply finder_tables in E2 as [n2 ->] end;
       intros [= <- <-]; exists n2; reflexivity.
Qed.

(** ** Magic links *)

Lemma token_of_deleted secret tok (l : list user.LoginToken) :
  (forall t, In t l -> user.LoginToken_Secret t = secret ->
             user.LoginToken_ID t = user.LoginToken_ID tok) ->
  find (fun t => String.eqb (user.LoginToken_Secret t) secret)
    (without_token (user.LoginToken_ID tok) l) = None.
Proof.
  unfold without_token. induction l as [|t l IH]; intros Huniq; [reflexivity|].
  cbn [List.filter].
  destruct (Z.eqb_spec (user.LoginToken_ID t) (user.LoginToken_ID tok)) as [Heq|Hne]; cbn.
  - apply IH. intros t' Hin. apply Huniq. right. exact Hin.
  - cbn [find]. destruct (String.eqb_spec (user.LoginToken_Secret t) secret) as [Hs|Hs].
    + destruct Hne. apply Huniq; [left; reflexivity | exact Hs].
    + apply IH. intros t' Hin. apply Huniq. right. exact Hin.
Qed.

Lemma issue_Ok `{Primitives} (s : auth.Service) now jtis usr uwm name :
  user.GetFullName uwm = Ok name ->
  exists pair,
    auth.issue s now jtis usr (Some uwm) =
      Ok {| auth.Token := pair; auth.User := usr; auth.Meta := user.Meta_ uwm |}.
Proof.
  intros Hn. unfold auth.issue. rewrite Hn, Generate_Ok. eauto.
Qed.

Ltac unfold_service :=
  cbv beta iota zeta delta [auth.AuthenticateLoginToken auth.AuthenticateEmailPassword
    auth.recordFailure bind attempt wrap auth.onDB auth.onRedis zoom ret fail auth.lift
    auth.rateLimiter auth.tokenService auth.rdb auth.db].

Section magic.
Context `{Primitives}.
Variables (s : auth.Service) (secret : string).

Lemma magic_unknown now jtis c d :
  user.net d = reachable -> token_of secret d = None ->
  auth.AuthenticateLoginToken s now jtis secret {| auth.rdb := c; auth.db := d |} =
    (Err (Errorf "invalid token" []), {| auth.rdb := c; auth.db := d |}).
Proof.
  intros Hn Hfind. unfold_service. rewrite FindLoginToken_up, Hfind by done. reflexivity.
Qed.

Lemma magic_expired now jtis c d tok :
  user.net d = reachable -> token_of secret d = Some tok ->
  user.LoginToken_Permanent tok = false ->
  user.LoginToken_CreatedAt tok + 5 * time.Minute < now ->
  auth.AuthenticateLoginToken s now jtis secret {| auth.rdb := c; auth.db := d |} =
    (Err (Errorf "token expired" []), {| auth.rdb := c; auth.db := d |}).
Proof.
  intros Hn Hfind Hperm Hold. unfold_service.
  rewrite FindLoginToken_up, Hfind by done. cbn. rewrite Hperm. cbn.
  unfold time.After, time.Add.
  destruct (Z.ltb_spec (user.LoginToken_CreatedAt tok + 5 * time.Minute) now); [|lia].
  reflexivity.
Qed.

Lemma magic_valid now jtis c d tok uwm name :
  user.net d = reachable -> token_of secret d = Some tok ->
  user.LoginToken_Permanent tok = false ->
  now <= user.LoginToken_CreatedAt tok + 5 * time.Minute ->
  with_meta d (user.LoginToken_UserID tok) = Some uwm ->
  user.GetFullName uwm = Ok name ->
  exists pair,
    auth.AuthenticateLoginToken s now jtis secret {| auth.rdb := c; auth.db := d |} =
      (Ok {| auth.Token := pair; auth.User := user.User_ uwm; auth.Meta := user.Meta_ uwm |},
       {| auth.rdb := c; auth.db := used now tok d |}).
Proof.
  intros Hn Hfind Hperm Hfresh Hmeta Hname.
  destruct (issue_Ok s now jtis (user.User_ uwm) uwm name Hname) as [pair Hissue].
  exists pair. unfold_service.
  rewrite FindLoginToken_up, Hfind by done. cbn. rewrite Hperm. cbn.
  unfold time.After, time.Add.
  destruct (Z.ltb_spec (user.LoginToken_CreatedAt tok + 5 * time.Minute) now); [lia|].
  cbn. rewrite DeleteLoginToken_up by done. cbn.
  rewrite FindWithMeta_up by done.
  change (with_meta (user.set_login_tokens _ d) (user.LoginToken_UserID tok))
    with (with_meta d (user.LoginToken_UserID tok)).
  rewrite Hmeta. cbn.
  rewrite UpdateLastLoggedOn_up by done. cbn.
  rewrite Hissue.
  assert (Hid : user.User_ID (user.User_ uwm) = user.LoginToken_UserID tok).
  { unfold with_meta in Hmeta.
    destruct (find _ (user.users d)) as [u|] eqn:Hu; [|discriminate].
    injection Hmeta as <-. cbn. apply find_some in Hu as [_ Hu]. lia. }
  unfold used, logged_on. rewrite Hid. reflexivity.
Qed.
End magic.

Lemma finder_cases {A} format (q : user.DB -> option A) d :
  exists n, user.finder format q d = (Ok (q d), user.with_net n d) \/
            exists e, user.finder format q d = (Err e, user.with_net n d).
Proof.
  unfold user.finder, bind, attempt, user.GetContext.
  destruct (next_call (user.net d)) as [[] n]; exists n; cbn.
  - right. eauto.
  - left. destruct (q d); reflexivity.
Qed.

Lemma ExecContext_cases f d :
  exists n, user.ExecContext f d = (Ok tt, user.with_net n (f d)) \/
            user.ExecContext f d = (Err (ErrConn "postgres"), user.with_net n d).
Proof.
  unfold user.ExecContext. destruct (next_call (user.net d)) as [[] n]; exists n; auto.
Qed.

Lemma UpdateLastLoggedOn_login_tokens now id d :
  user.login_tokens (snd (user.UpdateLastLoggedOn now id d)) = user.login_tokens d.
Proof.
  unfold user.UpdateLastLoggedOn, wrap.
  destruct (ExecContext_cases
              (user.set_users (map (fun u => if user.User_ID u =? id
                                             then user.set_last_logged_on now u else u))) d)
    as [n [-> | ->]]; reflexivity.
Qed.

Lemma find_map_same_id (f : user.User -> user.User) id (l : list user.User) :
  (forall u, user.User_ID (f u) = user.User_ID u) ->
  find (fun u => user.User_ID u =? id) (map f l) =
  option_map f (find (fun u => user.User_ID u =? id) l).
Proof.
  intros Hf. induction l as [|u l IH]; cbn; [reflexivity|].
  rewrite Hf. destruct (user.User_ID u =? id); [reflexivity | exact IH].
Qed.

Lemma with_meta_logged_on now id d uid uwm :
  with_meta d uid = Some uwm ->
  exists usr, with_meta (logged_on now id d) uid =
                Some {| user.User_ := usr; user.Meta_ := user.Meta_ uwm |}.
Proof.
  unfold with_meta, logged_on. cbn [user.users user.teachers user.students user.parents
    user.set_users].
  rewrite find_map_same_id by (intros u; destruct (user.User_ID u =? id); reflexivity).
  destruct (find _ (user.users d)) as [u|]; [|discriminate].
  intros [= <-]. cbn [option_map user.Meta_].
  destruct (user.User_ID u =? id); cbn; eauto.
Qed.

Section permanent.
Context `{Primitives}.
Variables (s : auth.Service) (secret : string).

Lemma magic_permanent now jtis c d tok uwm name :
  user.net d = reachable -> token_of secret d = Some tok ->
  user.LoginToken_Permanent tok = true ->
  with_meta d (user.LoginToken_UserID tok) = Some uwm ->
  user.GetFullName uwm = Ok name ->
  exists pair,
    auth.AuthenticateLoginToken s now jtis secret {| auth.rdb := c; auth.db := d |} =
      (Ok {| auth.Token := pair; auth.User := user.User_ uwm; auth.Meta := user.Meta_ uwm |},
       {| auth.rdb := c; auth.db := logged_on now (user.LoginToken_UserID tok) d |}).
Proof.
  intros Hn Hfind Hperm Hmeta Hname.
  destruct (issue_Ok s now jtis (user.User_ uwm) uwm name Hname) as [pair Hissue].
  exists pair. unfold_service.
  rewrite FindLoginToken_up, Hfind by done. cbn. rewrite Hperm. cbn.
  rewrite FindWithMeta_up, Hmeta by done. cbn.
  rewrite UpdateLastLoggedOn_up by done. cbn.
  rewrite Hissue.
  assert (Hid : user.User_ID (user.User_ uwm) = user.LoginToken_UserID tok).
  { unfold with_meta in Hmeta.
    destruct (find _ (user.users d)) as [u|] eqn:Hu; [|discriminate].
    injection Hmeta as <-. cbn. apply find_some in Hu as [_ Hu]. lia. }
  unfold logged_on. rewrite Hid. reflexivity.
Qed.

(** A call that finds no short-lived link leaves the table of links as it
    is, whatever the stores do. *)
Lemma login_tokens_kept now jtis w :
  (forall tok, token_of secret (auth.db w) = Some tok ->
               user.LoginToken_Permanent tok = true) ->
  user.login_tokens (auth.db (snd (auth.AuthenticateLoginToken s now jtis secret w)))
    = user.login_tokens (auth.db w).
Proof.
  intros Hperm. destruct w as [c d]. cbn [auth.db] in *. unfold_service.
  unfold user.FindLoginToken.
  destruct (finder_cases "failed to find login token: %w"
              (fun d => find (fun t => String.eqb (user.LoginToken_Secret t) secret)
                          (user.login_tokens d)) d) as [n [-> | [e ->]]]; [|reflexivity].
  fold (token_of secret d).
  destruct (token_of secret d) as [tok|] eqn:Hfind; [|reflexivity].
  rewrite (Hperm tok eq_refl). cbn.
  destruct (user.FindWithMeta (user.LoginToken_UserID tok) (user.with_net n d))
    as [[[uwm|]|e] d1] eqn:E; apply FindWithMeta_tables in E as [n1 ->]; cbn;
    try reflexivity.
  pose proof (UpdateLastLoggedOn_login_tokens now (user.User_ID (user.User_ uwm))
                (user.with_net n1 (user.with_net n d))) as Hu.
  destruct (user.UpdateLastLoggedOn _ _ _) as [r d2]. cbn in Hu. cbn.
  destruct (auth.issue _ _ _ _ _); cbn; exact Hu.
Qed.
End permanent.

Lemma LoginWithToken_error `{Primitives} (s : auth.Service) now jtis secret w w' e :
  secret <> "" -> (forall what, e <> Panic what) ->
  auth.AuthenticateLoginToken s now jtis secret w = (Err e, w') ->
  auth.LoginWithToken s now jtis secret w = (invalid_token, w').
Proof.
  intros Hs Hp E. unfold auth.LoginWithToken.
  destruct (String.eqb_spec secret ""); [done|]. rewrite E.
  destruct e; try reflexivity. destruct (Hp what eq_refl).
Qed.

Lemma LoginWithToken_ok `{Primitives} (s : auth.Service) now jtis secret w w' resp :
  secret <> "" ->
  auth.AuthenticateLoginToken s now jtis secret w = (Ok resp, w') ->
  auth.LoginWithToken s now jtis secret w =
    ({| auth.status := 200; auth.body := auth.Success resp |}, w').
Proof.
  intros Hs E. unfold auth.LoginWithToken.
  destruct (String.eqb_spec secret ""); [done|]. rewrite E. reflexivity.
Qed.

(** C6, as the code has it.  With the directory answering: an unknown
    secret fails with "invalid token" (401 INVALID_TOKEN); a short-lived
    link older than five minutes fails with "token expired" (also 401
    INVALID_TOKEN) and its record stays in the directory; a short-lived link
    within its five minutes is deleted before the subject is loaded, the call
    succeeds (200), and every later use of the secret fails with "invalid
    token" (401 INVALID_TOKEN); a permanent link succeeds at any age, is
    still there afterwards and succeeds again.  Whatever the stores do, a
    call that finds a permanent link or none leaves the links as they are. *)
Theorem magic_link `{Primitives} (s : auth.Service) (secret : string) (now : Z)
    (jtis : string * string) (w : auth.World) :
  secret <> "" ->
  user.net (auth.db w) = reachable ->
  (token_of secret (auth.db w) = None ->
     auth.AuthenticateLoginToken s now jtis secret w = (Err (Errorf "invalid token" []), w) /\
     auth.LoginWithToken s now jtis secret w = (invalid_token, w)) /\
  (forall tok,
     token_of secret (auth.db w) = Some tok ->
     user.LoginToken_Permanent tok = false ->
     user.LoginToken_CreatedAt tok + 5 * time.Minute < now ->
     auth.AuthenticateLoginToken s now jtis secret w = (Err (Errorf "token expired" []), w) /\
     auth.LoginWithToken s now jtis secret w = (invalid_token, w)) /\
  (forall tok uwm name,
     token_of secret (auth.db w) = Some tok ->
     user.LoginToken_Permanent tok = false ->
     now <= user.LoginToken_CreatedAt tok + 5 * time.Minute ->
     with_meta (auth.db w) (user.LoginToken_UserID tok) = Some uwm ->
     user.GetFullName uwm = Ok name ->
     (forall t, In t (user.login_tokens (auth.db w)) ->
                user.LoginToken_Secret t = secret ->
                user.LoginToken_ID t = user.LoginToken_ID tok) ->
     exists pair,
       let resp := {| auth.Token := pair; auth.User := user.User_ uwm;
                      auth.Meta := user.Meta_ uwm |} in
       let w' := {| auth.rdb := auth.rdb w; auth.db := used now tok (auth.db w) |} in
       auth.AuthenticateLoginToken s now jtis secret w = (Ok resp, w') /\
       auth.LoginWithToken s now jtis secret w =
         ({| auth.status := 200; auth.body := auth.Success resp |}, w') /\
       user.login_tokens (auth.db w') =
         without_token (user.LoginToken_ID tok) (user.login_tokens (auth.db w)) /\
       forall now2 jtis2,
         auth.AuthenticateLoginToken s now2 jtis2 secret w'
           = (Err (Errorf "invalid token" []), w') /\
         auth.LoginWithToken s now2 jtis2 secret w' = (invalid_token, w')) /\
  (forall tok uwm name,
     token_of secret (auth.db w) = Some tok ->
     user.LoginToken_Permanent tok = true ->
     with_meta (auth.db w) (user.LoginToken_UserID tok) = Some uwm ->
     user.GetFullName uwm = Ok name ->
     exists pair,
       let resp := {| auth.Token := pair; auth.User := user.User_ uwm;
                      auth.Meta := user.Meta_ uwm |} in
       let w' := {| auth.rdb := auth.rdb w;
                    auth.db := logged_on now (user.LoginToken_UserID tok) (auth.db w) |} in
       auth.AuthenticateLoginToken s now jtis secret w = (Ok resp, w') /\
       user.login_tokens (auth.db w') = user.login_tokens (auth.db w) /\
       forall now2 jtis2, exists resp2 w2,
         auth.AuthenticateLoginToken s now2 jtis2 secret w' = (Ok resp2, w2) /\
         user.login_tokens (auth.db w2) = user.login_tokens (auth.db w)) /\
  (forall w0 : auth.World,
     (forall tok, token_of secret (auth.db w0) = Some tok ->
                  user.LoginToken_Permanent tok = true) ->
     user.login_tokens (auth.db (snd (auth.AuthenticateLoginToken s now jtis secret w0)))
       = user.login_tokens (auth.db w0)).
Proof.
  intros Hs Hn. destruct w as [c d]. cbn [auth.db auth.rdb] in *.
  split; [|split; [|split; [|split]]].
  - intros Hfind. pose proof (magic_unknown s secret now jtis c d Hn Hfind) as E.
    split; [exact E|]. eapply LoginWithToken_error; [done | | exact E]. intros; discriminate.
  - intros tok Hfind Hperm Hold.
    pose proof (magic_expired s secret now jtis c d tok Hn Hfind Hperm Hold) as E.
    split; [exact E|]. eapply LoginWithToken_error; [done | | exact E]. intros; discriminate.
  - intros tok uwm name Hfind Hperm Hfresh Hmeta Hname Huniq.
    destruct (magic_valid s secret now jtis c d tok uwm name Hn Hfind Hperm Hfresh Hmeta Hname)
      as [pair E].
    exists pair. cbn zeta. split; [exact E|]. split; [|split].
    + apply LoginWithToken_ok; done.
    + reflexivity.
    + intros now2 jtis2.
      assert (E2 : auth.AuthenticateLoginToken s now2 jtis2 secret
                     {| auth.rdb := c; auth.db := used now tok d |} =
                   (Err (Errorf "invalid token" []),
                    {| auth.rdb := c; auth.db := used now tok d |})).
      { apply magic_unknown; [exact Hn|]. unfold token_of, used, logged_on. cbn.
        apply token_of_deleted. exact Huniq. }
      split; [exact E2|]. eapply LoginWithToken_error; [done | | exact E2]. intros; discriminate.
  - intros tok uwm name Hfind Hperm Hmeta Hname.
    destruct (magic_permanent s secret now jtis c d tok uwm name Hn Hfind Hperm Hmeta Hname)
      as [pair E].
    exists pair. cbn zeta. split; [exact E|]. split; [reflexivity|].
    intros now2 jtis2.
    destruct (with_meta_logged_on now (user.LoginToken_UserID tok) d _ _ Hmeta) as [usr Hmeta2].
    destruct (magic_permanent s secret now2 jtis2 c
                (logged_on now (user.LoginToken_UserID tok) d) tok _ name Hn Hfind Hperm
                Hmeta2 Hname) as [pair2 E2].
    eexists _, _. split; [exact E2|]. reflexivity.
  - intros w0. apply login_tokens_kept.
Qed.

(** An expired short-lived link is refused and stays in the directory. *)
Lemma expired_link_is_kept :
  @auth.AuthenticateLoginToken sample_primitives sample_service (10 * time.Minute)
    ("jti-1", "jti-2") "abc123" sample_world
  = (Err (Errorf "token expired" []), sample_world) /\
  token_of "abc123"
    (auth.db (snd (@auth.AuthenticateLoginToken sample_primitives sample_service
                     (10 * time.Minute) ("jti-1", "jti-2") "abc123" sample_world)))
  = Some {| user.LoginToken_ID := 1; user.LoginToken_UserID := 123;
            user.LoginToken_Secret := "abc123"; user.LoginToken_Permanent := false;
            user.LoginToken_CreatedAt := 0 |}.
Proof. vm_compute. split; reflexivity. Qed.

Lemma magic_link_witness :
  exists resp w',
    @auth.LoginWithToken sample_primitives sample_service (60 * time.Second)
      ("jti-1", "jti-2") "abc123" sample_world
    = ({| auth.status := 200; auth.body := auth.Success resp |}, w') /\
    @auth.LoginWithToken sample_primitives sample_service (61 * time.Second)
      ("jti-3", "jti-4") "abc123" w'
    = (invalid_token, w').
Proof.
  destruct (@magic_link sample_primitives sample_service "abc123" (60 * time.Second)
              ("jti-1", "jti-2") sample_world) as (_ & _ & Hvalid & _).
  - discriminate.
  - reflexivity.
  - destruct (Hvalid {| user.LoginToken_ID := 1; user.LoginToken_UserID := 123;
                        user.LoginToken_Secret := "abc123"; user.LoginToken_Permanent := false;
                        user.LoginToken_CreatedAt := 0 |}
                {| user.User_ := sample_user; user.Meta_ := user.IsTeacher (Some sample_teacher) |}
                "Test User")
      as (pair & _ & Hfirst & _ & Hsecond).
    + reflexivity.
    + reflexivity.
    + vm_compute. discriminate.
    + reflexivity.
    + reflexivity.
    + intros t [<- | [<- | []]]; [reflexivity | discriminate].
    + eexists _, _. split; [exact Hfirst|].
      apply (Hsecond (61 * time.Second) ("jti-3", "jti-4")).
Defined.

(** ** A link is consumed before its subject is loaded *)

(** C10: for a short-lived link within its five minutes, when the lookup of
    the link and its deletion go through and the load of the subject that
    follows fails (with an error of the directory, or because the subject
    does not exist), the call returns an error, the link is gone from the
    directory, and a later call with the same secret on the answering
    directory fails with "invalid token". *)
Theorem link_consumed_before_load `{Primitives} (s : auth.Service) (secret : string)
    (now : Z) (jtis : string * string) (w : auth.World) (tok : user.LoginToken)
    (n1 n2 : Net) :
  token_of secret (auth.db w) = Some tok ->
  user.LoginToken_Permanent tok = false ->
  now <= user.LoginToken_CreatedAt tok + 5 * time.Minute ->
  (forall t, In t (user.login_tokens (auth.db w)) ->
             user.LoginToken_Secret t = secret ->
             user.LoginToken_ID t = user.LoginToken_ID tok) ->
  next_call (user.net (auth.db w)) = (false, n1) ->
  next_call n1 = (false, n2) ->
  (forall uwm,
     fst (user.FindWithMeta (user.LoginToken_UserID tok)
            (user.with_net n2
               (user.set_login_tokens (without_token (user.LoginToken_ID tok)) (auth.db w))))
     <> Ok (Some uwm)) ->
  exists e w',
    auth.AuthenticateLoginToken s now jtis secret w = (Err e, w') /\
    user.login_tokens (auth.db w') =
      without_token (user.LoginToken_ID tok) (user.login_tokens (auth.db w)) /\
    token_of secret (auth.db w') = None /\
    forall now2 jtis2 w2,
      user.login_tokens (auth.db w2) = user.login_tokens (auth.db w') ->
      user.net (auth.db w2) = reachable ->
      auth.AuthenticateLoginToken s now2 jtis2 secret w2 = (Err (Errorf "invalid token" []), w2).
Proof.
  intros Hfind Hperm Hfresh Huniq Hn1 Hn2 Hload. destruct w as [c d]. cbn [auth.db auth.rdb] in *.
  set (d1 := user.with_net n2 (user.set_login_tokens (without_token (user.LoginToken_ID tok)) d))
    in *.
  assert (Hgone : forall d', user.login_tokens d' = user.login_tokens d1 ->
                             token_of secret d' = None).
  { intros d' Hd'. unfold token_of. rewrite Hd'. subst d1. cbn.
    apply token_of_deleted. exact Huniq. }
  assert (E1 : user.FindLoginToken secret d = (Ok (Some tok), user.with_net n1 d)).
  { unfold user.FindLoginToken, user.finder, bind, attempt, user.GetContext.
    rewrite Hn1. fold (token_of secret d). rewrite Hfind. reflexivity. }
  assert (E2 : user.DeleteLoginToken (user.LoginToken_ID tok) (user.with_net n1 d) = (Ok tt, d1)).
  { unfold user.DeleteLoginToken, wrap, user.ExecContext. cbn [user.net user.with_net].
    rewrite Hn2. reflexivity. }
  destruct (user.FindWithMeta (user.LoginToken_UserID tok) d1) as [r d2] eqn:E3.
  pose proof (FindWithMeta_tables _ _ _ _ E3) as [n3 ->].
  assert (Hresult : exists e,
    auth.AuthenticateLoginToken s now jtis secret {| auth.rdb := c; auth.db := d |} =
      (Err e, {| auth.rdb := c; auth.db := user.with_net n3 d1 |})).
  { unfold_service. rewrite E1. cbn. rewrite Hperm. cbn.
    unfold time.After, time.Add.
    destruct (Z.ltb_spec (user.LoginToken_CreatedAt tok + 5 * time.Minute) now); [lia|].
    cbn. rewrite E2. cbn. fold d1. rewrite E3. cbn.
    destruct r as [[uwm|]|e]; cbn; [|eauto|eauto].
    destruct (Hload uwm). reflexivity. }
  destruct Hresult as [e E]. exists e, {| auth.rdb := c; auth.db := user.with_net n3 d1 |}.
  split; [exact E|]. split; [reflexivity|]. split; [apply Hgone; reflexivity|].
  intros now2 jtis2 [c2 d2] Htok Hup. cbn [auth.db] in *.
  apply magic_unknown; [exact Hup|]. apply Hgone. exact Htok.
Qed.

Lemma link_consumed_before_load_witness :
  let w := {| auth.rdb := up ∅;
              auth.db := sample_db {| script := [false; false; true]; steady := false |} |} in
  exists e w',
    @auth.AuthenticateLoginToken sample_primitives sample_service (60 * time.Second)
      ("jti-1", "jti-2") "abc123" w = (Err e, w') /\
    token_of "abc123" (auth.db w') = None /\
    @auth.AuthenticateLoginToken sample_primitives sample_service (61 * time.Second)
      ("jti-3", "jti-4") "abc123" w' = (Err (Errorf "invalid token" []), w').
Proof.
  intros w.
  destruct (@link_consumed_before_load sample_primitives sample_service "abc123"
              (60 * time.Second) ("jti-1", "jti-2") w
              {| user.LoginToken_ID := 1; user.LoginToken_UserID := 123;
                 user.LoginToken_Secret := "abc123"; user.LoginToken_Permanent := false;
                 user.LoginToken_CreatedAt := 0 |}
              {| script := [false; true]; steady := false |}
              {| script := [true]; steady := false |})
    as (e & w' & E & Htok & Hgone & Hretry).
  - reflexivity.
  - reflexivity.
  - vm_compute. discriminate.
  - intros t [<- | [<- | []]]; [reflexivity | discriminate].
  - reflexivity.
  - reflexivity.
  - intros uwm. vm_compute. discriminate.
  - exists e, w'. split; [exact E|]. split; [exact Hgone|].
    apply Hretry; [reflexivity|].
    assert (Hw' : w' = snd (@auth.AuthenticateLoginToken sample_primitives sample_service
                              (60 * time.Second) ("jti-1", "jti-2") "abc123" w))
      by (rewrite E; reflexivity).
    rewrite Hw'. vm_compute. reflexivity.
Defined.

(** ** Resolution of a Google profile *)

Ltac unfold_oauth :=
  cbv beta iota zeta delta [oauth.findOrCreateGoogleUser bind attempt wrap ret fail
    user.FindTeacherByGoogleUID user.FindStudentByGoogleUID user.FindByID user.FindByEmail
    user.FindTeacher user.FindStudent].

Section resolution.
Variables (now : Z) (info : oauth.OAuthUserInfo) (d : user.DB).
Hypothesis Hup : user.net d = reachable.

Lemma resolve_teacher t :
  teacher_by_google (oauth.ProviderUserID info) d = Some t ->
  oauth.findOrCreateGoogleUser now info d =
    (Ok (user_by_id (user.Teacher_UserID t) d, user.IsTeacher (Some t)), d).
Proof.
  intros Ht. unfold_oauth. rewrite finder_up by done.
  fold (teacher_by_google (oauth.ProviderUserID info) d). rewrite Ht.
  rewrite finder_up by done. reflexivity.
Qed.

Lemma resolve_student t :
  teacher_by_google (oauth.ProviderUserID info) d = None ->
  student_by_google (oauth.ProviderUserID info) d = Some t ->
  oauth.findOrCreateGoogleUser now info d =
    (Ok (user_by_id (user.Student_UserID t) d, user.IsStudent (Some t)), d).
Proof.
  intros Hno Ht. unfold_oauth. rewrite finder_up by done.
  fold (teacher_by_google (oauth.ProviderUserID info) d). rewrite Hno.
  rewrite finder_up by done.
  fold (student_by_google (oauth.ProviderUserID info) d). rewrite Ht.
  rewrite finder_up by done. reflexivity.
Qed.

Lemma resolve_by_email :
  teacher_by_google (oauth.ProviderUserID info) d = None ->
  student_by_google (oauth.ProviderUserID info) d = None ->
  oauth.findOrCreateGoogleUser now info d =
    match user_by_email (oauth.Email_ info) d with
    | None =>
        (Err (Errorf "no account found for this Google account. Please sign up first." []), d)
    | Some usr =>
        if String.eqb (user.User_MetaType usr) "Teacher" then
          match teacher_by_id (user.User_MetaID usr) d with
          | None => (Err (Errorf "teacher meta not found" []), d)
          | Some t =>
              (Ok (Some usr, user.IsTeacher (Some (linked_teacher (oauth.ProviderUserID info) t))),
               teacher_linked now (user.Teacher_ID t) (oauth.ProviderUserID info) d)
          end
        else if String.eqb (user.User_MetaType usr) "Student" then
          match student_by_id (user.User_MetaID usr) d with
          | None => (Err (Errorf "student meta not found" []), d)
          | Some t =>
              (Ok (Some usr, user.IsStudent (Some (linked_student (oauth.ProviderUserID info) t))),
               student_linked now (user.Student_ID t) (oauth.ProviderUserID info) d)
          end
        else
          (Err (Errorf "unsupported user type for Google OAuth: %s"
                  [AStr (user.User_MetaType usr)]), d)
    end.
Proof.
  intros Hno Hno'. unfold_oauth. rewrite finder_up by done.
  fold (teacher_by_google (oauth.ProviderUserID info) d). rewrite Hno.
  rewrite finder_up by done.
  fold (student_by_google (oauth.ProviderUserID info) d). rewrite Hno'.
  rewrite finder_up by done.
  fold (user_by_email (oauth.Email_ info) d).
  destruct (user_by_email (oauth.Email_ info) d) as [usr|]; [|reflexivity].
  destruct (String.eqb (user.User_MetaType usr) "Teacher").
  - rewrite finder_up by done. fold (teacher_by_id (user.User_MetaID usr) d).
    destruct (teacher_by_id (user.User_MetaID usr) d) as [t|]; [|reflexivity].
    unfold user.UpdateTeacherGoogleUID, wrap. rewrite ExecContext_up by done.
    reflexivity.
  - destruct (String.eqb (user.User_MetaType usr) "Student"); [|reflexivity].
    rewrite finder_up by done. fold (student_by_id (user.User_MetaID usr) d).
    destruct (student_by_id (user.User_MetaID usr) d) as [t|]; [|reflexivity].
    unfold user.UpdateStudentGoogleUID, wrap. rewrite ExecContext_up by done.
    reflexivity.
Qed.
End resolution.

Lemma teacher_found_after_link now uid id (l : list user.Teacher) t :
  find (fun t => user.Teacher_ID t =? id) l = Some t ->
  find (fun t => user.column_is uid (user.Teacher_GoogleUID t)) l = None ->
  find (fun t => user.column_is uid (user.Teacher_GoogleUID t))
    (map (fun t => if user.Teacher_ID t =? id then user.link_teacher_google now uid t else t) l)
  = Some (user.link_teacher_google now uid t).
Proof.
  induction l as [|r l IH]; cbn; [discriminate|].
  destruct (user.Teacher_ID r =? id) eqn:Hid.
  - intros [= <-] _. cbn. rewrite String.eqb_refl. reflexivity.
  - intros Ht. destruct (user.column_is uid (user.Teacher_GoogleUID r)); [discriminate|].
    apply IH. exact Ht.
Qed.

Lemma student_found_after_link now uid id (l : list user.Student) t :
  find (fun t => user.Student_ID t =? id) l = Some t ->
  find (fun t => user.column_is uid (user.Student_GoogleUID t)) l = None ->
  find (fun t => user.column_is uid (user.Student_GoogleUID t))
    (map (fun t => if user.Student_ID t =? id then user.link_student_google now uid t else t) l)
  = Some (user.link_student_google now uid t).
Proof.
  induction l as [|r l IH]; cbn; [discriminate|].
  destruct (user.Student_ID r =? id) eqn:Hid.
  - intros [= <-] _. cbn. rewrite String.eqb_refl. reflexivity.
  - intros Ht. destruct (user.column_is uid (user.Student_GoogleUID r)); [discriminate|].
    apply IH. exact Ht.
Qed.

Lemma find_by_id_teacher id (l : list user.Teacher) t :
  find (fun t => user.Teacher_ID t =? id) l = Some t -> user.Teacher_ID t = id.
Proof. intros [_ H]%find_some. lia. Qed.

Lemma find_by_id_student id (l : list user.Student) t :
  find (fun t => user.Student_ID t =? id) l = Some t -> user.Student_ID t = id.
Proof. intros [_ H]%find_some. lia. Qed.

(** No step of the resolution adds or removes a subject or a role record. *)
Lemma population_with_net n d : population (user.with_net n d) = population d.
Proof. reflexivity. Qed.

Lemma population_teacher_linked now id uid d :
  population (teacher_linked now id uid d) = population d.
Proof.
  unfold population, teacher_linked. cbn. rewrite map_map. do 3 f_equal.
  apply map_ext. intros t. destruct (user.Teacher_ID t =? id); reflexivity.
Qed.

Lemma population_student_linked now id uid d :
  population (student_linked now id uid d) = population d.
Proof.
  unfold population, student_linked. cbn. rewrite map_map. do 2 f_equal.
  apply map_ext. intros t. destruct (user.Student_ID t =? id); reflexivity.
Qed.

Lemma UpdateTeacherGoogleUID_population now id uid d :
  population (snd (user.UpdateTeacherGoogleUID now id uid d)) = population d.
Proof.
  unfold user.UpdateTeacherGoogleUID, wrap.
  destruct (ExecContext_cases
              (user.set_teachers (map (fun t =>
                 if user.Teacher_ID t =? id then user.link_teacher_google now uid t else t))) d)
    as [n [-> | ->]]; cbn [snd]; rewrite population_with_net;
    [apply population_teacher_linked | reflexivity].
Qed.

Lemma UpdateStudentGoogleUID_population now id uid d :
  population (snd (user.UpdateStudentGoogleUID now id uid d)) = population d.
Proof.
  unfold user.UpdateStudentGoogleUID, wrap.
  destruct (ExecContext_cases
              (user.set_students (map (fun t =>
                 if user.Student_ID t =? id then user.link_student_google now uid t else t))) d)
    as [n [-> | ->]]; cbn [snd]; rewrite population_with_net;
    [apply population_student_linked | reflexivity].
Qed.

Lemma findOrCreateGoogleUser_population now info d :
  population (snd (oauth.findOrCreateGoogleUser now info d)) = population d.
Proof.
  unfold_oauth.
  repeat first
    [ reflexivity
    | match goal with
      | |- context [user.finder ?f ?q ?d0] =>
          let E := fresh "E" in
          destruct (user.finder f q d0) as [[[?|]|?] ?] eqn:E;
          apply finder_tables in E as [? ->]; cbn [snd fst]
      | |- context [if String.eqb ?a ?b then _ else _] => destruct (String.eqb a b)
      | |- context [user.UpdateTeacherGoogleUID ?now ?id ?uid ?d0] =>
          let H := fresh "H" in
          pose proof (UpdateTeacherGoogleUID_population now id uid d0) as H;
          destruct (user.UpdateTeacherGoogleUID now id uid d0) as [[] ?];
          cbn [snd fst] in *; rewrite H
      | |- context [user.UpdateStudentGoogleUID ?now ?id ?uid ?d0] =>
          let H := fresh "H" in
          pose proof (UpdateStudentGoogleUID_population now id uid d0) as H;
          destruct (user.UpdateStudentGoogleUID now id uid d0) as [[] ?];
          cbn [snd fst] in *; rewrite H
      end
    | rewrite !population_with_net ].
Qed.

Lemma GoogleCallback_no_account `{Primitives} (ts : token.Service) now jtis code state
    info redirect d :
  code <> "" -> state <> "" ->
  oauth.findOrCreateGoogleUser now info d = (Err (Errorf no_google_account []), d) ->
  oauth.GoogleCallback ts now jtis code state (Ok (info, redirect)) d =
    (oauth_failed no_google_account, d).
Proof.
  intros Hc Hs E. unfold oauth.GoogleCallback, oauth.reply.
  destruct (String.eqb_spec code ""); [done|]. destruct (String.eqb_spec state ""); [done|].
  cbn [orb]. unfold oauth.AuthenticateWithGoogle, bind, auth.lift, ret. rewrite E.
  reflexivity.
Qed.

(** C7, as the code has it, for sign-in with Google over a directory that
    answers.  A teacher whose Google column is the provider subject decides
    first, then a student whose column is: the subject of that role record
    is returned (none if the record points nowhere) and nothing is written.
    Otherwise the address of the profile is looked up among the subjects:
    with no subject the call fails with the no-account error, which the
    handler reports as 401 OAUTH_FAILED; a teacher or a student with its role
    record gets the Google column of that record set to the provider subject
    before the subject is returned; a subject of any other type is refused
    and nothing is written.  Whatever the directory does, no call adds or
    removes a subject or a role record. *)
Theorem google_resolution `{Primitives} (ts : token.Service) (now : Z)
    (jtis : string * string) (info : oauth.OAuthUserInfo) (d : user.DB) :
  user.net d = reachable ->
  (forall t,
     teacher_by_google (oauth.ProviderUserID info) d = Some t ->
     oauth.findOrCreateGoogleUser now info d =
       (Ok (user_by_id (user.Teacher_UserID t) d, user.IsTeacher (Some t)), d)) /\
  (forall t,
     teacher_by_google (oauth.ProviderUserID info) d = None ->
     student_by_google (oauth.ProviderUserID info) d = Some t ->
     oauth.findOrCreateGoogleUser now info d =
       (Ok (user_by_id (user.Student_UserID t) d, user.IsStudent (Some t)), d)) /\
  (teacher_by_google (oauth.ProviderUserID info) d = None ->
   student_by_google (oauth.ProviderUserID info) d = None ->
   (user_by_email (oauth.Email_ info) d = None ->
      oauth.findOrCreateGoogleUser now info d = (Err (Errorf no_google_account []), d) /\
      forall code state redirect, code <> "" -> state <> "" ->
        oauth.GoogleCallback ts now jtis code state (Ok (info, redirect)) d =
          (oauth_failed no_google_account, d)) /\
   (forall usr t,
      user_by_email (oauth.Email_ info) d = Some usr ->
      user.User_MetaType usr = "Teacher" ->
      teacher_by_id (user.User_MetaID usr) d = Some t ->
      let d' := teacher_linked now (user.Teacher_ID t) (oauth.ProviderUserID info) d in
      oauth.findOrCreateGoogleUser now info d =
        (Ok (Some usr, user.IsTeacher (Some (linked_teacher (oauth.ProviderUserID info) t))), d') /\
      teacher_by_google (oauth.ProviderUserID info) d' =
        Some (user.link_teacher_google now (oauth.ProviderUserID info) t)) /\
   (forall usr t,
      user_by_email (oauth.Email_ info) d = Some usr ->
      user.User_MetaType usr = "Student" ->
      student_by_id (user.User_MetaID usr) d = Some t ->
      let d' := student_linked now (user.Student_ID t) (oauth.ProviderUserID info) d in
      oauth.findOrCreateGoogleUser now info d =
        (Ok (Some usr, user.IsStudent (Some (linked_student (oauth.ProviderUserID info) t))), d') /\
      student_by_google (oauth.ProviderUserID info) d' =
        Some (user.link_student_google now (oauth.ProviderUserID info) t)) /\
   (forall usr,
      user_by_email (oauth.Email_ info) d = Some usr ->
      user.User_MetaType usr <> "Teacher" -> user.User_MetaType usr <> "Student" ->
      oauth.findOrCreateGoogleUser now info d =
        (Err (Errorf "unsupported user type for Google OAuth: %s"
                [AStr (user.User_MetaType usr)]), d))) /\
  (forall d0,
     population (snd (oauth.findOrCreateGoogleUser now info d0)) = population d0).
Proof.
  intros Hup. split; [|split; [|split]].
  - intros t. apply resolve_teacher. exact Hup.
  - intros t. apply resolve_student. exact Hup.
  - intros Hno Hno'. pose proof (resolve_by_email now info d Hup Hno Hno') as E.
    split; [|split; [|split]].
    + intros Hu. rewrite Hu in E. split; [exact E|].
      intros code state redirect Hc Hs. apply GoogleCallback_no_account; done.
    + intros usr t Hu Hty Ht. rewrite Hu, Hty, Ht in E. cbn in E. split; [exact E|].
      unfold teacher_by_google, teacher_linked. cbn [user.teachers user.set_teachers].
      rewrite (find_by_id_teacher _ _ _ Ht).
      apply teacher_found_after_link; [exact Ht | exact Hno].
    + intros usr t Hu Hty Ht. rewrite Hu, Hty, Ht in E. cbn in E. split; [exact E|].
      unfold student_by_google, student_linked. cbn [user.students user.set_students].
      rewrite (find_by_id_student _ _ _ Ht).
      apply student_found_after_link; [exact Ht | exact Hno'].
    + intros usr Hu Hty Hty'. rewrite Hu in E.
      destruct (String.eqb_spec (user.User_MetaType usr) "Teacher"); [done|].
      destruct (String.eqb_spec (user.User_MetaType usr) "Student"); [done|].
      exact E.
  - intros d0. apply findOrCreateGoogleUser_population.
Qed.

(** Scenario S4: the teacher of the sample directory signs in with Google
    for the first time and is linked. *)
Lemma google_resolution_witness :
  let info := google_profile "google-xyz" "t@example.com" in
  let d' := teacher_linked (60 * time.Second) 456 "google-xyz" (sample_db reachable) in
  oauth.findOrCreateGoogleUser (60 * time.Second) info (sample_db reachable) =
    (Ok (Some sample_user, user.IsTeacher (Some (linked_teacher "google-xyz" sample_teacher))), d') /\
  teacher_by_google "google-xyz" d' =
    Some (user.link_teacher_google (60 * time.Second) "google-xyz" sample_teacher).
Proof.
  intros info d'.
  destruct (@google_resolution sample_primitives sample_token_service (60 * time.Second)
              ("jti-1", "jti-2") info (sample_db reachable) eq_refl)
    as (_ & _ & Hemail & _).
  destruct (Hemail eq_refl eq_refl) as (_ & Hteacher & _).
  apply (Hteacher sample_user sample_teacher); reflexivity.
Defined.

(** A parent whose address matches the profile is neither linked nor told
    that there is no account; and the reply to a profile that matches nothing
    (scenario S5) carries the code OAUTH_FAILED. *)
Lemma google_refuses_parent :
  oauth.findOrCreateGoogleUser 0 (google_profile "google-xyz" "p@example.com") parent_db =
    (Err (Errorf "unsupported user type for Google OAuth: %s" [AStr "Parent"]), parent_db) /\
  fst (@oauth.GoogleCallback sample_primitives sample_token_service 0 ("jti-1", "jti-2")
         "code" "state" (Ok (google_profile "google-new" "unknown@example.com", "/"))
         (sample_db reachable))
  = oauth_failed no_google_account.
Proof. vm_compute. split; reflexivity. Qed.

(** ** Resolution of a Clever and of an iCloud profile

    The two other providers resolve a profile as Google does, over their own
    columns: Clever over teachers and students, iCloud over students and
    parents. *)

Lemma found_after_update {A} (id_of : A -> Z) (col : A -> option string) (f : A -> A)
    uid id (l : list A) a :
  (forall x, col (f x) = Some uid) ->
  find (fun x => id_of x =? id) l = Some a ->
  find (fun x => user.column_is uid (col x)) l = None ->
  find (fun x => user.column_is uid (col x))
    (map (fun x => if id_of x =? id then f x else x) l) = Some (f a).
Proof.
  intros Hf. induction l as [|r l IH]; cbn; [discriminate|].
  destruct (id_of r =? id) eqn:Hid.
  - intros [= <-] _. rewrite Hf. cbn. rewrite String.eqb_refl. reflexivity.
  - intros Ha. destruct (user.column_is uid (col r)); [discriminate|].
    apply IH. exact Ha.
Qed.

Lemma update_population g format d :
  (forall d0, population (g d0) = population d0) ->
  population (snd (wrap (fun e => Errorf format [AErr e]) (user.ExecContext g) d))
    = population d.
Proof.
  intros Hg. unfold wrap.
  destruct (ExecContext_cases g d) as [n [-> | ->]]; cbn [snd];
    rewrite population_with_net; [apply Hg | reflexivity].
Qed.

Lemma population_teachers_updated f id d :
  (forall t, user.Teacher_ID (f t) = user.Teacher_ID t) ->
  population (teachers_updated f id d) = population d.
Proof.
  intros Hf. unfold population, teachers_updated. cbn. rewrite map_map. do 3 f_equal.
  apply map_ext. intros t. destruct (user.Teacher_ID t =? id); [apply Hf | reflexivity].
Qed.

Lemma population_students_updated f id d :
  (forall t, user.Student_ID (f t) = user.Student_ID t) ->
  population (students_updated f id d) = population d.
Proof.
  intros Hf. unfold population, students_updated. cbn. rewrite map_map. do 2 f_equal.
  apply map_ext. intros t. destruct (user.Student_ID t =? id); [apply Hf | reflexivity].
Qed.

Lemma population_parents_updated f id d :
  (forall t, user.Parent_ID (f t) = user.Parent_ID t) ->
  population (parents_updated f id d) = population d.
Proof.
  intros Hf. unfold population, parents_updated. cbn. rewrite map_map. f_equal.
  apply map_ext. intros t. destruct (user.Parent_ID t =? id); [apply Hf | reflexivity].
Qed.

Ltac unfold_resolution :=
  cbv beta iota zeta delta [oauth.findOrCreateCleverUser oauth.findOrCreateiCloudUser
    bind attempt ret fail
    user.FindTeacherByCleverUID user.FindStudentByCleverUID
    user.FindStudentByiCloudUID user.FindParentByiCloudUID
    user.FindByID user.FindByEmail user.FindTeacher user.FindStudent user.FindParent].

Ltac population_steps :=
  repeat first
    [ reflexivity
    | match goal with
      | |- context [user.finder ?f ?q ?d0] =>
          let E := fresh "E" in
          destruct (user.finder f q d0) as [[[?|]|?] ?] eqn:E;
          apply finder_tables in E as [? ->]; cbn [snd fst]
      | |- context [if String.eqb ?a ?b then _ else _] => destruct (String.eqb a b)
      | |- context [wrap ?w (?upd ?now ?id ?uid) ?d0] =>
          let H := fresh "H" in
          assert (H : population (snd (upd now id uid d0)) = population d0)
            by (apply update_population; intros;
                first [ apply (population_teachers_updated _ id)
                      | apply (population_students_updated _ id)
                      | apply (population_parents_updated _ id) ]; reflexivity);
          unfold wrap at 1;
          destruct (upd now id uid d0) as [[] ?];
          cbn [snd fst] in *; rewrite H
      end
    | rewrite !population_with_net ].

Lemma findOrCreateCleverUser_population now info d :
  population (snd (oauth.findOrCreateCleverUser now info d)) = population d.
Proof. unfold_resolution. population_steps. Qed.

Lemma findOrCreateiCloudUser_population now info d :
  population (snd (oauth.findOrCreateiCloudUser now info d)) = population d.
Proof. unfold_resolution. population_steps. Qed.

Ltac resolution_steps Hup :=
  unfold_resolution;
  repeat first
    [ reflexivity
    | rewrite finder_up by exact Hup; cbv beta
    | match goal with
      | H : find ?p ?l = _ |- context [find ?p ?l] => rewrite H
      | |- context [match find ?p ?l with _ => _ end] => destruct (find p l) eqn:?
      | |- context [if String.eqb ?a ?b then _ else _] => destruct (String.eqb a b)
      | |- context [user.ExecContext ?g ?d] => rewrite (ExecContext_up g d Hup Hup)
      end
    | progress unfold wrap, user.UpdateTeacherCleverUID, user.UpdateStudentCleverUID,
        user.UpdateStudentiCloudUID, user.UpdateParentiCloudUID ].

(** X28: the Clever resolution on a directory that answers.  First a
    teacher, then a student whose Clever column is the provider subject: the
    subject it points to is returned and nothing is written.  Else the
    subject with the profile's address: none is the no-account error; a
    teacher or a student with its role record has the Clever column of that
    record set and is returned, the record as read with the column set; a
    missing role record and any other type of subject are errors, and
    nothing is written. *)
Lemma clever_resolution now info d :
  user.net d = reachable ->
  let uid := oauth.ProviderUserID info in
  oauth.findOrCreateCleverUser now info d =
    match teacher_by_clever uid d with
    | Some t => (Ok (user_by_id (user.Teacher_UserID t) d, user.IsTeacher (Some t)), d)
    | None =>
        match student_by_clever uid d with
        | Some t => (Ok (user_by_id (user.Student_UserID t) d, user.IsStudent (Some t)), d)
        | None =>
            match user_by_email (oauth.Email_ info) d with
            | None =>
                (Err (Errorf "no account found for this Clever account. Please sign up first."
                        []), d)
            | Some usr =>
                if String.eqb (user.User_MetaType usr) "Teacher" then
                  match teacher_by_id (user.User_MetaID usr) d with
                  | None => (Err (Errorf "teacher meta not found" []), d)
                  | Some t =>
                      (Ok (Some usr,
                           user.IsTeacher
                             (Some (user.link_teacher_clever (user.Teacher_UpdatedAt t) uid t))),
                       teachers_updated (user.link_teacher_clever now uid) (user.Teacher_ID t) d)
                  end
                else if String.eqb (user.User_MetaType usr) "Student" then
                  match student_by_id (user.User_MetaID usr) d with
                  | None => (Err (Errorf "student meta not found" []), d)
                  | Some t =>
                      (Ok (Some usr,
                           user.IsStudent
                             (Some (user.link_student_clever (user.Student_UpdatedAt t) uid t))),
                       students_updated (user.link_student_clever now uid) (user.Student_ID t) d)
                  end
                else
                  (Err (Errorf "unsupported user type for Clever SSO: %s"
                          [AStr (user.User_MetaType usr)]), d)
            end
        end
    end.
Proof.
  intros Hup uid. subst uid.
  unfold teacher_by_clever, student_by_clever, user_by_email, teacher_by_id, student_by_id,
    user_by_id.
  resolution_steps Hup.
Qed.

(** X29: the iCloud resolution on a directory that answers.  First a
    student, then a parent whose iCloud column is the provider subject: the
    subject it points to is returned and nothing is written.  Else the
    subject with the profile's address: none is the no-account error; a
    student or a parent with its role record has the iCloud column of that
    record set and is returned; a missing role record and any other type of
    subject, a teacher among them, are errors, and nothing is written. *)
Lemma icloud_resolution now info d :
  user.net d = reachable ->
  let uid := oauth.ProviderUserID info in
  oauth.findOrCreateiCloudUser now info d =
    match student_by_icloud uid d with
    | Some t => (Ok (user_by_id (user.Student_UserID t) d, user.IsStudent (Some t)), d)
    | None =>
        match parent_by_icloud uid d with
        | Some t => (Ok (user_by_id (user.Parent_UserID t) d, user.IsParent (Some t)), d)
        | None =>
            match user_by_email (oauth.Email_ info) d with
            | None =>
                (Err (Errorf "no account found for this iCloud account. Please sign up first."
                        []), d)
            | Some usr =>
                if String.eqb (user.User_MetaType usr) "Student" then
                  match student_by_id (user.User_MetaID usr) d with
                  | None => (Err (Errorf "student meta not found" []), d)
                  | Some t =>
                      (Ok (Some usr,
                           user.IsStudent
                             (Some (user.link_student_icloud (user.Student_UpdatedAt t) uid t))),
                       students_updated (user.link_student_icloud now uid) (user.Student_ID t) d)
                  end
                else if String.eqb (user.User_MetaType usr) "Parent" then
                  match parent_by_id (user.User_MetaID usr) d with
                  | None => (Err (Errorf "parent meta not found" []), d)
                  | Some t =>
                      (Ok (Some usr,
                           user.IsParent
                             (Some (user.link_parent_icloud (user.Parent_UpdatedAt t) uid t))),
                       parents_updated (user.link_parent_icloud now uid) (user.Parent_ID t) d)
                  end
                else
                  (Err (Errorf "unsupported user type for iCloud Sign In: %s (iCloud is for students and parents only)"
                          [AStr (user.User_MetaType usr)]), d)
            end
        end
    end.
Proof.
  intros Hup uid. subst uid.
  unfold student_by_icloud, parent_by_icloud, user_by_email, student_by_id, parent_by_id,
    user_by_id.
  resolution_steps Hup.
Qed.

(** After a link the record is found by the provider subject. *)
Lemma clever_link_visible now uid d usr :
  teacher_by_clever uid d = None -> student_by_clever uid d = None ->
  (forall t, teacher_by_id (user.User_MetaID usr) d = Some t ->
     teacher_by_clever uid (teachers_updated (user.link_teacher_clever now uid)
                              (user.Teacher_ID t) d)
       = Some (user.link_teacher_clever now uid t)) /\
  (forall t, student_by_id (user.User_MetaID usr) d = Some t ->
     student_by_clever uid (students_updated (user.link_student_clever now uid)
                              (user.Student_ID t) d)
       = Some (user.link_student_clever now uid t)).
Proof.
  intros Hno Hno'. split; intros t Ht.
  - unfold teacher_by_clever, teachers_updated. cbn [user.teachers user.set_teachers].
    rewrite (find_by_id_teacher _ _ _ Ht).
    apply (found_after_update user.Teacher_ID user.Teacher_CleverUID); [reflexivity | exact Ht | exact Hno].
  - unfold student_by_clever, students_updated. cbn [user.students user.set_students].
    rewrite (find_by_id_student _ _ _ Ht).
    apply (found_after_update user.Student_ID user.Student_CleverUID); [reflexivity | exact Ht | exact Hno'].
Qed.

Lemma icloud_link_visible now uid d usr :
  student_by_icloud uid d = None -> parent_by_icloud uid d = None ->
  (forall t, student_by_id (user.User_MetaID usr) d = Some t ->
     student_by_icloud uid (students_updated (user.link_student_icloud now uid)
                              (user.Student_ID t) d)
       = Some (user.link_student_icloud now uid t)) /\
  (forall t, parent_by_id (user.User_MetaID usr) d = Some t ->
     parent_by_icloud uid (parents_updated (user.link_parent_icloud now uid)
                             (user.Parent_ID t) d)
       = Some (user.link_parent_icloud now uid t)).
Proof.
  intros Hno Hno'. split; intros t Ht.
  - unfold student_by_icloud, students_updated. cbn [user.students user.set_students].
    rewrite (find_by_id_student _ _ _ Ht).
    apply (found_after_update user.Student_ID user.Student_ICloudUID); [reflexivity | exact Ht | exact Hno].
  - unfold parent_by_icloud, parents_updated. cbn [user.parents user.set_parents].
    assert (Hid : user.Parent_ID t = user.User_MetaID usr)
      by (apply find_some in Ht as [_ H]; lia).
    rewrite Hid.
    apply (found_after_update user.Parent_ID user.Parent_ICloudUID); [reflexivity | exact Ht | exact Hno'].
Qed.

(** A teacher is refused by the iCloud resolution, as a parent is by
    Google's. *)
Lemma icloud_refuses_teacher :
  oauth.findOrCreateiCloudUser 0 (google_profile "apple-xyz" "t@example.com")
    (sample_db reachable) =
  (Err (Errorf "unsupported user type for iCloud Sign In: %s (iCloud is for students and parents only)"
          [AStr "Teacher"]), sample_db reachable).
Proof. vm_compute. reflexivity. Qed.

(** ** The life of a counter and of a lockout *)

Lemma in_int_small z : 0 <= z <= max_int -> in_int z = true.
Proof.
  unfold in_int, min_int, max_int. intros.
  apply andb_true_iff; split; apply Z.leb_le; lia.
Qed.

Lemma GetAttemptCount_up l now email ip m :
  match redis.lookup now (ratelimit.LoginAttemptKey email ip) m with
  | Some e => 0 <= redis.val e <= max_int
  | None => True
  end ->
  ratelimit.GetAttemptCount l now email ip (up m) =
    (Ok match redis.lookup now (ratelimit.LoginAttemptKey email ip) m with
        | Some e => redis.val e
        | None => 0
        end, up m).
Proof.
  intros Hval. unfold ratelimit.GetAttemptCount, bind, attempt, redis.Get_Int.
  rewrite call_up.
  destruct (redis.lookup now (ratelimit.LoginAttemptKey email ip) m) as [e|]; cbn;
    [|reflexivity].
  rewrite in_int_small by done. reflexivity.
Qed.

(** X1: failures recorded within the window of the first are counted one by
    one; the window is the configured one in whole seconds, as it is sent to
    the store.  After [n] of them, fewer than [maxAttempts],
    [GetAttemptCount] answers [n] and the admission check allows the attempt
    and reports [maxAttempts - n] attempts left, both without changing the
    store. *)
Theorem recorded_failures_are_counted (l : ratelimit.Limiter) (email ip : string)
    (m : gmap string redis.entry) (t1 : Z) (ts : list Z) (now : Z) :
  0 < ratelimit.window l ->
  ratelimit.maxAttempts l <= max_int ->
  redis.lookup t1 (ratelimit.LoginLockoutKey email ip) m = None ->
  redis.lookup t1 (ratelimit.LoginAttemptKey email ip) m = None ->
  Forall (fun t => t < t1 + counting_window l) ts ->
  Z.of_nat (length (t1 :: ts)) < ratelimit.maxAttempts l ->
  t1 <= now < t1 + counting_window l ->
  let n := Z.of_nat (length (t1 :: ts)) in
  let c := record_failures l email ip (t1 :: ts) (up m) in
  ratelimit.GetAttemptCount l now email ip c = (Ok n, c) /\
  ratelimit.CheckLoginAttempt l now email ip c =
    (Ok (true, ratelimit.maxAttempts l - n, 0), c).
Proof.
  intros HW Hmax Hlk Hak Hts Hn Hnow n c. subst n c.
  cbn [length] in *. rewrite Nat2Z.inj_succ in *.
  rewrite record_failures_first by (try done; lia).
  set (e := {| redis.val := 1 + Z.of_nat (length ts);
               redis.deadline := Some (t1 + counting_window l) |}).
  set (m' := <[ratelimit.LoginAttemptKey email ip := e]> m).
  assert (Hak' : redis.lookup now (ratelimit.LoginAttemptKey email ip) m' = Some e).
  { subst m'. unfold redis.lookup, redis.live. rewrite lookup_insert_eq. cbn.
    destruct (Z.ltb_spec now (t1 + counting_window l)); [done | lia]. }
  assert (Hlk' : redis.lookup now (ratelimit.LoginLockoutKey email ip) m' = None).
  { subst m'. rewrite redis_lookup_insert_ne by apply keys_distinct.
    apply (lookup_None_later t1); [lia | done]. }
  split.
  - rewrite GetAttemptCount_up; rewrite Hak'; cbn; [do 2 f_equal; lia | lia].
  - replace (Z.succ (Z.of_nat (length ts))) with (1 + Z.of_nat (length ts)) by lia.
    apply check_allows; [done | rewrite Hak'; reflexivity | lia | done].
Qed.

Lemma recorded_failures_are_counted_witness :
  let c := record_failures default_limiter "x@y.com" "10.0.0.1"
             [0; time.Second; 2 * time.Second] (up ∅) in
  ratelimit.GetAttemptCount default_limiter (3 * time.Second) "x@y.com" "10.0.0.1" c
    = (Ok 3, c) /\
  ratelimit.CheckLoginAttempt default_limiter (3 * time.Second) "x@y.com" "10.0.0.1" c
    = (Ok (true, 5 - 3, 0), c).
Proof.
  apply (recorded_failures_are_counted default_limiter "x@y.com" "10.0.0.1" ∅ 0
           [time.Second; 2 * time.Second] (3 * time.Second)).
  - reflexivity.
  - vm_compute. discriminate.
  - reflexivity.
  - reflexivity.
  - repeat constructor.
  - reflexivity.
  - vm_compute. split; [discriminate | reflexivity].
Defined.

(** X2: the window is fixed by the first failure; it is the configured
    window in whole seconds, as it is sent to the store, which is the
    configured window when that is a whole number of seconds.  Whatever the
    number of failures recorded after the first, once the window has passed
    since the first one the count is zero again, the admission check allows
    with all [maxAttempts] attempts left, and the next failure opens a new
    window. *)
Theorem counting_window_is_fixed (l : ratelimit.Limiter) (email ip : string)
    (m : gmap string redis.entry) (t1 : Z) (ts : list Z) (now : Z) :
  0 < ratelimit.window l ->
  0 < ratelimit.maxAttempts l <= max_int ->
  redis.lookup t1 (ratelimit.LoginLockoutKey email ip) m = None ->
  redis.lookup t1 (ratelimit.LoginAttemptKey email ip) m = None ->
  Forall (fun t => t < t1 + counting_window l) ts ->
  1 + Z.of_nat (length ts) <= max_int ->
  t1 + counting_window l <= now ->
  let c := record_failures l email ip (t1 :: ts) (up m) in
  ratelimit.GetAttemptCount l now email ip c = (Ok 0, c) /\
  ratelimit.CheckLoginAttempt l now email ip c = (Ok (true, ratelimit.maxAttempts l, 0), c) /\
  redis.Get_Int now (ratelimit.LoginAttemptKey email ip)
    (snd (ratelimit.RecordFailedAttempt l now email ip c)) =
    (Ok 1, snd (ratelimit.RecordFailedAttempt l now email ip c)) /\
  redis.TTL now (ratelimit.LoginAttemptKey email ip)
    (snd (ratelimit.RecordFailedAttempt l now email ip c)) =
    (Ok (counting_window l), snd (ratelimit.RecordFailedAttempt l now email ip c)) /\
  (forall k, 0 < k -> ratelimit.window l = k * time.Second ->
             counting_window l = ratelimit.window l).
Proof.
  intros HW Hmax Hlk Hak Hts Hn Hnow c. subst c.
  pose proof (counting_window_pos l HW) as Hpos.
  rewrite record_failures_first by done.
  set (e := {| redis.val := 1 + Z.of_nat (length ts);
               redis.deadline := Some (t1 + counting_window l) |}).
  set (m' := <[ratelimit.LoginAttemptKey email ip := e]> m).
  assert (Hak' : redis.lookup now (ratelimit.LoginAttemptKey email ip) m' = None).
  { subst m'. unfold redis.lookup, redis.live. rewrite lookup_insert_eq. cbn.
    destruct (Z.ltb_spec now (t1 + counting_window l)); [lia | done]. }
  assert (Hlk' : redis.lookup now (ratelimit.LoginLockoutKey email ip) m' = None).
  { subst m'. rewrite redis_lookup_insert_ne by apply keys_distinct.
    apply (lookup_None_later t1); [lia | done]. }
  split; [|split].
  - rewrite GetAttemptCount_up; rewrite Hak'; done.
  - replace (ratelimit.maxAttempts l) with (ratelimit.maxAttempts l - 0) at 1 by lia.
    apply check_allows; [done | rewrite Hak'; reflexivity | lia | lia].
  - rewrite record_first by done. cbn [snd].
    unfold redis.Get_Int, redis.TTL. rewrite !call_up.
    unfold redis.lookup, redis.live. rewrite lookup_insert_eq. cbn.
    destruct (Z.ltb_spec now (now + counting_window l)); [|lia]. cbn.
    split; [reflexivity|]. split; [|intros k; apply counting_window_whole].
    do 2 f_equal. replace (now + counting_window l - now) with (counting_window l) by lia.
    unfold counting_window. apply seconds_left_whole.
Qed.

Lemma counting_window_is_fixed_witness :
  let c := record_failures default_limiter "x@y.com" "10.0.0.1"
             [0; 9 * time.Minute] (up ∅) in
  ratelimit.GetAttemptCount default_limiter (10 * time.Minute) "x@y.com" "10.0.0.1" c
    = (Ok 0, c) /\
  ratelimit.CheckLoginAttempt default_limiter (10 * time.Minute) "x@y.com" "10.0.0.1" c
    = (Ok (true, 5, 0), c).
Proof.
  intros c.
  destruct (counting_window_is_fixed default_limiter "x@y.com" "10.0.0.1" ∅ 0
              [9 * time.Minute] (10 * time.Minute)) as (H1 & H2 & _).
  - reflexivity.
  - vm_compute. split; [reflexivity | discriminate].
  - reflexivity.
  - reflexivity.
  - repeat constructor.
  - vm_compute. discriminate.
  - vm_compute. discriminate.
  - split; [exact H1 | exact H2].
Defined.

(** X3: a lockout ends by itself.  When the admission check has locked a pair
    out at [now], any check made when the lockout duration has passed allows
    the attempt again, with all [maxAttempts] attempts left: the counter was
    deleted when the pair was locked out. *)
Theorem lockout_expires (l : ratelimit.Limiter) (email ip : string)
    (m : gmap string redis.entry) (now : Z) (e : redis.entry) (t : Z) :
  0 < ratelimit.lockoutDuration l ->
  0 < ratelimit.maxAttempts l <= max_int ->
  redis.lookup now (ratelimit.LoginLockoutKey email ip) m = None ->
  redis.lookup now (ratelimit.LoginAttemptKey email ip) m = Some e ->
  ratelimit.maxAttempts l <= redis.val e <= max_int ->
  now + ratelimit.lockoutDuration l <= t ->
  let c := snd (ratelimit.CheckLoginAttempt l now email ip (up m)) in
  ratelimit.CheckLoginAttempt l now email ip (up m) =
    (Ok (false, 0, ratelimit.lockoutDuration l), c) /\
  ratelimit.CheckLoginAttempt l t email ip c = (Ok (true, ratelimit.maxAttempts l, 0), c).
Proof.
  intros HL Hmax Hlk Hak Hcount Ht c. subst c.
  rewrite (check_locks l email ip m now e) by (try done; lia). cbn [snd].
  split; [reflexivity|].
  replace (ratelimit.maxAttempts l) with (ratelimit.maxAttempts l - 0) at 1 by lia.
  apply check_allows; [| rewrite redis_lookup_delete_eq; reflexivity | lia | lia].
  rewrite redis_lookup_delete_ne by apply keys_distinct.
  unfold redis.lookup, redis.live. rewrite lookup_insert_eq. cbn.
  destruct (Z.ltb_spec t (now + ratelimit.lockoutDuration l)); [lia | done].
Qed.

Lemma lockout_expires_witness :
  let m : gmap string redis.entry :=
    {[ ratelimit.LoginAttemptKey "x@y.com" "10.0.0.1" :=
         {| redis.val := 5; redis.deadline := Some (10 * time.Minute) |} ]} in
  let c := snd (ratelimit.CheckLoginAttempt default_limiter time.Minute "x@y.com" "10.0.0.1"
                  (up m)) in
  ratelimit.CheckLoginAttempt default_limiter (16 * time.Minute) "x@y.com" "10.0.0.1" c
    = (Ok (true, 5, 0), c).
Proof.
  intros m c.
  destruct (lockout_expires default_limiter "x@y.com" "10.0.0.1" m time.Minute
              {| redis.val := 5; redis.deadline := Some (10 * time.Minute) |}
              (16 * time.Minute)) as (_ & H).
  - reflexivity.
  - vm_compute. split; [reflexivity | discriminate].
  - vm_compute. reflexivity.
  - vm_compute. reflexivity.
  - vm_compute. split; discriminate.
  - vm_compute. discriminate.
  - exact H.
Defined.

(** X4: a recorded success and a cleared lockout.  On a store that answers,
    [RecordSuccessfulAttempt] sets the count of the pair back to zero and
    leaves its lockout marker as it is; [ClearLockout] removes counter and
    marker, so that the next check allows the attempt with all
    [maxAttempts] attempts left, whatever the pair's state was. *)
Theorem success_and_clearing_reset (l : ratelimit.Limiter) (email ip : string)
    (m : gmap string redis.entry) (now : Z) :
  0 < ratelimit.maxAttempts l <= max_int ->
  let c := snd (ratelimit.RecordSuccessfulAttempt l now email ip (up m)) in
  let c' := snd (ratelimit.ClearLockout l now email ip (up m)) in
  (ratelimit.RecordSuccessfulAttempt l now email ip (up m) = (Ok tt, c) /\
   (forall t, ratelimit.GetAttemptCount l t email ip c = (Ok 0, c)) /\
   (forall t, redis.TTL t (ratelimit.LoginLockoutKey email ip) c =
              (fst (redis.TTL t (ratelimit.LoginLockoutKey email ip) (up m)), c))) /\
  (ratelimit.ClearLockout l now email ip (up m) = (Ok tt, c') /\
   (forall t, ratelimit.GetAttemptCount l t email ip c' = (Ok 0, c')) /\
   (forall t, ratelimit.CheckLoginAttempt l t email ip c' =
              (Ok (true, ratelimit.maxAttempts l, 0), c'))).
Proof.
  intros Hmax c c'. subst c c'.
  unfold ratelimit.RecordSuccessfulAttempt, ratelimit.ClearLockout, wrap, redis.Del.
  rewrite !call_up. cbn [fst snd foldr].
  split; (split; [reflexivity|]); split; intros t.
  - rewrite GetAttemptCount_up; rewrite redis_lookup_delete_eq; done.
  - unfold redis.TTL. rewrite !call_up.
    rewrite redis_lookup_delete_ne by apply keys_distinct.
    destruct (redis.lookup t (ratelimit.LoginLockoutKey email ip) m) as [e|];
      [destruct (redis.deadline e)|]; reflexivity.
  - rewrite GetAttemptCount_up;
      rewrite redis_lookup_delete_ne by (apply not_eq_sym, keys_distinct);
      rewrite redis_lookup_delete_eq; done.
  - replace (ratelimit.maxAttempts l) with (ratelimit.maxAttempts l - 0) at 1 by lia.
    apply check_allows; [apply redis_lookup_delete_eq | | lia | lia].
    rewrite redis_lookup_delete_ne by (apply not_eq_sym, keys_distinct).
    rewrite redis_lookup_delete_eq. reflexivity.
Qed.

Lemma success_and_clearing_reset_witness :
  let c' := snd (ratelimit.ClearLockout default_limiter time.Minute "x@y.com" "10.0.0.1"
                   (auth.rdb locked_world)) in
  ratelimit.CheckLoginAttempt default_limiter time.Minute "x@y.com" "10.0.0.1" c'
    = (Ok (true, 5, 0), c').
Proof.
  intros c'.
  destruct (success_and_clearing_reset default_limiter "x@y.com" "10.0.0.1"
              {[ ratelimit.LoginLockoutKey "x@y.com" "10.0.0.1" :=
                   {| redis.val := 1; redis.deadline := Some (15 * time.Minute) |} ]}
              time.Minute) as (_ & _ & _ & H).
  - vm_compute. split; [reflexivity | discriminate].
  - apply H.
Defined.

(** ** The keys of a pair *)

Lemma append_colon_inj ip ip' e e' :
  no_colon ip = true -> no_colon ip' = true ->
  ip +:+ ":" +:+ e = ip' +:+ ":" +:+ e' -> ip = ip' /\ e = e'.
Proof.
  revert ip'. induction ip as [|c r IH]; intros [|c' r'] H H' E;
    rewrite ?append_cons, ?append_nil in E; cbn in H, H'.
  - injection E as ->. done.
  - injection E as <- _. discriminate.
  - injection E as -> _. discriminate.
  - injection E as -> Hr.
    apply andb_true_iff in H as [_ H]. apply andb_true_iff in H' as [_ H'].
    destruct (IH r' H H' Hr) as [-> ->]. done.
Qed.

(** X5: two clients never share a counter or a lockout when the client
    addresses hold no colon, as IPv4 addresses do: the keys of two different
    pairs are different.  (The address comes first in a key and is followed
    by a colon, so an address with colons can be read in two ways.) *)
Theorem keys_of_pairs_are_distinct (email ip email' ip' : string) :
  no_colon ip = true -> no_colon ip' = true ->
  (email, ip) <> (email', ip') ->
  ratelimit.LoginAttemptKey email ip <> ratelimit.LoginAttemptKey email' ip' /\
  ratelimit.LoginLockoutKey email ip <> ratelimit.LoginLockoutKey email' ip' /\
  ratelimit.LoginAttemptKey email ip <> ratelimit.LoginLockoutKey email' ip' /\
  ratelimit.LoginLockoutKey email ip <> ratelimit.LoginAttemptKey email' ip'.
Proof.
  intros Hip Hip' Hne. repeat split.
  - unfold ratelimit.LoginAttemptKey. intros H. injection H as H.
    destruct (append_colon_inj ip ip' email email' Hip Hip' H) as [-> ->]. done.
  - unfold ratelimit.LoginLockoutKey. intros H. injection H as H.
    destruct (append_colon_inj ip ip' email email' Hip Hip' H) as [-> ->]. done.
  - apply keys_distinct.
  - apply not_eq_sym, keys_distinct.
Qed.

Lemma keys_of_pairs_are_distinct_witness :
  ratelimit.LoginAttemptKey "a@x.com" "10.0.0.1" <> ratelimit.LoginAttemptKey "a@x.com" "10.0.0.12".
Proof.
  destruct (keys_of_pairs_are_distinct "a@x.com" "10.0.0.1" "a@x.com" "10.0.0.12")
    as (H & _); [reflexivity | reflexivity | discriminate | exact H].
Defined.

(** An address with colons: two different pairs with one key. *)
Lemma keys_collide :
  ratelimit.LoginAttemptKey "2:a@x.com" "::1" = ratelimit.LoginAttemptKey "a@x.com" "::1:2".
Proof. vm_compute. reflexivity. Qed.

(** ** What the limiter leaves alone *)

Lemma call_frame {A} (f : gmap string redis.entry -> result A * gmap string redis.entry)
    (P : gmap string redis.entry -> Prop) c :
  P (redis.entries c) -> (forall m, P m -> P (snd (f m))) ->
  P (redis.entries (snd (redis.call f c))).
Proof.
  intros Hc Hf. destruct (call_cases f c) as [[n ->] | [n ->]]; cbn; auto.
Qed.

Section frame.
Variables (l : ratelimit.Limiter) (now : Z) (email ip : string) (k : string).
Hypothesis Hak : k <> ratelimit.LoginAttemptKey email ip.
Hypothesis Hlk : k <> ratelimit.LoginLockoutKey email ip.

Let same (v : option redis.entry) (m : gmap string redis.entry) : Prop := m !! k = v.

Lemma call_same {A} (f : gmap string redis.entry -> result A * gmap string redis.entry) v c :
  (forall m, snd (f m) !! k = m !! k) ->
  redis.entries c !! k = v -> redis.entries (snd (redis.call f c)) !! k = v.
Proof.
  intros Hf Hc. apply (call_frame f (same v)); [exact Hc|].
  unfold same. intros m <-. apply Hf.
Qed.

Lemma TTL_same key v c :
  redis.entries c !! k = v -> redis.entries (snd (redis.TTL now key c)) !! k = v.
Proof.
  apply call_same. intros m.
  destruct (redis.lookup now key m) as [e|]; [destruct (redis.deadline e)|]; reflexivity.
Qed.

Lemma Get_Int_same key v c :
  redis.entries c !! k = v -> redis.entries (snd (redis.Get_Int now key c)) !! k = v.
Proof.
  apply call_same. intros m.
  destruct (redis.lookup now key m) as [e|]; [destruct (in_int (redis.val e))|]; reflexivity.
Qed.

Lemma Set_same key value expiration v c :
  k <> key ->
  redis.entries c !! k = v ->
  redis.entries (snd (redis.Set_ now key value expiration c)) !! k = v.
Proof. intros Hk. apply call_same. intros m. cbn. apply lookup_insert_ne. done. Qed.

Lemma Del_same keys v c :
  Forall (fun key => k <> key) keys ->
  redis.entries c !! k = v -> redis.entries (snd (redis.Del now keys c)) !! k = v.
Proof.
  intros Hk. apply call_same. intros m. cbn.
  induction Hk as [|key keys Hkey _ IH]; cbn; [done|].
  rewrite lookup_delete_ne by done. exact IH.
Qed.

Lemma Incr_same key v c :
  k <> key ->
  redis.entries c !! k = v -> redis.entries (snd (redis.Incr now key c)) !! k = v.
Proof.
  intros Hk. apply call_same. intros m.
  destruct (redis.lookup now key m) as [e|]; cbn;
    [destruct (in_int (redis.val e) && (redis.val e <? max_int)); cbn|];
    try reflexivity; apply lookup_insert_ne; done.
Qed.

Lemma Expire_same key expiration v c :
  k <> key ->
  redis.entries c !! k = v ->
  redis.entries (snd (redis.Expire now key expiration c)) !! k = v.
Proof.
  intros Hk. apply call_same. intros m.
  destruct (redis.lookup now key m) as [e|]; cbn;
    [destruct (0 <? redis.formatSec expiration); cbn|];
    try reflexivity; [apply lookup_insert_ne | apply lookup_delete_ne]; done.
Qed.

Ltac frame_step :=
  match goal with
  | H : redis.entries ?c !! _ = _ |- context [redis.TTL _ ?key ?c] =>
      let H' := fresh "H" in
      pose proof (TTL_same key _ c H) as H';
      destruct (redis.TTL now key c) as [[?|[]] ?]
  | H : redis.entries ?c !! _ = _ |- context [redis.Get_Int _ ?key ?c] =>
      let H' := fresh "H" in
      pose proof (Get_Int_same key _ c H) as H';
      destruct (redis.Get_Int now key c) as [[?|[]] ?]
  | H : redis.entries ?c !! _ = _ |- context [redis.Set_ _ ?key ?v ?x ?c] =>
      let H' := fresh "H" in
      pose proof (Set_same key v x _ c Hlk H) as H';
      destruct (redis.Set_ now key v x c) as [[?|?] ?]
  | H : redis.entries ?c !! _ = _ |- context [redis.Del _ ?keys ?c] =>
      let H' := fresh "H" in
      pose proof (Del_same keys _ c ltac:(repeat constructor; assumption) H) as H';
      destruct (redis.Del now keys c) as [[?|?] ?]
  | |- context [if ?b then _ else _] => destruct b
  end; cbn [snd fst] in *; try assumption.

Lemma CheckLoginAttempt_same c :
  redis.entries (snd (ratelimit.CheckLoginAttempt l now email ip c)) !! k
    = redis.entries c !! k.
Proof.
  unfold ratelimit.CheckLoginAttempt, ratelimit.unless_Nil, bind, attempt, wrap, ret, fail.
  assert (H : redis.entries c !! k = redis.entries c !! k) by reflexivity.
  revert H. generalize (redis.entries c !! k) at 2 3. intros v H.
  repeat frame_step.
Qed.

Lemma RecordFailedAttempt_same c :
  redis.entries (snd (ratelimit.RecordFailedAttempt l now email ip c)) !! k
    = redis.entries c !! k.
Proof.
  unfold ratelimit.RecordFailedAttempt, bind, wrap, ret.
  pose proof (Incr_same (ratelimit.LoginAttemptKey email ip) _ c Hak eq_refl) as H1.
  destruct (redis.Incr now (ratelimit.LoginAttemptKey email ip) c) as [[count|e] c1];
    cbn [snd] in *; [|exact H1].
  destruct (count =? 1); [|exact H1].
  pose proof (Expire_same (ratelimit.LoginAttemptKey email ip) (ratelimit.window l)
                _ c1 Hak H1) as H2.
  destruct (redis.Expire now _ _ c1) as [[b|e] c2]; exact H2.
Qed.

Lemma RecordSuccessfulAttempt_same c :
  redis.entries (snd (ratelimit.RecordSuccessfulAttempt l now email ip c)) !! k
    = redis.entries c !! k.
Proof.
  unfold ratelimit.RecordSuccessfulAttempt, wrap.
  pose proof (Del_same [ratelimit.LoginAttemptKey email ip] _ c
                ltac:(repeat constructor; exact Hak) eq_refl) as H.
  destruct (redis.Del now _ c) as [[|e] c1]; exact H.
Qed.

Lemma ClearLockout_same c :
  redis.entries (snd (ratelimit.ClearLockout l now email ip c)) !! k
    = redis.entries c !! k.
Proof.
  unfold ratelimit.ClearLockout, wrap.
  pose proof (Del_same [ratelimit.LoginLockoutKey email ip;
                        ratelimit.LoginAttemptKey email ip] _ c
                ltac:(repeat constructor; assumption) eq_refl) as H.
  destruct (redis.Del now _ c) as [[|e] c1]; exact H.
Qed.

Lemma GetAttemptCount_same c :
  redis.entries (snd (ratelimit.GetAttemptCount l now email ip c)) !! k
    = redis.entries c !! k.
Proof.
  unfold ratelimit.GetAttemptCount, bind, attempt, ret, fail.
  pose proof (Get_Int_same (ratelimit.LoginAttemptKey email ip) _ c eq_refl) as H.
  destruct (redis.Get_Int now _ c) as [[v|[]] c1]; exact H.
Qed.
End frame.

(** X6: the rate limiter writes the two keys of its pair and no other.  Each
    operation on the pair (email, ip) leaves every other key of the store as
    it was (the counters and markers of other pairs, the entries of the
    blacklist), whether its calls reach the store or not. *)
Theorem limiter_writes_own_keys_only (l : ratelimit.Limiter) (now : Z)
    (email ip : string) (k : string) (c : redis.Client) :
  k <> ratelimit.LoginAttemptKey email ip ->
  k <> ratelimit.LoginLockoutKey email ip ->
  redis.entries (snd (ratelimit.CheckLoginAttempt l now email ip c)) !! k
    = redis.entries c !! k /\
  redis.entries (snd (ratelimit.RecordFailedAttempt l now email ip c)) !! k
    = redis.entries c !! k /\
  redis.entries (snd (ratelimit.RecordSuccessfulAttempt l now email ip c)) !! k
    = redis.entries c !! k /\
  redis.entries (snd (ratelimit.ClearLockout l now email ip c)) !! k
    = redis.entries c !! k /\
  redis.entries (snd (ratelimit.GetAttemptCount l now email ip c)) !! k
    = redis.entries c !! k.
Proof.
  intros Hak Hlk. repeat split.
  - apply CheckLoginAttempt_same; assumption.
  - apply RecordFailedAttempt_same; assumption.
  - apply RecordSuccessfulAttempt_same; assumption.
  - apply ClearLockout_same; assumption.
  - apply GetAttemptCount_same.
Qed.

Lemma limiter_writes_own_keys_only_witness :
  let c := auth.rdb locked_world in
  redis.entries (snd (ratelimit.RecordFailedAttempt default_limiter time.Minute
                        "other@y.com" "10.0.0.2" c))
    !! ratelimit.LoginLockoutKey "x@y.com" "10.0.0.1"
  = redis.entries c !! ratelimit.LoginLockoutKey "x@y.com" "10.0.0.1".
Proof.
  intros c.
  destruct (limiter_writes_own_keys_only default_limiter time.Minute "other@y.com" "10.0.0.2"
              (ratelimit.LoginLockoutKey "x@y.com" "10.0.0.1") c) as (_ & H & _).
  - vm_compute. discriminate.
  - vm_compute. discriminate.
  - exact H.
Defined.

(** ** Refresh tokens, token identifiers and the advertised expiry *)

Lemma Second_pos : 0 < time.Second.
Proof. reflexivity. Qed.

Lemma floor_second_le t : t / time.Second * time.Second <= t.
Proof. rewrite Z.mul_comm. apply Z.mul_div_le. apply Second_pos. Qed.

Lemma floor_second_lt t : t < t / time.Second * time.Second + time.Second.
Proof.
  pose proof (Z.mod_pos_bound t time.Second Second_pos).
  pose proof (Z.div_mod t time.Second ltac:(discriminate)). lia.
Qed.

Lemma jwt_Validate_window now later ttl rc :
  ExpiresAt rc = jwt.NewNumericDate (time.Add now ttl) ->
  NotBefore rc = jwt.NewNumericDate now ->
  now <= later ->
  jwt.Validate later rc =
    if later <? (now + ttl) / time.Second * time.Second then Ok tt
    else Err (ErrLib "token is expired").
Proof.
  intros He Hn Hlater. unfold jwt.Validate. rewrite He, Hn.
  unfold jwt.NewNumericDate, jwt.Time, jwt.TimePrecision, time.Add, time.Before.
  pose proof (floor_second_le now).
  destruct (Z.ltb_spec later ((now + ttl) / time.Second * time.Second)); cbn;
    (destruct (Z.ltb_spec later (now / time.Second * time.Second)); [lia | reflexivity]).
Qed.

(** X7: the refresh token of a pair.  [ValidateRefreshToken] returns the
    registered claims [Generate] has signed (issuer, subject, identifier,
    the three dates) at any instant from the issue until the whole second
    of the expiry, and an error from then on. *)
Theorem refresh_token_roundtrip `{Primitives} (s : token.Service) (now later : Z)
    (jtis : string * string)
    (userID : Z) (boddleUID email name metaType : string) (metaID : Z) :
  now <= later ->
  exists pair,
    token.Generate s now jtis userID boddleUID email name metaType metaID = Ok pair /\
    let exp := (now + token.refreshTokenTTL s) / time.Second in
    let rc := token.refreshClaims s now (snd jtis) userID in
    Issuer rc = "boddle-auth-gateway" /\ Subject rc = pretty userID /\ ID rc = snd jtis /\
    ExpiresAt rc = Some exp /\
    (later < jwt.Time exp ->
     token.ValidateRefreshToken s later (token.RefreshToken pair) = Ok rc) /\
    (jwt.Time exp <= later ->
     token.ValidateRefreshToken s later (token.RefreshToken pair) =
       Err (Errorf "failed to parse refresh token: %w"
              [AErr (Errorf "token has invalid claims: %w" [AErr (ErrLib "token is expired")])])).
Proof.
  intros Hlater. eexists. split; [apply Generate_Ok|].
  cbn [token.RefreshToken]. repeat split.
  - intros Hexp. unfold token.ValidateRefreshToken, jwt.ParseWithClaims. cbn [alg].
    change (jwt.GetSigningMethod "HS256") with (Some jwt.SigningMethodHS256).
    cbn [token.keyFunc jwt.SigningMethodHS256 jwt.Verify jwt.toRegisteredClaims].
    rewrite String.eqb_refl.
    rewrite (jwt_Validate_window now later (token.refreshTokenTTL s)) by done.
    unfold jwt.Time, jwt.TimePrecision in Hexp.
    destruct (Z.ltb_spec later ((now + token.refreshTokenTTL s) / time.Second * time.Second));
      [reflexivity | lia].
  - intros Hexp. unfold token.ValidateRefreshToken, jwt.ParseWithClaims. cbn [alg].
    change (jwt.GetSigningMethod "HS256") with (Some jwt.SigningMethodHS256).
    cbn [token.keyFunc jwt.SigningMethodHS256 jwt.Verify jwt.toRegisteredClaims].
    rewrite String.eqb_refl.
    rewrite (jwt_Validate_window now later (token.refreshTokenTTL s)) by done.
    unfold jwt.Time, jwt.TimePrecision in Hexp.
    destruct (Z.ltb_spec later ((now + token.refreshTokenTTL s) / time.Second * time.Second));
      [lia | reflexivity].
Qed.

Lemma refresh_token_roundtrip_witness :
  exists pair,
    @token.Generate sample_primitives sample_token_service 1700000000123456789
      ("jti-1", "jti-2") 123 "1f1e" "t@example.com" "Test User" "Teacher" 456 = Ok pair /\
    @token.ValidateRefreshToken sample_primitives sample_token_service 1700000001000000000
      (token.RefreshToken pair)
    = Ok (token.refreshClaims sample_token_service 1700000000123456789 "jti-2" 123).
Proof.
  destruct (@refresh_token_roundtrip sample_primitives sample_token_service
              1700000000123456789 1700000001000000000 ("jti-1", "jti-2")
              123 "1f1e" "t@example.com" "Test User" "Teacher" 456)
    as (pair & Hg & _ & _ & _ & _ & Hv & _); [vm_compute; discriminate|].
  exists pair. split; [exact Hg|]. apply Hv. vm_compute. reflexivity.
Defined.

(** The two tokens of a pair are not interchangeable.  When the keyed
    hashes of a token under the two secrets differ, the access token is
    refused as a refresh token and the refresh token as an access token, each
    for its signature. *)
Theorem tokens_are_not_interchangeable `{Primitives} (s : token.Service) (now later : Z)
    (jtis : string * string)
    (userID : Z) (boddleUID email name metaType : string) (metaID : Z) :
  let h := {| alg := Some "HS256"; typ := "JWT" |} in
  let access := OfClaims (token.accessClaims s now (fst jtis) userID boddleUID email name
                            metaType metaID) in
  let refresh := OfRegisteredClaims (token.refreshClaims s now (snd jtis) userID) in
  hmac "SHA256" (token.secretKey s) (h, access)
    <> hmac "SHA256" (token.refreshSecretKey s) (h, access) ->
  hmac "SHA256" (token.refreshSecretKey s) (h, refresh)
    <> hmac "SHA256" (token.secretKey s) (h, refresh) ->
  exists pair,
    token.Generate s now jtis userID boddleUID email name metaType metaID = Ok pair /\
    token.ValidateRefreshToken s later (token.AccessToken pair) =
      Err (Errorf "failed to parse refresh token: %w"
             [AErr (Errorf "token signature is invalid: %w"
                      [AErr (ErrLib "signature is invalid")])]) /\
    token.Validate s later (token.RefreshToken pair) =
      Err (Errorf "failed to parse token: %w"
             [AErr (Errorf "token signature is invalid: %w"
                      [AErr (ErrLib "signature is invalid")])]).
Proof.
  intros h access refresh Ha Hr. eexists. split; [apply Generate_Ok|].
  cbn [token.AccessToken token.RefreshToken]. split.
  - unfold token.ValidateRefreshToken, signed_with, jwt.ParseWithClaims. cbn [alg].
    change (jwt.GetSigningMethod "HS256") with (Some jwt.SigningMethodHS256).
    cbn [token.keyFunc jwt.SigningMethodHS256 jwt.Verify].
    fold h. fold access.
    destruct (String.eqb_spec (hmac "SHA256" (token.secretKey s) (h, access))
                (hmac "SHA256" (token.refreshSecretKey s) (h, access))); [done | reflexivity].
  - unfold token.Validate, jwt.ParseWithClaims. cbn [alg].
    change (jwt.GetSigningMethod "HS256") with (Some jwt.SigningMethodHS256).
    cbn [token.keyFunc jwt.SigningMethodHS256 jwt.Verify].
    fold h. fold refresh.
    destruct (String.eqb_spec (hmac "SHA256" (token.refreshSecretKey s) (h, refresh))
                (hmac "SHA256" (token.secretKey s) (h, refresh))); [done | reflexivity].
Qed.

Lemma tokens_are_not_interchangeable_witness :
  exists pair,
    @token.Generate sample_primitives sample_token_service 0
      ("jti-1", "jti-2") 123 "1f1e" "t@example.com" "Test User" "Teacher" 456 = Ok pair /\
    @token.ValidateRefreshToken sample_primitives sample_token_service time.Second
      (token.AccessToken pair) =
      Err (Errorf "failed to parse refresh token: %w"
             [AErr (Errorf "token signature is invalid: %w"
                      [AErr (ErrLib "signature is invalid")])]) /\
    @token.Validate sample_primitives sample_token_service time.Second
      (token.RefreshToken pair) =
      Err (Errorf "failed to parse token: %w"
             [AErr (Errorf "token signature is invalid: %w"
                      [AErr (ErrLib "signature is invalid")])]).
Proof.
  apply (@tokens_are_not_interchangeable sample_primitives sample_token_service 0 time.Second
           ("jti-1", "jti-2") 123 "1f1e" "t@example.com" "Test User" "Teacher" 456).
  - vm_compute. discriminate.
  - vm_compute. discriminate.
Defined.

(** X8: [ExtractTokenID] agrees with [Validate].  For every token [Validate]
    accepts, [ExtractTokenID] returns the identifier of the validated claims;
    it returns the same identifier whatever the signature segment is. *)
Theorem ExtractTokenID_agrees_with_Validate `{Primitives} (s : token.Service) (now : Z)
    (tokenString : jwt.TokenString) (claims : Claims) :
  token.Validate s now tokenString = Ok claims ->
  token.ExtractTokenID s tokenString = Ok (ID (Registered claims)) /\
  forall h p signature signature',
    tokenString = jwt.Compact h p signature ->
    token.ExtractTokenID s (jwt.Compact h p signature') = Ok (ID (Registered claims)).
Proof.
  intros Hv.
  assert (Hall : forall h p signature signature',
    tokenString = jwt.Compact h p signature ->
    token.ExtractTokenID s (jwt.Compact h p signature') = Ok (ID (Registered claims))).
  { intros h p signature signature' ->.
    apply Validate_Ok in Hv as (h' & p' & sig' & name & hash & [= <- <- <-] & Ha & Hin & _ & -> & _).
    unfold token.ExtractTokenID, jwt.ParseUnverified. rewrite Ha.
    repeat (destruct Hin as [[= <- <-]|Hin]; [reflexivity|]). destruct Hin. }
  split; [|exact Hall].
  pose proof Hv as Hv'.
  apply Validate_Ok in Hv' as (h & p & signature & _ & _ & -> & _).
  apply (Hall h p signature signature). reflexivity.
Qed.

Lemma ExtractTokenID_agrees_with_Validate_witness :
  token.ExtractTokenID sample_token_service
    (@signed_with sample_primitives "HS256" "SHA256" "access-secret" sample_claims)
  = Ok "jti-1".
Proof.
  destruct (@ExtractTokenID_agrees_with_Validate sample_primitives sample_token_service 0
              (@signed_with sample_primitives "HS256" "SHA256" "access-secret" sample_claims)
              sample_claims) as [H _]; [vm_compute; reflexivity | exact H].
Defined.

(** X9: the expiry a token pair advertises and the expiry of its access
    token.  The [exp] claim is the advertised instant cut down to a whole
    second: it lies less than a second before the advertised instant, and
    from that second on [Validate] refuses the token. *)
Theorem advertised_expiry `{Primitives} (s : token.Service) (now later : Z)
    (jtis : string * string)
    (userID : Z) (boddleUID email name metaType : string) (metaID : Z) :
  now <= later ->
  exists pair exp,
    token.Generate s now jtis userID boddleUID email name metaType metaID = Ok pair /\
    token.ExpiresAt_ pair = now + token.accessTokenTTL s /\
    ExpiresAt (Registered (token.accessClaims s now (fst jtis) userID boddleUID email name
                             metaType metaID)) = Some exp /\
    jwt.Time exp <= token.ExpiresAt_ pair < jwt.Time exp + time.Second /\
    (jwt.Time exp <= later ->
     token.Validate s later (token.AccessToken pair) =
       Err (Errorf "failed to parse token: %w"
              [AErr (Errorf "token has invalid claims: %w" [AErr (ErrLib "token is expired")])])).
Proof.
  intros Hlater. eexists _, ((now + token.accessTokenTTL s) / time.Second).
  split; [apply Generate_Ok|]. cbn [token.ExpiresAt_ token.AccessToken].
  split; [reflexivity|]. split; [reflexivity|].
  unfold jwt.Time, jwt.TimePrecision. split.
  - split; [apply floor_second_le | apply floor_second_lt].
  - intros Hexp. unfold token.Validate, signed_with, jwt.ParseWithClaims. cbn [alg].
    change (jwt.GetSigningMethod "HS256") with (Some jwt.SigningMethodHS256).
    cbn [token.keyFunc jwt.SigningMethodHS256 jwt.Verify jwt.toClaims].
    rewrite String.eqb_refl.
    rewrite (jwt_Validate_window now later (token.accessTokenTTL s)) by done.
    destruct (Z.ltb_spec later ((now + token.accessTokenTTL s) / time.Second * time.Second));
      [lia | reflexivity].
Qed.

Lemma advertised_expiry_witness :
  exists pair exp,
    @token.Generate sample_primitives sample_token_service 1700000000123456789
      ("jti-1", "jti-2") 123 "1f1e" "t@example.com" "Test User" "Teacher" 456 = Ok pair /\
    token.ExpiresAt_ pair = 1700000000123456789 + 6 * time.Hour /\
    jwt.Time exp <= token.ExpiresAt_ pair < jwt.Time exp + time.Second.
Proof.
  destruct (@advertised_expiry sample_primitives sample_token_service
              1700000000123456789 1700000000123456789 ("jti-1", "jti-2")
              123 "1f1e" "t@example.com" "Test User" "Teacher" 456)
    as (pair & exp & Hg & He & _ & Hb & _); [reflexivity|].
  exists pair, exp. auto.
Defined.

(** ** The blacklist *)

Lemma blacklist_keys_inj jti jti' :
  token.blacklistKey jti = token.blacklistKey jti' -> jti = jti'.
Proof. unfold token.blacklistKey. intros H. injection H as H. exact H. Qed.

Lemma IsBlacklisted_up now jti m :
  token.IsBlacklisted now jti (up m) =
    (Ok (match redis.lookup now (token.blacklistKey jti) m with
         | Some _ => true
         | None => false
         end), up m).
Proof.
  unfold token.IsBlacklisted, bind, wrap, redis.Exists. rewrite call_up.
  destruct (redis.lookup now (token.blacklistKey jti) m); reflexivity.
Qed.

Lemma Add_up now jti expiry m :
  now < expiry ->
  token.Add now jti expiry (up m) =
    (Ok tt, up (<[token.blacklistKey jti := {| redis.val := 1; redis.deadline := Some expiry |}]> m)).
Proof.
  intros Hlt. unfold token.Add, wrap, redis.Set_.
  destruct (Z.leb_spec (expiry - now) 0); [lia|].
  rewrite call_up. cbn.
  destruct (Z.ltb_spec 0 (expiry - now)); [|lia].
  do 5 f_equal. lia.
Qed.

(** X10: the blacklist, on a store that answers.  An identifier added with
    an expiry ahead is blacklisted until that expiry and not after it; no
    other identifier is affected; [Remove] takes it off the list; and an
    identifier whose expiry has passed is not written at all, whatever the
    state of the store. *)
Theorem blacklist_roundtrip (now : Z) (jti : string) (expiry : Z)
    (m : gmap string redis.entry) :
  now < expiry ->
  let c := snd (token.Add now jti expiry (up m)) in
  token.Add now jti expiry (up m) = (Ok tt, c) /\
  (forall t, t < expiry -> token.IsBlacklisted t jti c = (Ok true, c)) /\
  (forall t, expiry <= t -> token.IsBlacklisted t jti c = (Ok false, c)) /\
  (forall t jti', jti' <> jti ->
     token.IsBlacklisted t jti' c = (fst (token.IsBlacklisted t jti' (up m)), c)) /\
  (forall t t',
     token.IsBlacklisted t' jti (snd (token.Remove t jti c))
       = (Ok false, snd (token.Remove t jti c))) /\
  (forall past c0, past <= now -> token.Add now jti past c0 = (Ok tt, c0)).
Proof.
  intros Hlt c. subst c. rewrite Add_up by done. cbn [snd].
  split; [reflexivity|]. repeat split.
  - intros t Ht. rewrite IsBlacklisted_up. unfold redis.lookup, redis.live.
    rewrite lookup_insert_eq. cbn. destruct (Z.ltb_spec t expiry); [reflexivity | lia].
  - intros t Ht. rewrite IsBlacklisted_up. unfold redis.lookup, redis.live.
    rewrite lookup_insert_eq. cbn. destruct (Z.ltb_spec t expiry); [lia | reflexivity].
  - intros t jti' Hne. rewrite !IsBlacklisted_up. cbn [fst].
    rewrite redis_lookup_insert_ne; [reflexivity|].
    intros Hk. apply Hne. symmetry. apply blacklist_keys_inj. exact Hk.
  - intros t t'. unfold token.Remove, wrap, redis.Del. rewrite call_up. cbn [fst snd foldr].
    rewrite IsBlacklisted_up. rewrite redis_lookup_delete_eq. reflexivity.
  - intros past c0 Hpast. unfold token.Add.
    destruct (Z.leb_spec (past - now) 0); [reflexivity | lia].
Qed.

Lemma blacklist_roundtrip_witness :
  let c := snd (token.Add 0 "jti-1" (6 * time.Hour) (up ∅)) in
  token.IsBlacklisted time.Hour "jti-1" c = (Ok true, c) /\
  token.IsBlacklisted (6 * time.Hour) "jti-1" c = (Ok false, c).
Proof.
  intros c.
  destruct (blacklist_roundtrip 0 "jti-1" (6 * time.Hour) ∅) as (_ & H1 & H2 & _);
    [reflexivity|].
  split; [apply H1; reflexivity | apply H2; vm_compute; discriminate].
Defined.

(** ** Log-out *)

Lemma Validate_same_claims `{Primitives} s t t' tokenString c c' :
  token.Validate s t tokenString = Ok c -> token.Validate s t' tokenString = Ok c' -> c' = c.
Proof.
  intros H1 H2.
  apply Validate_Ok in H1 as (h & p & sig & _ & _ & -> & _ & _ & _ & -> & _).
  apply Validate_Ok in H2 as (h' & p' & sig' & _ & _ & [= <- <- <-] & _ & _ & _ & -> & _).
  reflexivity.
Qed.

Lemma Validate_not_expired `{Primitives} s t tokenString c exp :
  token.Validate s t tokenString = Ok c -> ExpiresAt (Registered c) = Some exp ->
  t < jwt.Time exp.
Proof.
  intros Hv He.
  apply Validate_Ok in Hv as (h & p & sig & _ & _ & _ & _ & _ & _ & _ & Hval).
  apply jwt_Validate_in_force in Hval as [Hexp _]. apply Hexp. exact He.
Qed.

Lemma ValidateToken_up `{Primitives} (s : auth.Service) now tokenString claims m d :
  token.Validate (auth.tokenService s) now tokenString = Ok claims ->
  auth.ValidateToken s now tokenString {| auth.rdb := up m; auth.db := d |} =
    (match redis.lookup now (token.blacklistKey (ID (Registered claims))) m with
     | Some _ => Err (Errorf "token revoked" [])
     | None => Ok claims
     end, {| auth.rdb := up m; auth.db := d |}).
Proof.
  intros Hv. unfold auth.ValidateToken, bind, wrap, auth.lift, auth.onRedis, zoom.
  rewrite Hv. cbn. rewrite IsBlacklisted_up.
  destruct (redis.lookup now _ m); reflexivity.
Qed.

(** X11: log-out revokes.  When [Logout] is called, on a store that answers,
    with a token [Validate] accepts, it succeeds and leaves the directory
    alone; from then on [ValidateToken] refuses the token at every instant:
    as revoked for as long as [Validate] still accepts it, and as invalid
    after that.  Another token, with another identifier, is judged as
    before. *)
Theorem Logout_revokes `{Primitives} (s : auth.Service) (now : Z)
    (tokenString : jwt.TokenString) (claims : Claims) (exp : Z)
    (m : gmap string redis.entry) (d : user.DB) :
  token.Validate (auth.tokenService s) now tokenString = Ok claims ->
  ExpiresAt (Registered claims) = Some exp ->
  let w := {| auth.rdb := up m; auth.db := d |} in
  let w' := snd (auth.Logout s now tokenString w) in
  auth.Logout s now tokenString w = (Ok tt, w') /\
  auth.db w' = d /\
  (forall later,
     token.Validate (auth.tokenService s) later tokenString = Ok claims ->
     auth.ValidateToken s later tokenString w' = (Err (Errorf "token revoked" []), w')) /\
  (forall later, exists e, auth.ValidateToken s later tokenString w' = (Err e, w')) /\
  (forall later other claims',
     token.Validate (auth.tokenService s) later other = Ok claims' ->
     ID (Registered claims') <> ID (Registered claims) ->
     fst (auth.ValidateToken s later other w') = fst (auth.ValidateToken s later other w)).
Proof.
  intros Hv He w w'. subst w w'.
  pose proof (Validate_not_expired _ _ _ _ _ Hv He) as Hnow.
  unfold auth.Logout. rewrite Hv, He. unfold wrap, auth.onRedis, zoom. cbn [auth.rdb auth.db].
  rewrite Add_up by done. cbn [snd].
  set (m' := <[_ := _]> m).
  assert (Hrevoked : forall later,
     token.Validate (auth.tokenService s) later tokenString = Ok claims ->
     auth.ValidateToken s later tokenString {| auth.rdb := up m'; auth.db := d |} =
       (Err (Errorf "token revoked" []), {| auth.rdb := up m'; auth.db := d |})).
  { intros later Hv'. rewrite (ValidateToken_up s later tokenString claims) by done.
    pose proof (Validate_not_expired _ _ _ _ _ Hv' He) as Hlater.
    subst m'. unfold redis.lookup, redis.live. rewrite lookup_insert_eq. cbn.
    destruct (Z.ltb_spec later (jwt.Time exp)); [reflexivity | lia]. }
  split; [reflexivity|]. split; [reflexivity|]. split; [exact Hrevoked|]. split.
  - intros later.
    destruct (token.Validate (auth.tokenService s) later tokenString) as [c'|e] eqn:Hv'.
    + pose proof (Validate_same_claims _ _ _ _ _ _ Hv Hv') as ->.
      eexists. apply Hrevoked. exact Hv'.
    + eexists. unfold auth.ValidateToken, bind, wrap, auth.lift. rewrite Hv'. reflexivity.
  - intros later other claims' Hv' Hid.
    rewrite !(ValidateToken_up s later other claims') by done. cbn [fst].
    subst m'. rewrite redis_lookup_insert_ne; [reflexivity|].
    intros Hk. apply Hid. symmetry. apply blacklist_keys_inj. exact Hk.
Qed.

Lemma Logout_revokes_witness :
  let tok := @signed_with sample_primitives "HS256" "SHA256" "access-secret" sample_claims in
  let w' := snd (@auth.Logout sample_primitives sample_service time.Minute tok sample_world) in
  @auth.ValidateToken sample_primitives sample_service time.Hour tok w'
    = (Err (Errorf "token revoked" []), w').
Proof.
  intros tok w'.
  destruct (@Logout_revokes sample_primitives sample_service time.Minute tok sample_claims
              21600 ∅ (sample_db reachable)) as (_ & _ & H & _).
  - vm_compute. reflexivity.
  - reflexivity.
  - apply H. vm_compute. reflexivity.
Defined.

(** A log-out that does not reach the store revokes nothing.  When the
    call to the store fails, [Logout] returns an error and the entries of
    the store are what they were: the token is judged as before. *)
Theorem failed_Logout_revokes_nothing `{Primitives} (s : auth.Service) (now : Z)
    (tokenString : jwt.TokenString) (claims : Claims) (exp : Z)
    (w : auth.World) (n : Net) :
  token.Validate (auth.tokenService s) now tokenString = Ok claims ->
  ExpiresAt (Registered claims) = Some exp ->
  next_call (redis.net (auth.rdb w)) = (true, n) ->
  auth.Logout s now tokenString w =
    (Err (Errorf "failed to blacklist token: %w"
            [AErr (Errorf "failed to blacklist token: %w" [AErr (ErrConn "redis")])]),
     {| auth.rdb := {| redis.entries := redis.entries (auth.rdb w); redis.net := n |};
        auth.db := auth.db w |}).
Proof.
  intros Hv He Hn.
  pose proof (Validate_not_expired _ _ _ _ _ Hv He) as Hnow.
  unfold auth.Logout. rewrite Hv, He. unfold wrap, auth.onRedis, zoom, token.Add.
  destruct (Z.leb_spec (jwt.Time exp - now) 0); [lia|].
  unfold wrap, redis.Set_, redis.call. rewrite Hn. reflexivity.
Qed.

Lemma failed_Logout_revokes_nothing_witness :
  let tok := @signed_with sample_primitives "HS256" "SHA256" "access-secret" sample_claims in
  let w := {| auth.rdb := {| redis.entries := ∅;
                             redis.net := {| script := [true]; steady := false |} |};
              auth.db := sample_db reachable |} in
  @auth.Logout sample_primitives sample_service time.Minute tok w =
    (Err (Errorf "failed to blacklist token: %w"
            [AErr (Errorf "failed to blacklist token: %w" [AErr (ErrConn "redis")])]),
     sample_world).
Proof.
  intros tok w.
  apply (@failed_Logout_revokes_nothing sample_primitives sample_service time.Minute tok
           sample_claims 21600 w reachable).
  - vm_compute. reflexivity.
  - reflexivity.
  - reflexivity.
Defined.

(** ** Password log-in on stores that answer *)

Lemma RecordLoginAttempt_up now email ip success d :
  user.net d = reachable ->
  user.RecordLoginAttempt now email ip success d = (Ok tt, attempted now email ip success d).
Proof.
  intros. unfold user.RecordLoginAttempt, wrap. rewrite ExecContext_up by done. reflexivity.
Qed.

Lemma FindByEmail_up email d :
  user.net d = reachable -> user.FindByEmail email d = (Ok (user_by_email email d), d).
Proof. intros. unfold user.FindByEmail. rewrite finder_up by done. reflexivity. Qed.

Lemma RecordSuccessfulAttempt_up l now email ip m :
  ratelimit.RecordSuccessfulAttempt l now email ip (up m) =
    (Ok tt, up (delete (ratelimit.LoginAttemptKey email ip) m)).
Proof. unfold ratelimit.RecordSuccessfulAttempt, wrap, redis.Del. rewrite call_up. reflexivity. Qed.

Section password.
Context `{Primitives}.
Variables (s : auth.Service) (l : ratelimit.Limiter) (now : Z) (jtis : string * string).
Variables (email password ip : string) (m : gmap string redis.entry) (d : user.DB).
Variables (usr : user.User) (uwm : user.UserWithMeta) (count : Z).

Let email' := auth.SanitizeEmail email.
Let d' := logged_on now (user.User_ID usr) (attempted now email' ip true d).

Hypothesis Hlimiter : auth.rateLimiter s = Some l.
Hypothesis Hnet : user.net d = reachable.
Hypothesis Hlk : redis.lookup now (ratelimit.LoginLockoutKey email' ip) m = None.
Hypothesis Hak :
  match redis.lookup now (ratelimit.LoginAttemptKey email' ip) m with
  | Some e => redis.val e = count
  | None => count = 0
  end.
Hypothesis Hcount : 0 <= count < ratelimit.maxAttempts l.
Hypothesis Hmax : ratelimit.maxAttempts l <= max_int.
Hypothesis Husr : user_by_email email' d = Some usr.
Hypothesis Hpassword : auth.VerifyPassword password (user.User_PasswordDigest usr) = Ok tt.
Hypothesis Hmeta : with_meta d' (user.User_ID usr) = Some uwm.

(** The log-in up to the issue of the tokens. *)
Lemma password_login_steps :
  auth.AuthenticateEmailPassword s now jtis email password ip
    {| auth.rdb := up m; auth.db := d |} =
    (auth.issue s now jtis usr (Some uwm),
     {| auth.rdb := up (delete (ratelimit.LoginAttemptKey email' ip) m); auth.db := d' |}).
Proof.
  destruct s as [ts rl]. cbn in Hlimiter. subst rl. unfold_service.
  fold email'.
  rewrite (check_allows l email' ip m now count) by done. cbn.
  rewrite FindByEmail_up, Husr by done. cbn. rewrite Hpassword.
  rewrite RecordLoginAttempt_up by done. cbn.
  rewrite RecordSuccessfulAttempt_up. cbn.
  rewrite UpdateLastLoggedOn_up by done. cbn.
  rewrite FindWithMeta_up by done. fold (logged_on now (user.User_ID usr)
    (attempted now email' ip true d)). fold d'. rewrite Hmeta. cbn.
  destruct (auth.issue _ now jtis usr (Some uwm)); reflexivity.
Qed.
End password.

(** What the binder lets through. *)
Lemma ShouldBindJSON_accepts email_rule email password :
  email <> "" -> email_rule email = true -> password <> "" ->
  auth.ShouldBindJSON email_rule (Ok {| auth.Email_ := email; auth.Password_ := password |})
    = inr {| auth.Email_ := email; auth.Password_ := password |}.
Proof.
  intros He Hrule Hp. unfold auth.ShouldBindJSON. cbn [auth.Email_ auth.Password_].
  destruct (String.eqb_spec email ""); [done|]. rewrite Hrule.
  destruct (String.eqb_spec password ""); [done|]. reflexivity.
Qed.

Lemma ShouldBindJSON_refuses email_rule req :
  auth.Email_ req = "" \/ email_rule (auth.Email_ req) = false \/ auth.Password_ req = "" ->
  exists message, auth.ShouldBindJSON email_rule (Ok req) = inl message.
Proof.
  intros Hreq. unfold auth.ShouldBindJSON.
  destruct (String.eqb_spec (auth.Email_ req) "") as [He|He];
    [|destruct (email_rule (auth.Email_ req)) eqn:Hrule];
    (destruct (String.eqb_spec (auth.Password_ req) "") as [Hp|Hp]); cbn; eauto.
  destruct Hreq as [? | [? | ?]]; congruence.
Qed.

(** X12: a password log-in that succeeds, from the body of the request on.
    A body that decodes to an address the rule [email] of the binder accepts
    and a password that is not empty is bound; a body with an empty address,
    an address the rule refuses or an empty password is answered 400
    VALIDATION_FAILED and no store is called.  For a bound request, on
    stores that answer, for a pair that is not locked out and has fewer than
    [maxAttempts] failures, with the address of a subject and a password its
    digest verifies: the call succeeds (200); the subject in the response is
    the row as it was read by address, and the meta value the one read after
    the update; the attempt is recorded as a success under the sanitized
    address, the subject's last log-on is set, and the counter of the pair is
    deleted. *)
Theorem password_login_succeeds `{Primitives} (s : auth.Service) (l : ratelimit.Limiter)
    (now : Z) (jtis : string * string) (email_rule : string -> bool)
    (email password ip : string)
    (m : gmap string redis.entry) (d : user.DB)
    (usr : user.User) (uwm : user.UserWithMeta) (name : string) (count : Z) :
  email <> "" -> email_rule email = true -> password <> "" ->
  auth.rateLimiter s = Some l ->
  user.net d = reachable ->
  redis.lookup now (ratelimit.LoginLockoutKey (auth.SanitizeEmail email) ip) m = None ->
  match redis.lookup now (ratelimit.LoginAttemptKey (auth.SanitizeEmail email) ip) m with
  | Some e => redis.val e = count
  | None => count = 0
  end ->
  0 <= count < ratelimit.maxAttempts l ->
  ratelimit.maxAttempts l <= max_int ->
  user_by_email (auth.SanitizeEmail email) d = Some usr ->
  auth.VerifyPassword password (user.User_PasswordDigest usr) = Ok tt ->
  with_meta (logged_on now (user.User_ID usr)
               (attempted now (auth.SanitizeEmail email) ip true d))
    (user.User_ID usr) = Some uwm ->
  user.GetFullName uwm = Ok name ->
  (exists pair,
    token.Generate (auth.tokenService s) now jtis (user.User_ID usr)
      (default "" (user.User_BoddleUID usr)) (user.User_Email usr) name
      (user.User_MetaType usr) (user.User_MetaID usr) = Ok pair /\
    let resp := {| auth.Token := pair; auth.User := usr; auth.Meta := user.Meta_ uwm |} in
    let w' := {| auth.rdb := up (delete (ratelimit.LoginAttemptKey (auth.SanitizeEmail email) ip) m);
                 auth.db := logged_on now (user.User_ID usr)
                              (attempted now (auth.SanitizeEmail email) ip true d) |} in
    auth.AuthenticateEmailPassword s now jtis email password ip
      {| auth.rdb := up m; auth.db := d |} = (Ok resp, w') /\
    auth.Login s now jtis
      (auth.ShouldBindJSON email_rule
         (Ok {| auth.Email_ := email; auth.Password_ := password |})) ip
      {| auth.rdb := up m; auth.db := d |} =
      ({| auth.status := 200; auth.body := auth.Success resp |}, w')) /\
  (forall req w,
     auth.Email_ req = "" \/ email_rule (auth.Email_ req) = false \/ auth.Password_ req = "" ->
     exists message,
       auth.Login s now jtis (auth.ShouldBindJSON email_rule (Ok req)) ip w =
         ({| auth.status := 400; auth.body := auth.Failure "VALIDATION_FAILED" message |}, w)).
Proof.
  intros He Hrule Hp Hl Hn Hlk Hak Hcount Hmax Husr Hpw Hmeta Hname. split.
  - pose proof (password_login_steps s l now jtis email password ip m d usr uwm count
                  Hl Hn Hlk Hak Hcount Hmax Husr Hpw Hmeta) as E.
    unfold auth.issue in E. rewrite Hname, Generate_Ok in E.
    eexists. split; [apply Generate_Ok|]. cbn zeta. split; [exact E|].
    rewrite ShouldBindJSON_accepts by done.
    unfold auth.Login. cbn [auth.Email_ auth.Password_]. rewrite E. reflexivity.
  - intros req w Hreq.
    destruct (ShouldBindJSON_refuses email_rule req Hreq) as [message ->].
    exists message. reflexivity.
Qed.

Lemma password_login_succeeds_witness :
  exists pair,
    let resp := {| auth.Token := pair; auth.User := sample_user;
                   auth.Meta := user.IsTeacher (Some sample_teacher) |} in
    fst (@auth.Login sample_primitives sample_service time.Minute ("jti-1", "jti-2")
           (auth.ShouldBindJSON sample_email_rule
              (Ok {| auth.Email_ := "T@Example.com"; auth.Password_ := "Passw0rd!" |}))
           "10.0.0.1" sample_world)
    = {| auth.status := 200; auth.body := auth.Success resp |}.
Proof.
  destruct (@password_login_succeeds sample_primitives sample_service default_limiter
              time.Minute ("jti-1", "jti-2") sample_email_rule
              "T@Example.com" "Passw0rd!" "10.0.0.1"
              ∅ (sample_db reachable) sample_user
              {| user.User_ := user.set_last_logged_on time.Minute sample_user;
                 user.Meta_ := user.IsTeacher (Some sample_teacher) |}
              "Test User" 0) as ((pair & _ & _ & E) & _).
  - discriminate.
  - vm_compute. reflexivity.
  - discriminate.
  - reflexivity.
  - reflexivity.
  - vm_compute. reflexivity.
  - vm_compute. reflexivity.
  - vm_compute. split; [discriminate | reflexivity].
  - vm_compute. discriminate.
  - vm_compute. reflexivity.
  - vm_compute. reflexivity.
  - vm_compute. reflexivity.
  - vm_compute. reflexivity.
  - exists pair. cbn zeta in *. change sample_world with
      {| auth.rdb := up ∅; auth.db := sample_db reachable |}. rewrite E. reflexivity.
Defined.

(** X13: a subject whose role record is missing cannot log in.  With the
    right password, on stores that answer, the call runs into a nil role
    record when it builds the full name: the reply is 500 INTERNAL_ERROR,
    after the attempt has been recorded as a success, the last log-on set and
    the counter of the pair deleted. *)
Theorem login_without_role_record `{Primitives} (s : auth.Service) (l : ratelimit.Limiter)
    (now : Z) (jtis : string * string) (email password ip : string)
    (m : gmap string redis.entry) (d : user.DB)
    (usr : user.User) (uwm : user.UserWithMeta) (count : Z) :
  auth.rateLimiter s = Some l ->
  user.net d = reachable ->
  redis.lookup now (ratelimit.LoginLockoutKey (auth.SanitizeEmail email) ip) m = None ->
  match redis.lookup now (ratelimit.LoginAttemptKey (auth.SanitizeEmail email) ip) m with
  | Some e => redis.val e = count
  | None => count = 0
  end ->
  0 <= count < ratelimit.maxAttempts l ->
  ratelimit.maxAttempts l <= max_int ->
  user_by_email (auth.SanitizeEmail email) d = Some usr ->
  auth.VerifyPassword password (user.User_PasswordDigest usr) = Ok tt ->
  with_meta (logged_on now (user.User_ID usr)
               (attempted now (auth.SanitizeEmail email) ip true d))
    (user.User_ID usr) = Some uwm ->
  (user.Meta_ uwm = user.IsTeacher None \/ user.Meta_ uwm = user.IsStudent None \/
   user.Meta_ uwm = user.IsParent None) ->
  auth.Login s now jtis (inr {| auth.Email_ := email; auth.Password_ := password |}) ip
    {| auth.rdb := up m; auth.db := d |} =
    (internal_error,
     {| auth.rdb := up (delete (ratelimit.LoginAttemptKey (auth.SanitizeEmail email) ip) m);
        auth.db := logged_on now (user.User_ID usr)
                     (attempted now (auth.SanitizeEmail email) ip true d) |}).
Proof.
  intros Hl Hn Hlk Hak Hcount Hmax Husr Hpw Hmeta Hnil.
  pose proof (password_login_steps s l now jtis email password ip m d usr uwm count
                Hl Hn Hlk Hak Hcount Hmax Husr Hpw Hmeta) as E.
  unfold auth.Login. cbn [auth.Email_ auth.Password_]. rewrite E.
  unfold auth.issue, user.GetFullName.
  destruct Hnil as [-> | [-> | ->]]; reflexivity.
Qed.

Lemma login_without_role_record_witness :
  let d := user.set_teachers (fun _ => []) (sample_db reachable) in
  fst (@auth.Login sample_primitives sample_service time.Minute ("jti-1", "jti-2")
         (inr {| auth.Email_ := "t@example.com"; auth.Password_ := "Passw0rd!" |})
         "10.0.0.1" {| auth.rdb := up ∅; auth.db := d |})
  = internal_error.
Proof.
  intros d.
  rewrite (@login_without_role_record sample_primitives sample_service default_limiter
             time.Minute ("jti-1", "jti-2") "t@example.com" "Passw0rd!" "10.0.0.1"
             ∅ d sample_user
             {| user.User_ := user.set_last_logged_on time.Minute sample_user;
                user.Meta_ := user.IsTeacher None |} 0).
  - reflexivity.
  - reflexivity.
  - reflexivity.
  - vm_compute. reflexivity.
  - vm_compute. reflexivity.
  - vm_compute. split; [discriminate | reflexivity].
  - vm_compute. discriminate.
  - vm_compute. reflexivity.
  - vm_compute. reflexivity.
  - vm_compute. reflexivity.
  - left. reflexivity.
Defined.

(** ** A refused log-in does not tell why *)

Section uniform.
Context `{Primitives}.
Variables (s : auth.Service) (now : Z) (jtis : string * string) (ip : string).

Lemma refused_login email password c d :
  user.net d = reachable ->
  match user_by_email (auth.SanitizeEmail email) d with
  | None => True
  | Some usr => exists e, auth.VerifyPassword password (user.User_PasswordDigest usr) = Err e
  end ->
  let r := auth.Login s now jtis (inr {| auth.Email_ := email; auth.Password_ := password |}) ip
             {| auth.rdb := c; auth.db := d |} in
  (fst r, auth.rdb (snd r)) = refusal s now ip email c.
Proof.
  intros Hn Hwrong. unfold refusal, auth.Login. cbn [auth.Email_ auth.Password_].
  destruct s as [ts [l|]]; unfold_service.
  - destruct (ratelimit.CheckLoginAttempt l now (auth.SanitizeEmail email) ip c)
      as [[[[[] remaining] lockout]|e] c1]; cbn.
    + rewrite FindByEmail_up by done. cbn.
      destruct (user_by_email (auth.SanitizeEmail email) d) as [usr|]; cbn.
      * destruct Hwrong as [e ->]. rewrite RecordLoginAttempt_up by done. cbn.
        destruct (ratelimit.RecordFailedAttempt _ _ _ _ c1). cbn. done.
      * rewrite RecordLoginAttempt_up by done. cbn.
        destruct (ratelimit.RecordFailedAttempt _ _ _ _ c1). cbn. done.
    + done.
    + rewrite FindByEmail_up by done. cbn.
      destruct (user_by_email (auth.SanitizeEmail email) d) as [usr|]; cbn.
      * destruct Hwrong as [e' ->]. rewrite RecordLoginAttempt_up by done. cbn.
        destruct (ratelimit.RecordFailedAttempt _ _ _ _ c1). cbn. done.
      * rewrite RecordLoginAttempt_up by done. cbn.
        destruct (ratelimit.RecordFailedAttempt _ _ _ _ c1). cbn. done.
  - rewrite FindByEmail_up by done. cbn.
    destruct (user_by_email (auth.SanitizeEmail email) d) as [usr|]; cbn.
    + destruct Hwrong as [e ->]. rewrite RecordLoginAttempt_up by done. cbn. done.
    + rewrite RecordLoginAttempt_up by done. cbn. done.
Qed.
End uniform.

(** X14: a refused log-in does not tell whether the account exists.  With
    the directory answering, the reply to an address that names no subject
    and the reply to the address of a subject with a wrong password are the
    same reply, and the two requests leave the same key-value store behind:
    the same counter, the same lockout, whatever the state of the store. *)
Theorem refused_logins_are_alike `{Primitives} (s : auth.Service) (now : Z)
    (jtis : string * string) (email password password' ip : string)
    (c : redis.Client) (d d' : user.DB) (usr : user.User) (e : error) :
  user.net d = reachable ->
  user.net d' = reachable ->
  user_by_email (auth.SanitizeEmail email) d = None ->
  user_by_email (auth.SanitizeEmail email) d' = Some usr ->
  auth.VerifyPassword password' (user.User_PasswordDigest usr) = Err e ->
  let unknown := auth.Login s now jtis
                   (inr {| auth.Email_ := email; auth.Password_ := password |}) ip
                   {| auth.rdb := c; auth.db := d |} in
  let wrong := auth.Login s now jtis
                 (inr {| auth.Email_ := email; auth.Password_ := password' |}) ip
                 {| auth.rdb := c; auth.db := d' |} in
  fst unknown = fst wrong /\
  fst unknown = invalid_credentials /\
  auth.rdb (snd unknown) = auth.rdb (snd wrong).
Proof.
  intros Hn Hn' Hnone Hsome Hwrong unknown wrong.
  pose proof (refused_login s now jtis ip email password c d Hn) as E.
  pose proof (refused_login s now jtis ip email password' c d' Hn') as E'.
  rewrite Hnone in E. rewrite Hsome in E'. specialize (E I). specialize (E' (ex_intro _ e Hwrong)).
  cbn zeta in E, E'. fold unknown in E. fold wrong in E'.
  assert (Hreply : fst (refusal s now ip email c) = invalid_credentials).
  { unfold refusal. destruct (auth.rateLimiter s) as [l|]; [|reflexivity].
    destruct (ratelimit.CheckLoginAttempt _ _ _ _ c) as [[[[[] ?] ?]|?] ?]; reflexivity. }
  rewrite <- E in Hreply. rewrite <- E' in E. injection E as E1 E2. cbn in Hreply.
  auto.
Qed.

Lemma refused_logins_are_alike_witness :
  let unknown := @auth.Login sample_primitives sample_service time.Minute ("jti-1", "jti-2")
                   (inr {| auth.Email_ := "t@example.com"; auth.Password_ := "guess" |})
                   "10.0.0.1"
                   {| auth.rdb := up ∅;
                      auth.db := user.set_users (fun _ => []) (sample_db reachable) |} in
  let wrong := @auth.Login sample_primitives sample_service time.Minute ("jti-1", "jti-2")
                 (inr {| auth.Email_ := "t@example.com"; auth.Password_ := "guess" |})
                 "10.0.0.1" sample_world in
  fst unknown = fst wrong /\
  fst unknown = invalid_credentials /\
  auth.rdb (snd unknown) = auth.rdb (snd wrong).
Proof.
  apply (@refused_logins_are_alike sample_primitives sample_service time.Minute
           ("jti-1", "jti-2") "t@example.com" "guess" "guess" "10.0.0.1" (up ∅)
           (user.set_users (fun _ => []) (sample_db reachable)) (sample_db reachable)
           sample_user (Errorf "invalid password" [])).
  - reflexivity.
  - reflexivity.
  - vm_compute. reflexivity.
  - vm_compute. reflexivity.
  - vm_compute. reflexivity.
Defined.

#[local] Arguments auth.Logout : simpl never.
#[local] Arguments auth.ValidateToken : simpl never.
#[local] Arguments auth.GetCurrentUser : simpl never.

(** ** The Authorization header *)

Lemma substring_all t : String.substring 0 (String.length t) t = t.
Proof. induction t as [|c r IH]; cbn; [reflexivity | rewrite IH; reflexivity]. Qed.

Lemma append_empty_r t : t +:+ "" = t.
Proof. induction t as [|c r IH]; [reflexivity|]. rewrite append_cons, IH. reflexivity. Qed.

Lemma bearer_parts t :
  String.eqb (bearer t) "" = false /\
  String.length (bearer t) = (7 + String.length t)%nat /\
  String.substring 0 7 (bearer t) = "Bearer " /\
  String.substring 7 (String.length (bearer t) - 7) (bearer t) = t.
Proof.
  unfold bearer. rewrite !append_cons, append_nil. cbn. repeat split.
  - destruct t; reflexivity.
  - rewrite Nat.sub_0_r. apply substring_all.
Qed.

Lemma Handler_Logout_bearer `{Primitives} (s : auth.Service) now segments t w :
  t <> "" ->
  auth.Handler_Logout s now segments (bearer t) w =
    match auth.Logout s now (segments t) w with
    | (Err (Panic _), w') => (auth.Recovery, w')
    | (Err err, w') => (auth.response_Error err, w')
    | (Ok _, w') => (logged_out, w')
    end.
Proof.
  intros Ht. unfold auth.Handler_Logout.
  destruct (bearer_parts t) as (-> & Hlen & -> & ->). rewrite Hlen.
  destruct t as [|c r]; [done|]. reflexivity.
Qed.

Lemma Auth_bearer `{Primitives} {A} (s : auth.Service) now segments t w :
  @middleware.Auth _ A s now segments (bearer t) w =
    match auth.ValidateToken s now (segments t) w with
    | (Err (Panic _), w') => (inl auth.Recovery, w')
    | (Err err, w') => (inl (unauthorized "INVALID_TOKEN" (Error err)), w')
    | (Ok claims, w') => (inr claims, w')
    end.
Proof.
  unfold middleware.Auth, auth.HasPrefix.
  destruct (bearer_parts t) as (-> & Hlen & Hpre & ->). rewrite Hlen.
  change (String.length "Bearer ") with 7%nat. rewrite Hpre. reflexivity.
Qed.

Lemma GetCurrentUser_up claims c d :
  user.net d = reachable ->
  auth.GetCurrentUser claims {| auth.rdb := c; auth.db := d |} =
    (match with_meta d (UserID claims) with
     | Some uwm => Ok uwm
     | None => Err (Errorf "user not found" [])
     end, {| auth.rdb := c; auth.db := d |}).
Proof.
  intros Hn. unfold auth.GetCurrentUser, bind, wrap, auth.onDB, zoom. cbn.
  rewrite FindWithMeta_up by done. destruct (with_meta d (UserID claims)); reflexivity.
Qed.

Lemma Logout_up `{Primitives} (s : auth.Service) now tokenString claims exp m d :
  token.Validate (auth.tokenService s) now tokenString = Ok claims ->
  ExpiresAt (Registered claims) = Some exp ->
  auth.Logout s now tokenString {| auth.rdb := up m; auth.db := d |} =
    (Ok tt,
     {| auth.rdb := up (<[token.blacklistKey (ID (Registered claims)) :=
                           {| redis.val := 1; redis.deadline := Some (jwt.Time exp) |}]> m);
        auth.db := d |}).
Proof.
  intros Hv He. pose proof (Validate_not_expired _ _ _ _ _ Hv He) as Hnow.
  unfold auth.Logout. rewrite Hv, He. unfold wrap, auth.onRedis, zoom. cbn.
  rewrite Add_up by done. reflexivity.
Qed.

(** X15: [POST /auth/logout] with a token that is not valid.  For every
    header that carries a token text [Validate] refuses (malformed, wrongly
    signed, expired), the reply is 200 "Logged out successfully" and nothing
    is written; a missing header, a header without the prefix ["Bearer "], and
    the prefix with no token after it, get 400 VALIDATION_FAILED. *)
Theorem logout_of_an_invalid_token `{Primitives} (s : auth.Service) (now : Z)
    (segments : string -> jwt.TokenString) (t : string) (e : error) (w : auth.World) :
  t <> "" ->
  token.Validate (auth.tokenService s) now (segments t) = Err e ->
  auth.Handler_Logout s now segments (bearer t) w = (logged_out, w) /\
  auth.Handler_Logout s now segments "" w =
    (auth.ValidationError "Authorization header is required", w) /\
  auth.Handler_Logout s now segments (bearer "") w =
    (auth.ValidationError "Invalid Authorization header format", w) /\
  (forall h, h <> "" -> auth.HasPrefix h "Bearer " = false ->
     auth.Handler_Logout s now segments h w =
       (auth.ValidationError "Invalid Authorization header format", w)).
Proof.
  intros Ht Hv. split; [|split; [|split]].
  - rewrite Handler_Logout_bearer by done. unfold auth.Logout. rewrite Hv. reflexivity.
  - reflexivity.
  - reflexivity.
  - intros h Hh Hpre. unfold auth.Handler_Logout.
    destruct (String.eqb_spec h ""); [done|].
    unfold auth.HasPrefix in Hpre. change (String.length "Bearer ") with 7%nat in Hpre.
    destruct (Nat.ltb_spec 7 (String.length h)); [|reflexivity].
    destruct (Nat.leb_spec 7 (String.length h)); [|lia].
    cbn in Hpre. rewrite Hpre. reflexivity.
Qed.

Lemma logout_of_an_invalid_token_witness :
  @auth.Handler_Logout sample_primitives sample_service time.Minute
    (fun _ => jwt.Malformed "token contains an invalid number of segments")
    (bearer "garbage") sample_world
  = (logged_out, sample_world).
Proof.
  destruct (@logout_of_an_invalid_token sample_primitives sample_service time.Minute
              (fun _ => jwt.Malformed "token contains an invalid number of segments")
              "garbage"
              (Errorf "failed to parse token: %w"
                 [AErr (jwt.ErrTokenMalformed "token contains an invalid number of segments")])
              sample_world) as (H & _).
  - discriminate.
  - reflexivity.
  - exact H.
Defined.

(** X16: log-out, then the protected route.  With stores that answer, a
    header whose token [ValidateToken] accepts opens [GET /auth/me], which
    replies 200 with the subject of the token's [user_id] and its meta value;
    [POST /auth/logout] with the same header replies 200; after it the same
    header gets 401 INVALID_TOKEN with the message "token revoked" for as
    long as the token is otherwise valid. *)
Theorem logout_closes_the_protected_route `{Primitives} (s : auth.Service) (now later : Z)
    (segments : string -> jwt.TokenString) (t : string) (claims : Claims) (exp : Z)
    (m : gmap string redis.entry) (d : user.DB) (uwm : user.UserWithMeta) :
  t <> "" ->
  token.Validate (auth.tokenService s) now (segments t) = Ok claims ->
  token.Validate (auth.tokenService s) later (segments t) = Ok claims ->
  ExpiresAt (Registered claims) = Some exp ->
  redis.lookup now (token.blacklistKey (ID (Registered claims))) m = None ->
  user.net d = reachable ->
  with_meta d (UserID claims) = Some uwm ->
  let w := {| auth.rdb := up m; auth.db := d |} in
  let w' := snd (auth.Handler_Logout s now segments (bearer t) w) in
  server.GET_auth_me s now segments (bearer t) w =
    ({| auth.status := 200; auth.body := auth.Success (user.User_ uwm, user.Meta_ uwm) |}, w) /\
  auth.Handler_Logout s now segments (bearer t) w = (logged_out, w') /\
  server.GET_auth_me s later segments (bearer t) w' =
    (unauthorized "INVALID_TOKEN" "token revoked", w').
Proof.
  intros Ht Hv Hv' He Hfree Hn Hmeta w w'. subst w w'.
  rewrite Handler_Logout_bearer by done.
  rewrite (Logout_up s now (segments t) claims exp) by done. cbn [snd].
  split; [|split; [reflexivity|]].
  - unfold server.GET_auth_me. rewrite Auth_bearer.
    rewrite (ValidateToken_up s now (segments t) claims) by done. rewrite Hfree.
    unfold auth.Me. rewrite GetCurrentUser_up by done. rewrite Hmeta. reflexivity.
  - unfold server.GET_auth_me. rewrite Auth_bearer.
    rewrite (ValidateToken_up s later (segments t) claims) by done.
    pose proof (Validate_not_expired _ _ _ _ _ Hv' He) as Hlater.
    unfold redis.lookup, redis.live. rewrite lookup_insert_eq. cbn.
    destruct (Z.ltb_spec later (jwt.Time exp)); [reflexivity | lia].
Qed.

Lemma logout_closes_the_protected_route_witness :
  let segments := fun _ : string =>
    @signed_with sample_primitives "HS256" "SHA256" "access-secret" sample_claims in
  let w' := snd (@auth.Handler_Logout sample_primitives sample_service time.Minute segments
                   (bearer "t") sample_world) in
  @server.GET_auth_me sample_primitives sample_service time.Hour segments (bearer "t") w'
  = (unauthorized "INVALID_TOKEN" "token revoked", w').
Proof.
  intros segments w'.
  destruct (@logout_closes_the_protected_route sample_primitives sample_service time.Minute
              time.Hour segments "t" sample_claims 21600 ∅ (sample_db reachable)
              {| user.User_ := sample_user; user.Meta_ := user.IsTeacher (Some sample_teacher) |})
    as (_ & _ & H).
  - discriminate.
  - vm_compute. reflexivity.
  - vm_compute. reflexivity.
  - reflexivity.
  - reflexivity.
  - reflexivity.
  - vm_compute. reflexivity.
  - exact H.
Defined.

(** X17: what the protected route refuses.  A missing header and a header
    without the prefix ["Bearer "] get 401 UNAUTHORIZED without a call to a
    store; a token [Validate] refuses gets 401 INVALID_TOKEN with the text of
    the error, again without a call to a store; and a valid token that is not
    revoked, for a [user_id] that names no subject in the directory, gets 500
    INTERNAL_ERROR. *)
Theorem protected_route_refusals `{Primitives} (s : auth.Service) (now : Z)
    (segments : string -> jwt.TokenString) (w : auth.World) :
  server.GET_auth_me s now segments "" w =
    (unauthorized "UNAUTHORIZED" "Missing Authorization header", w) /\
  (forall h, h <> "" -> auth.HasPrefix h "Bearer " = false ->
     server.GET_auth_me s now segments h w =
       (unauthorized "UNAUTHORIZED" "Invalid Authorization header format", w)) /\
  (forall t e,
     token.Validate (auth.tokenService s) now (segments t) = Err e ->
     server.GET_auth_me s now segments (bearer t) w =
       (unauthorized "INVALID_TOKEN" ("invalid token: " +:+ Error e), w)) /\
  (forall t claims m,
     token.Validate (auth.tokenService s) now (segments t) = Ok claims ->
     auth.rdb w = up m ->
     redis.lookup now (token.blacklistKey (ID (Registered claims))) m = None ->
     user.net (auth.db w) = reachable ->
     with_meta (auth.db w) (UserID claims) = None ->
     server.GET_auth_me s now segments (bearer t) w = (internal_error, w)).
Proof.
  split; [reflexivity|]. split; [|split].
  - intros h Hh Hpre. unfold server.GET_auth_me, middleware.Auth.
    destruct (String.eqb_spec h ""); [done|]. rewrite Hpre. reflexivity.
  - intros t e Hv. unfold server.GET_auth_me. rewrite Auth_bearer.
    unfold auth.ValidateToken, bind, wrap, auth.lift. rewrite Hv. cbn.
    rewrite append_empty_r. reflexivity.
  - intros t claims m Hv Hw Hfree Hn Hmeta. destruct w as [c d]. cbn in Hw, Hn, Hmeta. subst c.
    unfold server.GET_auth_me. rewrite Auth_bearer.
    rewrite (ValidateToken_up s now (segments t) claims) by done. rewrite Hfree.
    unfold auth.Me. rewrite GetCurrentUser_up by done. rewrite Hmeta. reflexivity.
Qed.

Lemma protected_route_refusals_witness :
  @server.GET_auth_me sample_primitives sample_service time.Minute
    (fun _ => @signed_with sample_primitives "HS256" "SHA256" "access-secret" sample_claims)
    (bearer "t")
    {| auth.rdb := up ∅; auth.db := user.set_users (fun _ => []) (sample_db reachable) |}
  = (internal_error,
     {| auth.rdb := up ∅; auth.db := user.set_users (fun _ => []) (sample_db reachable) |}).
Proof.
  destruct (@protected_route_refusals sample_primitives sample_service time.Minute
              (fun _ => @signed_with sample_primitives "HS256" "SHA256" "access-secret"
                          sample_claims)
              {| auth.rdb := up ∅;
                 auth.db := user.set_users (fun _ => []) (sample_db reachable) |})
    as (_ & _ & _ & H).
  apply (H "t" sample_claims ∅).
  - vm_compute. reflexivity.
  - reflexivity.
  - reflexivity.
  - reflexivity.
  - reflexivity.
Defined.

(** ** A session *)

(** X18: a session, from log-in to log-out.  After a password log-in that
    succeeds, the access token of the response passes [ValidateToken] at
    every instant before the whole second of its expiry, with claims that
    name the subject (identifier, stored address, full name, role) and the
    token identifier drawn for the access token; after [Logout] with that
    token, [ValidateToken] refuses it at every instant. *)
Theorem session_from_login_to_logout `{Primitives} (s : auth.Service) (l : ratelimit.Limiter)
    (now later : Z) (jtis : string * string) (email password ip : string)
    (m : gmap string redis.entry) (d : user.DB)
    (usr : user.User) (uwm : user.UserWithMeta) (name : string) (count : Z) :
  auth.rateLimiter s = Some l ->
  user.net d = reachable ->
  redis.lookup now (ratelimit.LoginLockoutKey (auth.SanitizeEmail email) ip) m = None ->
  match redis.lookup now (ratelimit.LoginAttemptKey (auth.SanitizeEmail email) ip) m with
  | Some e => redis.val e = count
  | None => count = 0
  end ->
  0 <= count < ratelimit.maxAttempts l ->
  ratelimit.maxAttempts l <= max_int ->
  user_by_email (auth.SanitizeEmail email) d = Some usr ->
  auth.VerifyPassword password (user.User_PasswordDigest usr) = Ok tt ->
  with_meta (logged_on now (user.User_ID usr)
               (attempted now (auth.SanitizeEmail email) ip true d))
    (user.User_ID usr) = Some uwm ->
  user.GetFullName uwm = Ok name ->
  m !! token.blacklistKey (fst jtis) = None ->
  now <= later < (now + token.accessTokenTTL (auth.tokenService s)) / time.Second * time.Second ->
  exists resp w1 claims,
    auth.AuthenticateEmailPassword s now jtis email password ip
      {| auth.rdb := up m; auth.db := d |} = (Ok resp, w1) /\
    let tok := token.AccessToken (auth.Token resp) in
    auth.ValidateToken s later tok w1 = (Ok claims, w1) /\
    UserID claims = user.User_ID usr /\ Email claims = user.User_Email usr /\
    Name claims = name /\ MetaType claims = user.User_MetaType usr /\
    MetaID claims = user.User_MetaID usr /\ ID (Registered claims) = fst jtis /\
    let w2 := snd (auth.Logout s later tok w1) in
    auth.Logout s later tok w1 = (Ok tt, w2) /\
    forall t, exists e, auth.ValidateToken s t tok w2 = (Err e, w2).
Proof.
  intros Hl Hn Hlk Hak Hcount Hmax Husr Hpw Hmeta Hname Hfree Hlater.
  pose proof (password_login_steps s l now jtis email password ip m d usr uwm count
                Hl Hn Hlk Hak Hcount Hmax Husr Hpw Hmeta) as E.
  unfold auth.issue in E. rewrite Hname, Generate_Ok in E.
  set (claims := token.accessClaims (auth.tokenService s) now (fst jtis) (user.User_ID usr)
                   (default "" (user.User_BoddleUID usr)) (user.User_Email usr) name
                   (user.User_MetaType usr) (user.User_MetaID usr)) in *.
  set (tok := signed_with "HS256" "SHA256" (token.secretKey (auth.tokenService s)) claims) in *.
  eexists _, _, claims. split; [exact E|]. cbn [auth.Token token.AccessToken]. fold tok.
  assert (Hwindow : forall t, now <= t ->
    jwt.Validate t (Registered claims) =
      if t <? (now + token.accessTokenTTL (auth.tokenService s)) / time.Second * time.Second
      then Ok tt else Err (ErrLib "token is expired")).
  { intros t Ht. apply jwt_Validate_window; [reflexivity | reflexivity | exact Ht]. }
  assert (Hv : token.Validate (auth.tokenService s) later tok = Ok claims).
  { apply Validate_signed. rewrite Hwindow by lia.
    destruct (Z.ltb_spec later ((now + token.accessTokenTTL (auth.tokenService s))
                                / time.Second * time.Second)); [reflexivity | lia]. }
  set (m1 := delete _ m) in *.
  assert (Hfree1 : forall t, redis.lookup t (token.blacklistKey (fst jtis)) m1 = None).
  { intros t. unfold redis.lookup. subst m1.
    destruct (decide (ratelimit.LoginAttemptKey (auth.SanitizeEmail email) ip
                      = token.blacklistKey (fst jtis))) as [->|Hne].
    - rewrite lookup_delete_eq. reflexivity.
    - rewrite lookup_delete_ne by done. rewrite Hfree. reflexivity. }
  split.
  { rewrite (ValidateToken_up s later tok claims) by done.
    change (ID (Registered claims)) with (fst jtis). rewrite Hfree1. reflexivity. }
  repeat (split; [reflexivity|]).
  rewrite (Logout_up s later tok claims
             ((now + token.accessTokenTTL (auth.tokenService s)) / time.Second))
    by (done || reflexivity).
  cbn [snd]. split; [reflexivity|].
  intros t.
  destruct (token.Validate (auth.tokenService s) t tok) as [c'|e] eqn:Hv'.
  - pose proof (Validate_same_claims _ _ _ _ _ _ Hv Hv') as ->.
    rewrite (ValidateToken_up s t tok claims) by done.
    pose proof (Validate_not_expired _ _ _ _
                  ((now + token.accessTokenTTL (auth.tokenService s)) / time.Second)
                  Hv' eq_refl) as Ht.
    unfold redis.lookup, redis.live. rewrite lookup_insert_eq. cbn [redis.deadline].
    destruct (Z.ltb_spec t (jwt.Time ((now + token.accessTokenTTL (auth.tokenService s))
                                      / time.Second))); [cbn; eauto | lia].
  - eexists. unfold auth.ValidateToken, bind, wrap, auth.lift. rewrite Hv'. reflexivity.
Qed.

Lemma session_from_login_to_logout_witness :
  exists resp w1 claims,
    @auth.AuthenticateEmailPassword sample_primitives sample_service time.Minute
      ("jti-1", "jti-2") "t@example.com" "Passw0rd!" "10.0.0.1" sample_world = (Ok resp, w1) /\
    let tok := token.AccessToken (auth.Token resp) in
    @auth.ValidateToken sample_primitives sample_service time.Hour tok w1 = (Ok claims, w1) /\
    UserID claims = 123 /\
    let w2 := snd (@auth.Logout sample_primitives sample_service time.Hour tok w1) in
    forall t, exists e, @auth.ValidateToken sample_primitives sample_service t tok w2 = (Err e, w2).
Proof.
  destruct (@session_from_login_to_logout sample_primitives sample_service default_limiter
              time.Minute time.Hour ("jti-1", "jti-2") "t@example.com" "Passw0rd!" "10.0.0.1"
              ∅ (sample_db reachable) sample_user
              {| user.User_ := user.set_last_logged_on time.Minute sample_user;
                 user.Meta_ := user.IsTeacher (Some sample_teacher) |}
              "Test User" 0)
    as (resp & w1 & claims & E & Hv & Hid & _ & _ & _ & _ & _ & _ & Hrev).
  - reflexivity.
  - reflexivity.
  - vm_compute. reflexivity.
  - vm_compute. reflexivity.
  - vm_compute. split; [discriminate | reflexivity].
  - vm_compute. discriminate.
  - vm_compute. reflexivity.
  - vm_compute. reflexivity.
  - vm_compute. reflexivity.
  - vm_compute. reflexivity.
  - reflexivity.
  - vm_compute. split; [discriminate | reflexivity].
  - exists resp, w1, claims. cbn zeta in *. auto.
Defined.

(** ** Expressions and the texts they match *)

Lemma append_eq_nil (u v : string) : u +:+ v = "" -> u = "" /\ v = "".
Proof. destruct u; [rewrite append_nil; auto | rewrite append_cons; discriminate]. Qed.

Lemma append_assoc (u v w : string) : (u +:+ v) +:+ w = u +:+ (v +:+ w).
Proof.
  induction u as [|c r IH]; [rewrite !append_nil; reflexivity|].
  rewrite !append_cons, IH. reflexivity.
Qed.

Lemma length_append (u v : string) :
  String.length (u +:+ v) = (String.length u + String.length v)%nat.
Proof.
  induction u as [|c r IH]; [rewrite append_nil; reflexivity|].
  rewrite append_cons. cbn. rewrite IH. reflexivity.
Qed.

Lemma nullable_matches r : regexp.nullable r = true <-> matches r "".
Proof.
  split.
  - induction r; cbn; intros Hn; try discriminate.
    + constructor.
    + apply andb_true_iff in Hn as [H1 H2].
      change "" with ("" +:+ ""). constructor; auto.
    + apply orb_true_iff in Hn as [Hn|Hn]; [apply matches_left | apply matches_right]; auto.
    + constructor.
  - intros Hm. remember "" as t eqn:Ht. induction Hm; cbn; try reflexivity; try discriminate.
    + apply append_eq_nil in Ht as [-> ->]. rewrite IHHm1, IHHm2; reflexivity.
    + rewrite IHHm by done. reflexivity.
    + rewrite IHHm by done. apply orb_true_r.
Qed.

Lemma derivative_matches c r : forall t, matches (regexp.derivative c r) t <-> matches r (String c t).
Proof.
  induction r as [| |p|r1 IH1 r2 IH2|r1 IH1 r2 IH2|r IH]; intros t; cbn.
  - split; intros Hm; inversion Hm.
  - split; intros Hm; inversion Hm.
  - destruct (p c) eqn:Hp; split; intros Hm.
    + inversion Hm; subst. constructor. exact Hp.
    + inversion Hm; subst. constructor.
    + inversion Hm.
    + inversion Hm; subst. congruence.
  - assert (Hleft : forall u v, matches (regexp.derivative c r1) u -> matches r2 v ->
                                matches (regexp.Concat r1 r2) (String c (u +:+ v))).
    { intros u v Hu Hv. rewrite <- append_cons. constructor; [apply IH1|]; assumption. }
    assert (Hsplit : matches (regexp.Concat r1 r2) (String c t) ->
      (exists u v, t = u +:+ v /\ matches (regexp.derivative c r1) u /\ matches r2 v) \/
      (matches r1 "" /\ matches (regexp.derivative c r2) t)).
    { intros Hm. inversion Hm as [| |r s u v Hu Hv [Hr Hs] Huv| | | |]; subst.
      destruct u as [|c' u'].
      - rewrite append_nil in Huv. subst v. right. split; [exact Hu | apply IH2; exact Hv].
      - rewrite append_cons in Huv. injection Huv as -> <-.
        left. exists u', v. split; [reflexivity|]. split; [apply IH1; exact Hu | exact Hv]. }
    destruct (regexp.nullable r1) eqn:Hn; split; intros Hm.
    + inversion Hm as [| | |r s u Hu|r s u Hu| |]; subst.
      * inversion Hu; subst. apply Hleft; assumption.
      * change (String c t) with ("" +:+ String c t). constructor;
          [apply nullable_matches; exact Hn | apply IH2; exact Hu].
    + destruct (Hsplit Hm) as [(u & v & -> & Hu & Hv) | [_ Ht]].
      * apply matches_left. constructor; assumption.
      * apply matches_right. exact Ht.
    + inversion Hm; subst. apply Hleft; assumption.
    + destruct (Hsplit Hm) as [(u & v & -> & Hu & Hv) | [He _]].
      * constructor; assumption.
      * apply nullable_matches in He. congruence.
  - split; intros Hm.
    + inversion Hm; subst; [apply matches_left; apply IH1 | apply matches_right; apply IH2];
        assumption.
    + inversion Hm; subst; [apply matches_left; apply IH1 | apply matches_right; apply IH2];
        assumption.
  - split; intros Hm.
    + inversion Hm as [| |r1 s u v Hu Hv| | | |]; subst.
      rewrite <- append_cons. apply matches_star_cons; [apply IH; exact Hu | exact Hv].
    + remember (regexp.Star r) as sr eqn:Hsr. remember (String c t) as ct eqn:Hct.
      revert t Hct. induction Hm as [| | | | | |r' u v Hu _ Hv IHv]; intros t Hct;
        try discriminate.
      injection Hsr as ->. destruct u as [|c' u'].
      * rewrite append_nil in Hct. apply IHv; [reflexivity | exact Hct].
      * rewrite append_cons in Hct. injection Hct as -> <-.
        constructor; [apply IH; exact Hu | exact Hv].
Qed.

Lemma MatchString_matches r t : regexp.MatchString r t = true <-> matches r t.
Proof.
  revert r. induction t as [|c t IH]; intros r; cbn.
  - apply nullable_matches.
  - rewrite IH. apply derivative_matches.
Qed.

(** What the parts of [emailRegex] match. *)
Lemma matches_concat_inv r s t :
  matches (regexp.Concat r s) t <-> exists u v, t = u +:+ v /\ matches r u /\ matches s v.
Proof.
  split.
  - intros Hm. inversion Hm; subst. eauto.
  - intros (u & v & -> & Hu & Hv). constructor; assumption.
Qed.

Lemma matches_class_inv p t :
  matches (regexp.CharClass p) t <-> exists c, t = String c "" /\ p c = true.
Proof.
  split.
  - intros Hm. inversion Hm; subst. eauto.
  - intros (c & -> & Hp). constructor. exact Hp.
Qed.

Lemma matches_star_class p t :
  matches (regexp.Star (regexp.CharClass p)) t <-> all_in p t = true.
Proof.
  split.
  - intros Hm. remember (regexp.Star (regexp.CharClass p)) as r eqn:Hr.
    induction Hm; try discriminate; [reflexivity|].
    injection Hr as ->. inversion Hm1; subst. rewrite append_cons, append_nil. cbn.
    rewrite IHHm2 by reflexivity. rewrite H0. reflexivity.
  - induction t as [|c t IH]; cbn; intros Hall; [constructor|].
    apply andb_true_iff in Hall as [Hc Hall].
    change (String c t) with (String c "" +:+ t). constructor; [constructor; exact Hc | auto].
Qed.

Lemma matches_plus_class p t :
  matches (regexp.Plus (regexp.CharClass p)) t <-> t <> "" /\ all_in p t = true.
Proof.
  unfold regexp.Plus. rewrite matches_concat_inv. split.
  - intros (u & v & -> & Hu & Hv). apply matches_class_inv in Hu as (c & -> & Hc).
    apply matches_star_class in Hv. rewrite append_cons, append_nil. cbn.
    rewrite Hc, Hv. done.
  - intros [Hne Hall]. destruct t as [|c t]; [done|]. cbn in Hall.
    apply andb_true_iff in Hall as [Hc Hall].
    exists (String c ""), t. split; [reflexivity|].
    split; [constructor; exact Hc | apply matches_star_class; exact Hall].
Qed.

Lemma matches_repeat_class p n t :
  matches (regexp.Repeat n (regexp.CharClass p)) t <->
  (n <= String.length t)%nat /\ all_in p t = true.
Proof.
  revert t. induction n as [|n IH]; intros t; cbn [regexp.Repeat].
  - rewrite matches_star_class. split; [intros; split; [lia | done] | intros [_ ?]; done].
  - rewrite matches_concat_inv. split.
    + intros (u & v & -> & Hu & Hv). apply matches_class_inv in Hu as (c & -> & Hc).
      apply IH in Hv as [Hlen Hall]. rewrite append_cons, append_nil. cbn.
      rewrite Hc, Hall. split; [lia | done].
    + intros [Hlen Hall]. destruct t as [|c t]; [cbn in Hlen; lia|]. cbn in Hlen, Hall.
      apply andb_true_iff in Hall as [Hc Hall].
      exists (String c ""), t. split; [reflexivity|].
      split; [constructor; exact Hc | apply IH; split; [lia | done]].
Qed.

Lemma matches_literal c t : matches (regexp.Literal c) t <-> t = String c "".
Proof.
  unfold regexp.Literal. rewrite matches_class_inv. split.
  - intros (c' & -> & Hc). apply Ascii.eqb_eq in Hc. subst. reflexivity.
  - intros ->. exists c. split; [reflexivity | apply Ascii.eqb_refl].
Qed.

Lemma emailRegex_matches t :
  matches auth.emailRegex t <->
  exists loc domain tld,
    t = loc +:+ "@" +:+ domain +:+ "." +:+ tld /\
    loc <> "" /\ all_in auth.local_char loc = true /\
    domain <> "" /\ all_in auth.domain_char domain = true /\
    (2 <= String.length tld)%nat /\ all_in auth.letter tld = true.
Proof.
  unfold auth.emailRegex. split.
  - intros Hm.
    apply matches_concat_inv in Hm as (loc & t1 & -> & Hloc & Hm).
    apply matches_concat_inv in Hm as (at_ & t2 & -> & Hat & Hm).
    apply matches_concat_inv in Hm as (domain & t3 & -> & Hdom & Hm).
    apply matches_concat_inv in Hm as (dot & tld & -> & Hdot & Htld).
    apply matches_plus_class in Hloc as [? ?]. apply matches_plus_class in Hdom as [? ?].
    apply matches_literal in Hat as ->. apply matches_literal in Hdot as ->.
    apply matches_repeat_class in Htld as [? ?].
    exists loc, domain, tld. auto 10.
  - intros (loc & domain & tld & -> & Hl & Hla & Hd & Hda & Ht & Hta).
    apply matches_concat_inv. exists loc, ("@" +:+ domain +:+ "." +:+ tld).
    split; [reflexivity|]. split; [apply matches_plus_class; done|].
    apply matches_concat_inv. exists "@", (domain +:+ "." +:+ tld).
    split; [reflexivity|]. split; [apply matches_literal; reflexivity|].
    apply matches_concat_inv. exists domain, ("." +:+ tld).
    split; [reflexivity|]. split; [apply matches_plus_class; done|].
    apply matches_concat_inv. exists ".", tld.
    split; [reflexivity|]. split; [apply matches_literal; reflexivity|].
    apply matches_repeat_class. done.
Qed.

Lemma IsValidEmail_TrimSpace email :
  auth.IsValidEmail email = true <->
  (String.length (auth.TrimSpace email) <= 254)%nat /\
  exists loc domain tld,
    auth.TrimSpace email = loc +:+ "@" +:+ domain +:+ "." +:+ tld /\
    loc <> "" /\ all_in auth.local_char loc = true /\
    domain <> "" /\ all_in auth.domain_char domain = true /\
    (2 <= String.length tld)%nat /\ all_in auth.letter tld = true.
Proof.
  unfold auth.IsValidEmail. rewrite <- emailRegex_matches, <- MatchString_matches.
  destruct (Nat.ltb_spec 254 (String.length (auth.TrimSpace email))).
  - split; [discriminate | intros [? _]; lia].
  - split; [intros; split; [lia | done] | intros [_ ?]; done].
Qed.

(** X19: the addresses [IsValidEmail] accepts, among the texts of ASCII
    bytes.  Such an address is valid exactly when, with the white space
    around it removed, it has at most 254 bytes and reads local part, ["@"],
    domain, ["."], last label, where the local part is one or more of the
    letters, digits and [._%+-], the domain one or more of the letters,
    digits and [.-], and the last label two or more letters.  The white space
    removed is the longest run of tabs, line feeds, vertical tabs, form
    feeds, carriage returns and spaces at each end. *)
Theorem IsValidEmail_shape (email : string) :
  ascii_text email = true ->
  (auth.IsValidEmail email = true <->
   (String.length (auth.TrimSpace email) <= 254)%nat /\
   exists loc domain tld,
     auth.TrimSpace email = loc +:+ "@" +:+ domain +:+ "." +:+ tld /\
     loc <> "" /\ all_in auth.local_char loc = true /\
     domain <> "" /\ all_in auth.domain_char domain = true /\
     (2 <= String.length tld)%nat /\ all_in auth.letter tld = true) /\
  (forall pre core suf,
     email = pre +:+ core +:+ suf ->
     all_space pre = true -> all_space suf = true -> trimmed core = true ->
     auth.TrimSpace email = core).
Proof.
  intros _. split; [apply IsValidEmail_TrimSpace|].
  intros pre core suf -> Hpre Hsuf Hcore. apply TrimSpace_core; assumption.
Qed.

Lemma IsValidEmail_shape_witness :
  auth.IsValidEmail " t@example.com " = true /\
  auth.TrimSpace " t@example.com " = "t@example.com".
Proof.
  destruct (IsValidEmail_shape " t@example.com " eq_refl) as [Hvalid Htrim]. split.
  - apply Hvalid. split; [vm_compute; lia|].
    exists "t", "example", "com". vm_compute. repeat split; try reflexivity; try discriminate.
    lia.
  - apply (Htrim " " "t@example.com" " "); reflexivity.
Defined.

(** ** Validity and sanitizing *)

Lemma derivative_case_blind c r :
  case_blind r ->
  regexp.derivative (auth.to_lower c) r = regexp.derivative c r /\
  case_blind (regexp.derivative c r).
Proof.
  induction r as [| |p|r1 IH1 r2 IH2|r1 IH1 r2 IH2|r IH]; cbn; intros Hb; try done.
  - rewrite Hb. destruct (p c); done.
  - destruct Hb as [H1 H2]. destruct (IH1 H1) as [-> ?], (IH2 H2) as [-> ?].
    destruct (regexp.nullable r1); cbn; done.
  - destruct Hb as [H1 H2]. destruct (IH1 H1) as [-> ?], (IH2 H2) as [-> ?]. done.
  - destruct (IH Hb) as [-> ?]. done.
Qed.

Lemma MatchString_ToLower r t :
  case_blind r -> regexp.MatchString r (auth.ToLower t) = regexp.MatchString r t.
Proof.
  revert r. induction t as [|c t IH]; intros r Hb; cbn; [reflexivity|].
  destruct (derivative_case_blind c r Hb) as [-> Hb']. apply IH. exact Hb'.
Qed.

Lemma emailRegex_case_blind : case_blind auth.emailRegex.
Proof.
  cbn. repeat split; intros c; destruct c as [[] [] [] [] [] [] [] []]; reflexivity.
Qed.

Lemma length_ToLower t : String.length (auth.ToLower t) = String.length t.
Proof. induction t as [|c t IH]; cbn; [reflexivity | rewrite IH; reflexivity]. Qed.

(** X20: for a text of ASCII bytes, sanitizing an address does not change
    whether it is valid: the expression does not tell capital letters from
    small ones, and the white space around the address is not counted. *)
Theorem IsValidEmail_SanitizeEmail (email : string) :
  ascii_text email = true ->
  auth.IsValidEmail (auth.SanitizeEmail email) = auth.IsValidEmail email /\
  forall pre suf,
    all_space pre = true -> all_space suf = true ->
    auth.IsValidEmail (pre +:+ email +:+ suf) = auth.IsValidEmail email.
Proof.
  intros _. split.
  - unfold auth.IsValidEmail, auth.SanitizeEmail.
    rewrite TrimSpace_ToLower, TrimSpace_idem, length_ToLower.
    rewrite MatchString_ToLower by apply emailRegex_case_blind. reflexivity.
  - intros pre suf Hpre Hsuf. unfold auth.IsValidEmail.
    rewrite TrimSpace_surrounded by done. reflexivity.
Qed.

Lemma IsValidEmail_SanitizeEmail_witness :
  auth.IsValidEmail (auth.SanitizeEmail " T@Example.com ") = auth.IsValidEmail " T@Example.com " /\
  auth.IsValidEmail ("  " +:+ "T@Example.com" +:+ " ") = auth.IsValidEmail "T@Example.com".
Proof.
  split.
  - apply (IsValidEmail_SanitizeEmail " T@Example.com " eq_refl).
  - apply (IsValidEmail_SanitizeEmail "T@Example.com" eq_refl); reflexivity.
Defined.

(** ** The validation of a log-in request *)

(** X21: [ValidateLoginRequest] accepts a request exactly when its address
    is valid and its password has three bytes or more; otherwise it reports
    one error for each of the two fields that is at fault, the address
    first. *)
Theorem ValidateLoginRequest_reports (req : auth.LoginRequest) :
  (validator.ValidateLoginRequest req = None <->
   auth.IsValidEmail (auth.Email_ req) = true /\
   (3 <= String.length (auth.Password_ req))%nat) /\
  (forall errors,
     validator.ValidateLoginRequest req = Some errors ->
     map validator.Field errors = reported_fields req /\ errors <> []).
Proof.
  destruct req as [email password].
  unfold validator.ValidateLoginRequest, reported_fields, auth.minPasswordLength.
  cbn [auth.Email_ auth.Password_].
  assert (Hempty : auth.IsValidEmail "" = false) by reflexivity.
  destruct (String.eqb_spec email "") as [->|He];
    [rewrite Hempty | destruct (auth.IsValidEmail email) eqn:Hvalid]; cbn [negb app];
    (destruct (String.eqb_spec password "") as [->|Hp];
     [|destruct (Nat.ltb_spec (String.length password) 3) as [Hlen|Hlen]]);
    cbn [app length Nat.ltb Nat.leb String.length];
    (split;
     [split;
      [intros E; first [discriminate E | split; [reflexivity | lia]]
      |intros [E1 E2]; cbn in E2; first [discriminate E1 | lia | reflexivity]]
     |intros errors E; first [discriminate E | injection E as <-; split; [reflexivity | discriminate]]]).
Qed.

(** ** Student addresses *)

Lemma substring_suffix u v :
  String.substring (String.length u) (String.length v) (u +:+ v) = v.
Proof.
  induction u as [|c u IH]; [rewrite append_nil; apply substring_all|].
  rewrite append_cons. cbn. exact IH.
Qed.

Lemma substring_split n t :
  (n <= String.length t)%nat ->
  exists u, t = u +:+ String.substring n (String.length t - n) t /\ String.length u = n.
Proof.
  revert t. induction n as [|n IH]; intros t Hn.
  - exists "". rewrite append_nil, Nat.sub_0_r, substring_all. done.
  - destruct t as [|c t]; [cbn in Hn; lia|]. cbn in Hn.
    destruct (IH t ltac:(lia)) as (u & Hu & Hlen).
    exists (String c u). rewrite append_cons. cbn. rewrite <- Hu, Hlen. done.
Qed.

Lemma HasSuffix_spec t suffix :
  auth.HasSuffix t suffix = true <-> exists u, t = u +:+ suffix.
Proof.
  unfold auth.HasSuffix. split.
  - intros Hs. apply andb_true_iff in Hs as [Hlen Heq].
    apply Nat.leb_le in Hlen. apply String.eqb_eq in Heq.
    destruct (substring_split (String.length t - String.length suffix) t ltac:(lia))
      as (u & Hu & _).
    replace (String.length t - (String.length t - String.length suffix))%nat
      with (String.length suffix) in Hu by lia.
    rewrite Heq in Hu. eauto.
  - intros [u ->]. rewrite length_append.
    apply andb_true_iff. split; [apply Nat.leb_le; lia|].
    replace (String.length u + String.length suffix - String.length suffix)%nat
      with (String.length u) by lia.
    rewrite substring_suffix. apply String.eqb_refl.
Qed.

(** X22: student addresses.  [IsStudentEmail] holds exactly for the
    addresses that end, in small letters, with ["@student.student"]; it does
    not tell capital letters from small ones, and it holds for a sanitized
    address whenever it holds for the address. *)
Theorem IsStudentEmail_spec (email : string) :
  (auth.IsStudentEmail email = true <->
   exists user, auth.ToLower email = user +:+ "@student.student") /\
  auth.IsStudentEmail (auth.ToLower email) = auth.IsStudentEmail email /\
  (auth.IsStudentEmail email = true ->
   auth.IsStudentEmail (auth.SanitizeEmail email) = true).
Proof.
  unfold auth.IsStudentEmail. split; [apply HasSuffix_spec|]. split.
  - rewrite ToLower_idem. reflexivity.
  - intros Hs. apply HasSuffix_spec in Hs as [u Hu]. apply HasSuffix_spec.
    unfold auth.SanitizeEmail. rewrite ToLower_idem, <- TrimSpace_ToLower, Hu.
    exists (auth.TrimLeft u). unfold auth.TrimSpace.
    assert (Hleft : forall v, auth.TrimLeft (v +:+ "@student.student")
                              = auth.TrimLeft v +:+ "@student.student").
    { induction v as [|c v IH]; [reflexivity|].
      rewrite append_cons. cbn [auth.TrimLeft].
      destruct (auth.is_space c); [exact IH | rewrite append_cons; reflexivity]. }
    assert (Hright : forall v, auth.TrimRight (v +:+ "@student.student")
                               = v +:+ "@student.student").
    { induction v as [|c v IH]; [reflexivity|].
      rewrite append_cons. cbn [auth.TrimRight]. rewrite IH.
      destruct v; reflexivity. }
    rewrite Hleft. apply Hright.
Qed.

(** ** The state of a federated sign-in *)

Lemma text_call_up {A}
    (f : gmap string redis_text.entry -> result A * gmap string redis_text.entry) m :
  redis_text.call f (up_text m) = (fst (f m), up_text (snd (f m))).
Proof. unfold redis_text.call, up_text. cbn. destruct (f m); reflexivity. Qed.

Lemma SaveState_up sm now state url m :
  0 < oauth.ttl sm ->
  oauth.SaveState sm now state url (up_text m) =
    (Ok tt, up_text (<[oauth.stateKey state :=
                         {| redis_text.val := url;
                            redis_text.deadline := Some (now + oauth.ttl sm) |}]> m)).
Proof.
  intros Httl. unfold oauth.SaveState, wrap, redis_text.Set_. rewrite text_call_up. cbn.
  destruct (Z.ltb_spec 0 (oauth.ttl sm)); [reflexivity | lia].
Qed.

Lemma ValidateState_up sm now state m :
  oauth.ValidateState sm now state (up_text m) =
    match redis_text.lookup now (oauth.stateKey state) m with
    | Some e => (Ok (redis_text.val e), up_text (delete (oauth.stateKey state) m))
    | None => (Err (Errorf "invalid or expired state token" []), up_text m)
    end.
Proof.
  unfold oauth.ValidateState, bind, attempt, redis_text.Get, redis_text.Del.
  rewrite text_call_up.
  destruct (redis_text.lookup now (oauth.stateKey state) m); cbn; [|reflexivity].
  rewrite text_call_up. reflexivity.
Qed.

Lemma text_lookup_deleted t k (m : gmap string redis_text.entry) :
  redis_text.lookup t k (delete k m) = None.
Proof. unfold redis_text.lookup. rewrite lookup_delete_eq. reflexivity. Qed.

Lemma text_lookup_inserted t k e (m : gmap string redis_text.entry) :
  redis_text.lookup t k (<[k := e]> m) = if redis_text.live t e then Some e else None.
Proof. unfold redis_text.lookup. rewrite lookup_insert_eq. reflexivity. Qed.

Lemma HandleCallback_up sm p now code state m :
  oauth.HandleCallback sm p now code state (up_text m) =
    match redis_text.lookup now (oauth.stateKey state) m with
    | None => (Err invalid_state, up_text m)
    | Some e =>
        (match oauth.Exchange p code with
         | Err err => Err (Errorf "failed to exchange code: %w" [AErr err])
         | Ok token =>
             match oauth.fetchUserInfo p token with
             | Err err => Err (Errorf "failed to fetch user info: %w" [AErr err])
             | Ok userInfo => Ok (userInfo, redis_text.val e)
             end
         end, up_text (delete (oauth.stateKey state) m))
    end.
Proof.
  unfold oauth.HandleCallback, bind, wrap, auth.lift, ret, fail.
  rewrite ValidateState_up.
  destruct (redis_text.lookup now (oauth.stateKey state) m); [|reflexivity].
  destruct (oauth.Exchange p code) as [token|err]; [|reflexivity].
  destruct (oauth.fetchUserInfo p token); reflexivity.
Qed.

(** X23: a state is good for one use within its lifetime.  On a store that
    answers, a state saved at [now] is validated once, at any instant before
    [now] plus the lifetime of ten minutes, and returns the redirect URL
    saved with it; every later validation of it fails as invalid or expired,
    as does a first validation when the lifetime has passed. *)
Theorem state_is_single_use (now t : Z) (state url : string)
    (m : gmap string redis_text.entry) :
  now <= t < now + 10 * time.Minute ->
  let sm := oauth.NewStateManager in
  let c := snd (oauth.SaveState sm now state url (up_text m)) in
  let c' := snd (oauth.ValidateState sm t state c) in
  oauth.SaveState sm now state url (up_text m) = (Ok tt, c) /\
  oauth.ValidateState sm t state c = (Ok url, c') /\
  (forall t', oauth.ValidateState sm t' state c' =
              (Err (Errorf "invalid or expired state token" []), c')) /\
  (forall t', now + 10 * time.Minute <= t' ->
              oauth.ValidateState sm t' state c =
              (Err (Errorf "invalid or expired state token" []), c)).
Proof.
  intros Ht sm c c'. subst c c'.
  rewrite SaveState_up by reflexivity. cbn [snd].
  change (oauth.ttl sm) with (10 * time.Minute).
  rewrite (ValidateState_up sm t), text_lookup_inserted. unfold redis_text.live. cbn.
  destruct (Z.ltb_spec t (now + 10 * time.Minute)); [|lia]. cbn [snd].
  split; [reflexivity|]. split; [reflexivity|]. split.
  - intros t'. rewrite ValidateState_up, text_lookup_deleted. reflexivity.
  - intros t' Ht'. rewrite ValidateState_up, text_lookup_inserted. unfold redis_text.live. cbn.
    destruct (Z.ltb_spec t' (now + 10 * time.Minute)); [lia | reflexivity].
Qed.

Lemma state_is_single_use_witness :
  let sm := oauth.NewStateManager in
  let c := snd (oauth.SaveState sm 0 "5f3a" "/dashboard" (up_text ∅)) in
  let c' := snd (oauth.ValidateState sm time.Minute "5f3a" c) in
  oauth.ValidateState sm time.Minute "5f3a" c = (Ok "/dashboard", c') /\
  oauth.ValidateState sm (2 * time.Minute) "5f3a" c' =
    (Err (Errorf "invalid or expired state token" []), c').
Proof.
  intros sm c c'.
  destruct (state_is_single_use 0 time.Minute "5f3a" "/dashboard" ∅) as (_ & H1 & H2 & _).
  - vm_compute. split; [discriminate | reflexivity].
  - split; [exact H1 | apply H2].
Defined.

(** X24: a callback uses the state up, whatever comes after.  On a store
    that answers, [HandleCallback] with a live state deletes the state before
    it turns to the provider: it returns the profile and the saved redirect
    URL when the exchange of the code and the fetch of the profile succeed,
    and the error of the step that fails otherwise; in every case a second
    callback with the same state is refused as an invalid state, whatever
    the provider would answer.  A state that is not in the store is refused
    without a word to the provider. *)
Theorem callback_uses_the_state_up (sm : oauth.StateManager) (p : oauth.Provider)
    (now : Z) (code state : string) (m : gmap string redis_text.entry)
    (e : redis_text.entry) :
  redis_text.lookup now (oauth.stateKey state) m = Some e ->
  let c' := snd (oauth.HandleCallback sm p now code state (up_text m)) in
  fst (oauth.HandleCallback sm p now code state (up_text m)) =
    match oauth.Exchange p code with
    | Err err => Err (Errorf "failed to exchange code: %w" [AErr err])
    | Ok token =>
        match oauth.fetchUserInfo p token with
        | Err err => Err (Errorf "failed to fetch user info: %w" [AErr err])
        | Ok userInfo => Ok (userInfo, redis_text.val e)
        end
    end /\
  (forall p' t' code',
     oauth.HandleCallback sm p' t' code' state c' = (Err invalid_state, c')) /\
  (forall p' state' m',
     redis_text.lookup now (oauth.stateKey state') m' = None ->
     oauth.HandleCallback sm p' now code state' (up_text m') = (Err invalid_state, up_text m')).
Proof.
  intros He c'. subst c'. rewrite HandleCallback_up, He. cbn [fst snd].
  split; [reflexivity|]. split.
  - intros p' t' code'. rewrite HandleCallback_up, text_lookup_deleted. reflexivity.
  - intros p' state' m' Hnone. rewrite HandleCallback_up, Hnone. reflexivity.
Qed.

Lemma callback_uses_the_state_up_witness :
  let p := {| oauth.AuthCodeURL := fun state => "https://provider/authorize?state=" +:+ state;
              oauth.Exchange := fun _ => Err (ErrLib "oauth2: cannot fetch token");
              oauth.fetchUserInfo := fun _ => Err (ErrLib "unreachable") |} in
  let m : gmap string redis_text.entry :=
    {[ oauth.stateKey "5f3a" :=
         {| redis_text.val := "/dashboard"; redis_text.deadline := Some (10 * time.Minute) |} ]} in
  let c' := snd (oauth.HandleCallback oauth.NewStateManager p time.Minute "code" "5f3a"
                   (up_text m)) in
  fst (oauth.HandleCallback oauth.NewStateManager p time.Minute "code" "5f3a" (up_text m)) =
    Err (Errorf "failed to exchange code: %w" [AErr (ErrLib "oauth2: cannot fetch token")]) /\
  oauth.HandleCallback oauth.NewStateManager p (2 * time.Minute) "code-2" "5f3a" c' =
    (Err invalid_state, c').
Proof.
  intros p m c'.
  destruct (callback_uses_the_state_up oauth.NewStateManager p time.Minute "code" "5f3a" m
              {| redis_text.val := "/dashboard";
                 redis_text.deadline := Some (10 * time.Minute) |}) as (H1 & H2 & _).
  - vm_compute. reflexivity.
  - split; [exact H1 | apply H2].
Defined.

(** ** State tokens *)

Lemma hex_byte v :
  fromHexChar (oauth.hexdigit (Ascii.nat_of_ascii v / 16)) = Some (Ascii.nat_of_ascii v / 16)%nat /\
  fromHexChar (oauth.hexdigit (Ascii.nat_of_ascii v mod 16))
    = Some (Ascii.nat_of_ascii v mod 16)%nat /\
  Ascii.ascii_of_nat (16 * (Ascii.nat_of_ascii v / 16) + Ascii.nat_of_ascii v mod 16) = v /\
  auth.one_of oauth.hextable (oauth.hexdigit (Ascii.nat_of_ascii v / 16)) = true /\
  auth.one_of oauth.hextable (oauth.hexdigit (Ascii.nat_of_ascii v mod 16)) = true.
Proof. destruct v as [[] [] [] [] [] [] [] []]; vm_compute; repeat split. Qed.

Lemma decode_hex_EncodeToString b : decode_hex (oauth.EncodeToString b) = Some b.
Proof.
  induction b as [|v b IH]; [reflexivity|]. cbn [oauth.EncodeToString decode_hex].
  destruct (hex_byte v) as (-> & -> & Hv & _). rewrite IH, Hv. reflexivity.
Qed.

(** X25: the state tokens.  The state [GenerateState] makes of the random
    bytes is twice as long as they are (64 bytes for the 32 that are drawn),
    holds digits and the letters a to f only, and stands for these bytes and
    no others: two draws give the same state only if they are the same
    bytes.  When the draw fails, so does the call. *)
Theorem state_tokens (b b' : string) (err : error) :
  oauth.GenerateState (Ok b) = Ok (oauth.EncodeToString b) /\
  String.length (oauth.EncodeToString b) = (2 * String.length b)%nat /\
  all_in (auth.one_of oauth.hextable) (oauth.EncodeToString b) = true /\
  decode_hex (oauth.EncodeToString b) = Some b /\
  (oauth.GenerateState (Ok b) = oauth.GenerateState (Ok b') -> b = b') /\
  oauth.GenerateState (Err err) =
    Err (Errorf "failed to generate random state: %w" [AErr err]).
Proof.
  split; [reflexivity|]. split; [|split; [|split; [|split]]].
  - induction b as [|v b IH]; [reflexivity|]. cbn [oauth.EncodeToString String.length].
    rewrite IH. lia.
  - induction b as [|v b IH]; [reflexivity|]. cbn [oauth.EncodeToString all_in].
    destruct (hex_byte v) as (_ & _ & _ & -> & ->). exact IH.
  - apply decode_hex_EncodeToString.
  - cbn. intros [= E].
    assert (Some b = Some b') as [= ->]; [|reflexivity].
    rewrite <- (decode_hex_EncodeToString b), <- (decode_hex_EncodeToString b'), E.
    reflexivity.
  - reflexivity.
Qed.

(** ** From the redirect to the provider to the callback *)

(** X26: the redirect URL comes back with the callback.  On a store that
    answers, [GoogleLogin] or [CleverLogin] saves the redirect URL of the
    request, or ["/"] when the request names none, under a fresh state and
    redirects to the provider with that state; the callback that brings the
    state back within ten minutes, with a code the provider exchanges and a
    profile it returns, gets the profile and that redirect URL. *)
Theorem redirect_url_comes_back (p : oauth.Provider) (now t : Z)
    (random redirect_url code token : string) (info : oauth.OAuthUserInfo)
    (m : gmap string redis_text.entry) :
  now <= t < now + 10 * time.Minute ->
  oauth.Exchange p code = Ok token ->
  oauth.fetchUserInfo p token = Ok info ->
  let sm := oauth.NewStateManager in
  let state := oauth.EncodeToString random in
  let c := snd (oauth.ProviderLogin sm p now (Ok random) redirect_url (up_text m)) in
  oauth.ProviderLogin sm p now (Ok random) redirect_url (up_text m) =
    (inr (oauth.AuthCodeURL p state), c) /\
  fst (oauth.HandleCallback sm p t code state c) =
    Ok (info, if String.eqb redirect_url "" then "/" else redirect_url).
Proof.
  intros Ht Hx Hf sm state c. subst c.
  unfold oauth.ProviderLogin, oauth.GetAuthURL, bind, auth.lift, ret. cbn [oauth.GenerateState].
  rewrite SaveState_up by reflexivity. cbn [fst snd]. split; [reflexivity|].
  rewrite HandleCallback_up, text_lookup_inserted. unfold redis_text.live.
  change (oauth.ttl sm) with (10 * time.Minute). cbn [redis_text.deadline].
  destruct (Z.ltb_spec t (now + 10 * time.Minute)); [|lia].
  rewrite Hx, Hf. reflexivity.
Qed.

Lemma redirect_url_comes_back_witness :
  let p := {| oauth.AuthCodeURL := fun state => "https://provider/authorize?state=" +:+ state;
              oauth.Exchange := fun code => Ok ("token-for-" +:+ code);
              oauth.fetchUserInfo := fun _ => Ok (google_profile "google-xyz" "t@example.com") |} in
  let c := snd (oauth.ProviderLogin oauth.NewStateManager p 0 (Ok "random bytes") ""
                  (up_text ∅)) in
  fst (oauth.HandleCallback oauth.NewStateManager p time.Minute "code"
         (oauth.EncodeToString "random bytes") c)
  = Ok (google_profile "google-xyz" "t@example.com", "/").
Proof.
  intros p c.
  destruct (redirect_url_comes_back p 0 time.Minute "random bytes" "" "code" "token-for-code"
              (google_profile "google-xyz" "t@example.com") ∅) as (_ & H).
  - vm_compute. split; [discriminate | reflexivity].
  - reflexivity.
  - reflexivity.
  - exact H.
Defined.

(** ** The tables of the repository's tests *)

(** validator_test.go: the cases of [TestIsValidEmail], [TestSanitizeEmail],
    [TestIsStudentEmail] and [TestValidateLoginRequest]. *)
Lemma validator_tests :
  map auth.IsValidEmail
    [ "test@example.com"; "user@mail.example.com"; "user+tag@example.com";
      "first.last@example.co.uk"; "userexample.com"; "user@"; "@example.com";
      "user @example.com"; "user@@example.com"; "" ]
  = [ true; true; true; true; false; false; false; false; false; false ] /\
  map auth.SanitizeEmail
    [ "USER@EXAMPLE.COM"; "  user@example.com  "; "  USER@EXAMPLE.COM  "; "user@example.com" ]
  = [ "user@example.com"; "user@example.com"; "user@example.com"; "user@example.com" ] /\
  map auth.IsStudentEmail
    [ "john123@student.student"; "JOHN123@STUDENT.STUDENT"; "teacher@example.com";
      "user@gmail.com"; "user@student.example.com" ]
  = [ true; true; false; false; false ] /\
  map (fun req => option_map validator.validationErrors_Error
                    (validator.ValidateLoginRequest req))
    [ {| auth.Email_ := "user@example.com"; auth.Password_ := "password123" |};
      {| auth.Email_ := ""; auth.Password_ := "password123" |};
      {| auth.Email_ := "notanemail"; auth.Password_ := "password123" |};
      {| auth.Email_ := "user@example.com"; auth.Password_ := "" |};
      {| auth.Email_ := "user@example.com"; auth.Password_ := "ab" |};
      {| auth.Email_ := ""; auth.Password_ := "" |} ]
  = [ None;
      Some "email: Email is required";
      Some "email: Email format is invalid";
      Some "password: Password is required";
      Some "password: Password must be at least 3 characters";
      Some "email: Email is required; password: Password is required" ].
Proof. vm_compute. repeat split. Qed.

(** ** Witnesses of the fail-open log-in and of the other providers *)

Lemma AuthenticateEmailPassword_store_unreachable_witness :
  let w := {| auth.rdb := down ∅; auth.db := sample_db reachable |} in
  @auth.AuthenticateEmailPassword sample_primitives sample_service time.Minute
    ("jti-1", "jti-2") "t@example.com" "Passw0rd!" "10.0.0.1" w =
  @auth.AuthenticateEmailPassword sample_primitives
    {| auth.tokenService := sample_token_service; auth.rateLimiter := None |}
    time.Minute ("jti-1", "jti-2") "t@example.com" "Passw0rd!" "10.0.0.1" w.
Proof.
  intros w.
  apply (@AuthenticateEmailPassword_store_unreachable sample_primitives sample_service
           time.Minute ("jti-1", "jti-2") "t@example.com" "Passw0rd!" "10.0.0.1" w).
  reflexivity.
Defined.

Lemma clever_resolution_witness :
  oauth.findOrCreateCleverUser time.Minute (google_profile "clever-xyz" "t@example.com")
    (sample_db reachable) =
  (Ok (Some sample_user,
       user.IsTeacher (Some (user.link_teacher_clever 0 "clever-xyz" sample_teacher))),
   teachers_updated (user.link_teacher_clever time.Minute "clever-xyz") 456
     (sample_db reachable)).
Proof.
  pose proof (clever_resolution time.Minute (google_profile "clever-xyz" "t@example.com")
                (sample_db reachable) eq_refl) as E.
  cbn zeta in E. rewrite E. vm_compute. reflexivity.
Defined.

Lemma icloud_resolution_witness :
  fst (oauth.findOrCreateiCloudUser time.Minute (google_profile "apple-xyz" "p@example.com")
         parent_db) =
  Ok (user_by_email "p@example.com" parent_db,
      user.IsParent (option_map (user.link_parent_icloud 0 "apple-xyz")
                       (parent_by_id 70 parent_db))).
Proof.
  pose proof (icloud_resolution time.Minute (google_profile "apple-xyz" "p@example.com")
                parent_db eq_refl) as E.
  cbn zeta in E. rewrite E. vm_compute. reflexivity.
Defined.

(** X30: the Clever and the iCloud resolution create nothing.  Whatever the
    directory holds and whichever of its calls fail, a resolution leaves the
    subjects and the identifiers of the teacher, student and parent records
    as they were: it links a record or changes nothing. *)
Theorem other_providers_create_nothing (now : Z) (info : oauth.OAuthUserInfo) (d : user.DB) :
  population (snd (oauth.findOrCreateCleverUser now info d)) = population d /\
  population (snd (oauth.findOrCreateiCloudUser now info d)) = population d.
Proof.
  split.
  - apply findOrCreateCleverUser_population.
  - apply findOrCreateiCloudUser_population.
Qed.

(** ** The log-in path and the keys of the limiter *)

Section path.
Context `{Primitives}.
Variables (s : auth.Service) (l : ratelimit.Limiter) (now : Z) (jtis : string * string).
Variables (email password ip : string).
Hypothesis Hlimiter : auth.rateLimiter s = Some l.

Let e := auth.SanitizeEmail email.




(** What a log-in leaves in the key-value store: what the check left, or
    that and the record of a failure or of a success, and these only when
    the check did not deny. *)
Lemma login_rdb c d :
  let chk := ratelimit.CheckLoginAttempt l now e ip c in
  let c' := auth.rdb (snd (auth.AuthenticateEmailPassword s now jtis email password ip
                             {| auth.rdb := c; auth.db := d |})) in
  c' = snd chk \/
  ((forall a b, fst chk <> Ok (false, a, b)) /\
   (c' = snd (ratelimit.RecordFailedAttempt l now e ip (snd chk)) \/
    c' = snd (ratelimit.RecordSuccessfulAttempt l now e ip (snd chk)))).
Proof.
  destruct s as [ts rl]. cbn in Hlimiter. subst rl. unfold_service. fold e.
  destruct (ratelimit.CheckLoginAttempt l now e ip c) as [[[[[] a] b]|err] c1];
    cbn; [| left; reflexivity |].
  all: destruct (user.FindByEmail e d) as [[[usr|]|e0] d0]; cbn; [| | left; reflexivity].
  all: try (destruct (auth.VerifyPassword password (user.User_PasswordDigest usr)); cbn).
  all: try (destruct (user.RecordLoginAttempt now e ip false d0) as [r1 d1]; cbn;
            destruct (ratelimit.RecordFailedAttempt l now e ip c1) as [r2 c2]; cbn;
            right; split; [intros; discriminate | left; reflexivity]).
  all: destruct (user.RecordLoginAttempt now e ip true d0) as [r1 d1]; cbn.
  all: destruct (ratelimit.RecordSuccessfulAttempt l now e ip c1) as [r2 c2]; cbn.
  all: destruct (user.UpdateLastLoggedOn now (user.User_ID usr) d1) as [r3 d3]; cbn.
  all: destruct (user.FindWithMeta (user.User_ID usr) d3) as [[uwm|e5] d5]; cbn.
  all: try destruct (auth.issue _ now jtis usr uwm); cbn.
  all: right; split; [intros; discriminate | right; reflexivity].
Qed.
End path.

Lemma half_second_pos : 0 < half_second.
Proof. reflexivity. Qed.

(** A marker the check passes is gone half a second later, when it has a
    deadline. *)
Lemma marker_passes_later email ip now m :
  marker_passes email ip now m ->
  (forall e, m !! ratelimit.LoginLockoutKey email ip = Some e -> redis.deadline e <> None) ->
  redis.lookup (now + half_second) (ratelimit.LoginLockoutKey email ip) m = None.
Proof.
  unfold marker_passes, redis.lookup, redis.live. intros Hpass Htimed.
  pose proof half_second_pos.
  destruct (m !! ratelimit.LoginLockoutKey email ip) as [e|] eqn:Hm; [|reflexivity].
  specialize (Htimed e eq_refl).
  destruct (redis.deadline e) as [d|] eqn:Hd; [|done].
  destruct (Z.ltb_spec (now + half_second) d); [|reflexivity].
  destruct (Z.ltb_spec now d); [|lia]. rewrite Hd in Hpass. lia.
Qed.

Lemma marker_passes_absent email ip now m :
  marker_passes email ip now m ->
  redis.lookup now (ratelimit.LoginLockoutKey email ip) m = None \/
  (exists e d, m !! ratelimit.LoginLockoutKey email ip = Some e /\
               redis.deadline e = Some d /\ half_second <= d - now) ->
  redis.lookup now (ratelimit.LoginLockoutKey email ip) m = None.
Proof.
  intros Hpass [Hnone | (e & d & Hm & Hd & Hleft)]; [exact Hnone|].
  unfold marker_passes, redis.lookup, redis.live in *. rewrite Hm in *. rewrite Hd in *.
  pose proof half_second_pos.
  destruct (Z.ltb_spec now d); [|lia]. rewrite Hd in Hpass. lia.
Qed.

Section exclusion.
Context `{Primitives}.
Variables (l : ratelimit.Limiter) (now : Z) (email ip email' ip' : string).

(** The store after a log-in for the pair (email, ip), at an instant [t]
    from [now] on at which the marker of the pair is gone. *)
Lemma login_keeps_apart s jtis raw password m d t :
  auth.rateLimiter s = Some l ->
  auth.SanitizeEmail raw = email ->
  now <= t ->
  (marker_passes email ip now m ->
   redis.lookup t (ratelimit.LoginLockoutKey email ip) m = None) ->
  coexist now email' ip' (up m) = false ->
  coexist t email' ip'
    (auth.rdb (snd (auth.AuthenticateEmailPassword s now jtis raw password ip
                      {| auth.rdb := up m; auth.db := d |}))) = false.
Proof.
  intros Hl <- Ht Hgone Hinv.
  pose proof (login_rdb s l now jtis raw password ip Hl (up m) d) as Hrdb. cbn zeta in Hrdb.
  pose proof (CheckLoginAttempt_preserves l now (auth.SanitizeEmail raw) ip email' ip' m Hinv)
    as Hchk.
  destruct (check_cases l now (auth.SanitizeEmail raw) ip m)
    as [(ttl & Hpos & E) | [(e0 & Hpass & E) | [Hpass [[rem E] | [err E]]]]];
    rewrite E in Hrdb, Hchk; cbn [fst snd] in Hrdb, Hchk.
  - destruct Hrdb as [-> | [Hno _]]; [|destruct (Hno 0 ttl eq_refl)].
    apply (coexist_later now); assumption.
  - destruct Hrdb as [-> | [Hno _]];
      [|destruct (Hno 0 (ratelimit.lockoutDuration l) eq_refl)].
    apply (coexist_later now); assumption.
  - destruct Hrdb as [-> | [_ [-> | ->]]].
    + apply (coexist_later now); assumption.
    + apply RecordFailedAttempt_later; [apply Hgone, Hpass|].
      apply (coexist_later now); assumption.
    + apply (coexist_later now); [assumption|].
      apply RecordSuccessfulAttempt_preserves. assumption.
  - destruct Hrdb as [-> | [_ [-> | ->]]].
    + apply (coexist_later now); assumption.
    + apply RecordFailedAttempt_later; [apply Hgone, Hpass|].
      apply (coexist_later now); assumption.
    + apply (coexist_later now); [assumption|].
      apply RecordSuccessfulAttempt_preserves. assumption.
Qed.
End exclusion.

(** C8, as the code has it: for every pair (email', ip'), an operation on the
    pair (email, ip) keeps the counter and the lockout marker of (email', ip')
    from existing together when it is the admission check on a reachable
    store, the record of a success, or the clearing of a lockout; the record
    of a failure keeps them apart when no lockout marker of (email, ip) is
    alive; and the passing of time keeps them apart.  The log-in path
    records a failure only after a check that did not deny: on a reachable
    store it keeps the two keys apart when the marker of the pair is absent
    or has half a second or more to live, and, whenever the marker has a
    deadline, the two keys are apart again half a second after the log-in. *)
Theorem counter_and_marker_exclusive `{Primitives} (l : ratelimit.Limiter) (now : Z)
    (email ip email' ip' : string) :
  (forall m,
     coexist now email' ip' (up m) = false ->
     coexist now email' ip' (snd (ratelimit.CheckLoginAttempt l now email ip (up m))) = false) /\
  (forall c,
     coexist now email' ip' c = false ->
     coexist now email' ip' (snd (ratelimit.RecordSuccessfulAttempt l now email ip c)) = false) /\
  (forall c,
     coexist now email' ip' c = false ->
     coexist now email' ip' (snd (ratelimit.ClearLockout l now email ip c)) = false) /\
  (forall c,
     redis.lookup now (ratelimit.LoginLockoutKey email ip) (redis.entries c) = None ->
     coexist now email' ip' c = false ->
     coexist now email' ip' (snd (ratelimit.RecordFailedAttempt l now email ip c)) = false) /\
  (forall c later,
     now <= later ->
     coexist now email' ip' c = false -> coexist later email' ip' c = false) /\
  (forall s jtis raw password m d,
     auth.rateLimiter s = Some l ->
     auth.SanitizeEmail raw = email ->
     coexist now email' ip' (up m) = false ->
     let after := auth.rdb (snd (auth.AuthenticateEmailPassword s now jtis raw password ip
                                   {| auth.rdb := up m; auth.db := d |})) in
     (redis.lookup now (ratelimit.LoginLockoutKey email ip) m = None \/
      (exists e deadline,
         m !! ratelimit.LoginLockoutKey email ip = Some e /\
         redis.deadline e = Some deadline /\ half_second <= deadline - now) ->
      coexist now email' ip' after = false) /\
     ((forall e, m !! ratelimit.LoginLockoutKey email ip = Some e ->
                 redis.deadline e <> None) ->
      coexist (now + half_second) email' ip' after = false)).
Proof.
  split; [apply CheckLoginAttempt_preserves|].
  split; [apply RecordSuccessfulAttempt_preserves|].
  split; [apply ClearLockout_preserves|].
  split; [apply RecordFailedAttempt_preserves|].
  split; [intros c later; apply coexist_later|].
  intros s jtis raw password m d Hl He Hinv after. subst after. split.
  - intros Hmarker.
    apply (login_keeps_apart l now email ip email' ip' s jtis raw password m d now);
      [exact Hl | exact He | lia | | exact Hinv].
    intros Hpass. apply marker_passes_absent; assumption.
  - intros Htimed. pose proof half_second_pos.
    apply (login_keeps_apart l now email ip email' ip' s jtis raw password m d
             (now + half_second)); [exact Hl | exact He | lia | | exact Hinv].
    intros Hpass. apply marker_passes_later; assumption.
Qed.

Lemma counter_and_marker_exclusive_witness :
  let m := {[ ratelimit.LoginAttemptKey "x@y.com" "10.0.0.1" :=
                {| redis.val := 5; redis.deadline := Some (10 * time.Minute) |} ]} in
  coexist time.Second "x@y.com" "10.0.0.1"
    (snd (ratelimit.CheckLoginAttempt default_limiter time.Second "x@y.com" "10.0.0.1" (up m)))
  = false /\
  coexist time.Second "x@y.com" "10.0.0.1"
    (auth.rdb (snd (@auth.AuthenticateEmailPassword sample_primitives sample_service
                      time.Second ("jti-1", "jti-2") " X@Y.com" "wrong" "10.0.0.1"
                      {| auth.rdb := up m; auth.db := sample_db reachable |})))
  = false.
Proof.
  intros m.
  destruct (@counter_and_marker_exclusive sample_primitives default_limiter time.Second
              "x@y.com" "10.0.0.1" "x@y.com" "10.0.0.1") as (H1 & _ & _ & _ & _ & H6).
  split.
  - apply H1. vm_compute. reflexivity.
  - destruct (H6 sample_service ("jti-1", "jti-2") " X@Y.com" "wrong" m (sample_db reachable))
      as [H _].
    + reflexivity.
    + vm_compute. reflexivity.
    + vm_compute. reflexivity.
    + apply H. left. vm_compute. reflexivity.
Defined.

(** A log-in in the last half second of a lockout: the check lets it
    through, and the failure is recorded beside the marker, which is alive
    for another 400 ms. *)
Lemma login_in_the_last_half_second :
  let now := 15 * time.Minute - 400 * time.Millisecond in
  let after := auth.rdb (snd (@auth.AuthenticateEmailPassword sample_primitives sample_service
                                now ("jti-1", "jti-2") "x@y.com" "wrong" "10.0.0.1"
                                locked_world)) in
  coexist now "x@y.com" "10.0.0.1" (auth.rdb locked_world) = false /\
  coexist now "x@y.com" "10.0.0.1" after = true /\
  coexist (now + half_second) "x@y.com" "10.0.0.1" after = false.
Proof. vm_compute. repeat split; reflexivity. Qed.

(** A configured lockout of zero: the marker is written without a deadline,
    no check is denied for it, and the failures recorded after it stay beside
    it. *)
Lemma marker_without_deadline :
  let l := ratelimit.NewLimiter (10 * time.Minute) 5 0 in
  let s := {| auth.tokenService := sample_token_service; auth.rateLimiter := Some l |} in
  let m : gmap string redis.entry :=
    {[ ratelimit.LoginAttemptKey "x@y.com" "10.0.0.1" :=
         {| redis.val := 5; redis.deadline := Some (10 * time.Minute) |} ]} in
  let c6 := snd (ratelimit.CheckLoginAttempt l time.Minute "x@y.com" "10.0.0.1" (up m)) in
  let after := auth.rdb (snd (@auth.AuthenticateEmailPassword sample_primitives s
                                (2 * time.Minute) ("jti-1", "jti-2") "x@y.com" "wrong"
                                "10.0.0.1"
                                {| auth.rdb := c6; auth.db := sample_db reachable |})) in
  redis.entries c6 !! ratelimit.LoginLockoutKey "x@y.com" "10.0.0.1"
    = Some {| redis.val := 1; redis.deadline := None |} /\
  coexist (2 * time.Minute) "x@y.com" "10.0.0.1" c6 = false /\
  coexist (2 * time.Minute) "x@y.com" "10.0.0.1" after = true /\
  coexist (3 * time.Minute) "x@y.com" "10.0.0.1" after = true.
Proof. vm_compute. repeat split; reflexivity. Qed.

(** ** The address a log-in works with *)


